(** * Cool-roof savings calculator (streamlit_cool_roof_app.py)

    A shallow embedding of the calculator script.  Every number the script
    handles is a Python [float], that is an IEEE-754 binary64 value, so the
    arithmetic below is the binary64 arithmetic of the Standard Library's
    [SpecFloat] (round to nearest, ties to even), not real arithmetic.
    The script is one function from the values of its widgets to the values
    it displays and exports; the exceptions Python can raise on the way
    (a missing dict key, an index out of range, a division by zero) are
    results of that function. *)

From Stdlib Require Import ZArith QArith Qabs List Bool String Lia.
From Stdlib Require Import SpecFloat.
Import ListNotations.
Local Open Scope Z_scope.

(** ** Python floats *)

Module F64.

Definition prec : Z := 53.
Definition emax : Z := 1024.

Definition float : Type := spec_float.

Definition mul : float -> float -> float := SFmul prec emax.
Definition div : float -> float -> float := SFdiv prec emax.
Definition add : float -> float -> float := SFadd prec emax.

(** Python's [x <= y], [x > y], [x == y] on floats; all are [False] as
    soon as one side is NaN. *)
Definition leb : float -> float -> bool := SFleb.
Definition gtb (x y : float) : bool := SFltb y x.
Definition eqb : float -> float -> bool := SFeqb.

(** The float nearest to an integer, and the float nearest to the decimal
    fraction [n / d]: this is how Python reads a literal such as [10.7639]
    ([n = 107639], [d = 10000]; both are below [2^53], so the one rounding
    of the division is the only rounding). *)
Definition of_Z (z : Z) : float := binary_normalize prec emax z 0 false.
Definition lit (n : Z) (d : positive) : float := div (of_Z n) (of_Z (Zpos d)).

Definition zero : float := S754_zero false.

(** [x == 0.0] *)
Definition is_zero (x : float) : bool :=
  match x with S754_zero _ => true | _ => false end.

Definition is_nan (x : float) : bool :=
  match x with S754_nan => true | _ => false end.
Definition is_inf (x : float) : bool :=
  match x with S754_infinity _ => true | _ => false end.
(** [math.isfinite] *)
Definition is_finite (x : float) : bool :=
  match x with S754_zero _ | S754_finite _ _ _ => true | _ => false end.

(** A [spec_float] that is a binary64 value: the mantissa and exponent of
    a finite number are the canonical ones. *)
Definition wf (x : float) : bool := valid_binary prec emax x.

(** The exact rational value of a finite float. *)
Definition to_Q (x : float) : option Q :=
  match x with
  | S754_zero _ => Some 0%Q
  | S754_finite s m e =>
      let v := match e with
               | Zneg p => Qmake (Zpos m) (2 ^ p)%positive
               | _ => inject_Z (Zpos m * 2 ^ e)
               end in
      Some (if s then Qopp v else v)
  | _ => None
  end.

End F64.

Declare Scope f64_scope.
Delimit Scope f64_scope with f64.
Bind Scope f64_scope with F64.float.
Infix "*" := F64.mul : f64_scope.
Infix "/" := F64.div : f64_scope.
Infix "+" := F64.add : f64_scope.
Infix ">?" := F64.gtb : f64_scope.
Infix "<=?" := F64.leb : f64_scope.

Arguments F64.mul : simpl never.
Arguments F64.div : simpl never.
Arguments F64.add : simpl never.
Arguments F64.gtb : simpl never.
Arguments F64.leb : simpl never.
Arguments F64.of_Z : simpl never.
Arguments F64.lit : simpl never.
Arguments F64.is_zero : simpl never.

(** ** Exceptions *)

Inductive exn : Type := KeyError | IndexError | ZeroDivisionError.

Inductive result (A : Type) : Type :=
| Ok (a : A)
| Raise (e : exn).
Arguments Ok {A} a.
Arguments Raise {A} e.

Definition bind {A B : Type} (c : result A) (k : A -> result B) : result B :=
  match c with
  | Ok a => k a
  | Raise e => Raise e
  end.

Notation "x <- c ;; k" := (bind c (fun x => k))
  (at level 61, c at next level, right associativity).

(** Python's [x / y] on floats: a zero divisor raises, anything else is
    the binary64 quotient. *)
Definition truediv (x y : F64.float) : result F64.float :=
  if F64.is_zero y then Raise ZeroDivisionError else Ok (x / y)%f64.

(** [d[key]] on a dict written as its list of items. *)
Fixpoint dict_get {V : Type} (d : list (string * V)) (key : string) : result V :=
  match d with
  | [] => Raise KeyError
  | (k, v) :: rest => if String.eqb k key then Ok v else dict_get rest key
  end.

(** [a[-1]] on an array. *)
Fixpoint last_item {V : Type} (a : list V) : result V :=
  match a with
  | [] => Raise IndexError
  | [x] => Ok x
  | _ :: rest => last_item rest
  end.

(** [np.cumsum]: the running sums, accumulated from left to right; the
    first entry is the first element itself. *)
Fixpoint cumsum_from (acc : F64.float) (a : list F64.float) : list F64.float :=
  match a with
  | [] => []
  | x :: rest => let s := (acc + x)%f64 in s :: cumsum_from s rest
  end.

Definition cumsum (a : list F64.float) : list F64.float :=
  match a with
  | [] => []
  | x :: rest => x :: cumsum_from x rest
  end.

(** [np.full_like(a, v, dtype=float)] *)
Definition full_like {V : Type} (a : list V) (v : F64.float) : list F64.float :=
  map (fun _ => v) a.

(** [np.arange(lo, hi)] for [lo <= hi] *)
Definition arange (lo hi : Z) : list Z :=
  map (fun k => lo + Z.of_nat k) (seq 0 (Z.to_nat (hi - lo))).

(** ** Sidebar inputs *)

(** The three options of the roof selectbox and of the AC selectbox. *)
Inductive RoofOption : Type := Blacha_metal | Beton | Papa_bitum.
Inductive AcOption : Type := Stary | Standard | Wysoka_sprawnosc.

Definition roof_label (r : RoofOption) : string :=
  match r with
  | Blacha_metal => "Blacha (metal)"
  | Beton => "Beton"
  | Papa_bitum => "Papa/bitum"
  end.

Definition ac_label (a : AcOption) : string :=
  match a with
  | Stary => "Stary"
  | Standard => "Standard"
  | Wysoka_sprawnosc => "Wysoka sprawność"
  end.

(** What the widgets return in one run of the script.  [eer_input] is the
    value of the EER number input, which exists only when [custom_eer_on];
    [unit_cost] is the value of the coating-cost input, which exists only
    when [cost_on]. *)
Record Widgets : Type := {
  area_m2 : F64.float;
  roof_type : RoofOption;
  ac_band : AcOption;
  custom_eer_on : bool;
  eer_input : F64.float;
  price_pln : F64.float;
  ef_kg_per_kwh : F64.float;
  cost_on : bool;
  unit_cost : F64.float
}.

(** The [min_value] bounds of the number inputs: area at least 10.0, EER
    at least 5.0 and coating cost at least 0.0 (when these inputs are
    shown), price and emission factor at least 0.0. *)
Definition min_values (w : Widgets) : bool :=
  (F64.of_Z 10 <=? area_m2 w)%f64
  && (if custom_eer_on w then (F64.of_Z 5 <=? eer_input w)%f64 else true)
  && (F64.zero <=? price_pln w)%f64
  && (F64.zero <=? ef_kg_per_kwh w)%f64
  && (if cost_on w then (F64.zero <=? unit_cost w)%f64 else true).

(** ** The script *)

(** Lines 38-48. *)
Definition select_eer (w : Widgets) : F64.float :=
  if custom_eer_on w then eer_input w
  else if String.eqb (ac_label (ac_band w)) "Stary" then F64.of_Z 9
  else if String.eqb (ac_label (ac_band w)) "Standard" then F64.of_Z 11
  else F64.of_Z 13.

(** Lines 65-69. *)
Definition roof_multipliers : list (string * F64.float) :=
  [ ("Blacha (metal)"%string, F64.lit 100 100);
    ("Beton"%string, F64.lit 95 100);
    ("Papa/bitum"%string, F64.lit 105 100) ].

Definition FT2_PER_M2 : F64.float := F64.lit 107639 10000.
Definition BTU_TO_J : F64.float := F64.lit 105506 100.
Definition KG_PER_TREE_PER_YEAR : F64.float := F64.of_Z 22.
Definition KG_PER_CAR_KM : F64.float := F64.lit 2 10.

(** Lines 157-167: nothing is shown when the checkbox is off, an info box
    with the payback time when there are savings, a warning otherwise. *)
Inductive Payback : Type :=
| PaybackOff
| PaybackInfo (payback_years capex : F64.float)
| PaybackWarning.

Inductive Cell : Type :=
| Num (x : F64.float)
| Str (s : string).

Record Outputs : Type := {
  eer : F64.float;
  roof_mult : F64.float;
  area_ft2 : F64.float;
  reduction_btu_per_ft2 : F64.float;
  total_reduction_btu : F64.float;
  kwh_saved : F64.float;
  pln_saved : F64.float;
  kg_co2_saved : F64.float;
  t_co2_saved : F64.float;
  gj_saved : F64.float;
  trees_eq : F64.float;
  km_eq : F64.float;
  years : list Z;
  kwh_cum : list F64.float;
  pln_cum : list F64.float;
  tco2_cum : list F64.float;
  payback : Payback;
  summary : list (list (string * Cell))
}.

Definition payback_section (w : Widgets) (pln_saved : F64.float) : result Payback :=
  if cost_on w then
    let capex := (unit_cost w * area_m2 w)%f64 in
    if (pln_saved >? F64.zero)%f64 then
      payback_years <- truediv capex pln_saved ;;
      Ok (PaybackInfo payback_years capex)
    else Ok PaybackWarning
  else Ok PaybackOff.

(** One run of the script, top to bottom. *)
Definition app (w : Widgets) : result Outputs :=
  let eer := select_eer w in
  roof_mult <- dict_get roof_multipliers (roof_label (roof_type w)) ;;
  let area_ft2 := (area_m2 w * FT2_PER_M2)%f64 in
  let reduction_btu_per_ft2 := (F64.of_Z 5833 * roof_mult)%f64 in
  let total_reduction_btu := (area_ft2 * reduction_btu_per_ft2)%f64 in
  kwh_saved <- truediv total_reduction_btu (eer * F64.of_Z 1000)%f64 ;;
  let pln_saved := (kwh_saved * price_pln w)%f64 in
  let kg_co2_saved := (kwh_saved * ef_kg_per_kwh w)%f64 in
  t_co2_saved <- truediv kg_co2_saved (F64.of_Z 1000) ;;
  gj_saved <-
    truediv (total_reduction_btu * BTU_TO_J)%f64 (F64.of_Z 1000000000) ;;
  trees_eq <-
    (if (KG_PER_TREE_PER_YEAR >? F64.zero)%f64
     then truediv kg_co2_saved KG_PER_TREE_PER_YEAR else Ok F64.zero) ;;
  km_eq <-
    (if (KG_PER_CAR_KM >? F64.zero)%f64
     then truediv kg_co2_saved KG_PER_CAR_KM else Ok F64.zero) ;;
  let years := arange 1 21 in
  let kwh_yearly := full_like years kwh_saved in
  let pln_yearly := full_like years pln_saved in
  let tco2_yearly := full_like years t_co2_saved in
  let kwh_cum := cumsum kwh_yearly in
  let pln_cum := cumsum pln_yearly in
  let tco2_cum := cumsum tco2_yearly in
  payback <- payback_section w pln_saved ;;
  kwh_20lat <- last_item kwh_cum ;;
  pln_20lat <- last_item pln_cum ;;
  tco2_20lat <- last_item tco2_cum ;;
  let summary :=
    [ [ ("Powierzchnia_m2"%string, Num (area_m2 w));
      ("Rodzaj_dachu"%string, Str (roof_label (roof_type w)));
      ("EER"%string, Num eer);
      ("Cena_energii_PLN_kWh"%string, Num (price_pln w));
      ("EF_kgCO2_kWh"%string, Num (ef_kg_per_kwh w));
      ("kWh_rok"%string, Num kwh_saved);
      ("PLN_rok"%string, Num pln_saved);
      ("tCO2_rok"%string, Num t_co2_saved);
      ("kWh_20lat"%string, Num kwh_20lat);
      ("PLN_20lat"%string, Num pln_20lat);
      ("tCO2_20lat"%string, Num tco2_20lat) ] ] in
  Ok {| eer := eer; roof_mult := roof_mult; area_ft2 := area_ft2;
        reduction_btu_per_ft2 := reduction_btu_per_ft2;
        total_reduction_btu := total_reduction_btu;
        kwh_saved := kwh_saved; pln_saved := pln_saved;
        kg_co2_saved := kg_co2_saved; t_co2_saved := t_co2_saved;
        gj_saved := gj_saved; trees_eq := trees_eq; km_eq := km_eq;
        years := years; kwh_cum := kwh_cum; pln_cum := pln_cum;
        tco2_cum := tco2_cum; payback := payback; summary := summary |}.

(** The default values of the widgets (area 1000, first roof option,
    band "Standard", price 0.85, emission factor 0.77, both checkboxes
    off; the two hidden inputs at their own defaults 11.0 and 50.0). *)
Definition defaults : Widgets :=
  {| area_m2 := F64.of_Z 1000; roof_type := Blacha_metal;
     ac_band := Standard; custom_eer_on := false;
     eer_input := F64.of_Z 11; price_pln := F64.lit 85 100;
     ef_kg_per_kwh := F64.lit 77 100; cost_on := false;
     unit_cost := F64.of_Z 50 |}.

(** Selecting another option in a selectbox or typing another number in
    an input, the other widgets as they are. *)
Definition set_roof_type (w : Widgets) (r : RoofOption) : Widgets :=
  {| area_m2 := area_m2 w; roof_type := r; ac_band := ac_band w;
     custom_eer_on := custom_eer_on w; eer_input := eer_input w;
     price_pln := price_pln w; ef_kg_per_kwh := ef_kg_per_kwh w;
     cost_on := cost_on w; unit_cost := unit_cost w |}.

Definition set_ac_band (w : Widgets) (a : AcOption) : Widgets :=
  {| area_m2 := area_m2 w; roof_type := roof_type w; ac_band := a;
     custom_eer_on := custom_eer_on w; eer_input := eer_input w;
     price_pln := price_pln w; ef_kg_per_kwh := ef_kg_per_kwh w;
     cost_on := cost_on w; unit_cost := unit_cost w |}.

Definition set_area_m2 (w : Widgets) (a : F64.float) : Widgets :=
  {| area_m2 := a; roof_type := roof_type w; ac_band := ac_band w;
     custom_eer_on := custom_eer_on w; eer_input := eer_input w;
     price_pln := price_pln w; ef_kg_per_kwh := ef_kg_per_kwh w;
     cost_on := cost_on w; unit_cost := unit_cost w |}.

Definition set_price_pln (w : Widgets) (p : F64.float) : Widgets :=
  {| area_m2 := area_m2 w; roof_type := roof_type w; ac_band := ac_band w;
     custom_eer_on := custom_eer_on w; eer_input := eer_input w;
     price_pln := p; ef_kg_per_kwh := ef_kg_per_kwh w;
     cost_on := cost_on w; unit_cost := unit_cost w |}.

(** Ticking the payback checkbox and typing a coating cost; ticking the
    custom-EER checkbox and typing an EER. *)
Definition set_cost (w : Widgets) (c : F64.float) : Widgets :=
  {| area_m2 := area_m2 w; roof_type := roof_type w; ac_band := ac_band w;
     custom_eer_on := custom_eer_on w; eer_input := eer_input w;
     price_pln := price_pln w; ef_kg_per_kwh := ef_kg_per_kwh w;
     cost_on := true; unit_cost := c |}.

Definition set_custom_eer (w : Widgets) (e : F64.float) : Widgets :=
  {| area_m2 := area_m2 w; roof_type := roof_type w; ac_band := ac_band w;
     custom_eer_on := true; eer_input := e;
     price_pln := price_pln w; ef_kg_per_kwh := ef_kg_per_kwh w;
     cost_on := cost_on w; unit_cost := unit_cost w |}.

(** The multiplier and the band EER as tables over the options. *)
Definition multiplier_of (r : RoofOption) : F64.float :=
  match r with
  | Blacha_metal => F64.lit 100 100
  | Beton => F64.lit 95 100
  | Papa_bitum => F64.lit 105 100
  end.

Definition band_eer (a : AcOption) : F64.float :=
  match a with
  | Stary => F64.of_Z 9
  | Standard => F64.of_Z 11
  | Wysoka_sprawnosc => F64.of_Z 13
  end.

(** What the payback section shows, as a function. *)
Definition payback_of (w : Widgets) (pln_saved : F64.float) : Payback :=
  if cost_on w then
    if (pln_saved >? F64.zero)%f64 then
      PaybackInfo ((unit_cost w * area_m2 w) / pln_saved)%f64
                  (unit_cost w * area_m2 w)%f64
    else PaybackWarning
  else PaybackOff.

(** The sum of [k + 1] copies of [x], added from left to right. *)
Fixpoint sum_copies (x : F64.float) (k : nat) : F64.float :=
  match k with
  | O => x
  | S k' => (sum_copies x k' + x)%f64
  end.

(** [x] read as an exact rational lies within [tol] of [v]. *)
Definition approx (x : F64.float) (v tol : Q) : bool :=
  match F64.to_Q x with
  | Some q => Qle_bool (Qabs (q - v)) tol
  | None => false
  end.

(** ** Ranges of floats *)

(** Zero, or a positive float below [2 ^ k]. *)
Definition nonneg_below (k : Z) (x : spec_float) : bool :=
  match x with
  | S754_zero _ => true
  | S754_finite s m e => negb s && (Zdigits2 (Zpos m) + e <=? k)
  | _ => false
  end.

(** A positive normal float (53 digits) with exponent from [lo] to [hi]. *)
Definition pos_normal (lo hi : Z) (x : spec_float) : bool :=
  match x with
  | S754_finite s m e =>
      negb s && (Zdigits2 (Zpos m) =? 53) && (lo <=? e) && (e <=? hi)
  | _ => false
  end.

(** The float with the exponent one higher: twice the float, when it is
    normal and the result does not overflow. *)
Definition scale2 (x : spec_float) : spec_float :=
  match x with
  | S754_finite s m e => S754_finite s m (e + 1)
  | _ => x
  end.

(** Twice a float. *)
Definition double (x : F64.float) : F64.float := (F64.of_Z 2 * x)%f64.

(** The bounds of the moderate range, 1e22 and 1e-22; [10 ^ 22] is
    [5 ^ 22 * 2 ^ 22] with [5 ^ 22] below [2 ^ 53], a binary64 number. *)
Definition BIG : F64.float := F64.of_Z (10 ^ 22).
Definition TINY : F64.float := F64.lit 1 (10 ^ 22).

(** [x == 0 or lo <= x] *)
Definition zero_or_above (lo x : F64.float) : bool :=
  F64.eqb x F64.zero || (lo <=? x)%f64.

(** The inputs are binary64 numbers of moderate size: none is above 1e22,
    and the price is zero or at least 1e-22. *)
Definition moderate (w : Widgets) : bool :=
  F64.wf (area_m2 w) && (area_m2 w <=? BIG)%f64
  && (if custom_eer_on w
      then F64.wf (eer_input w) && (eer_input w <=? BIG)%f64 else true)
  && F64.wf (price_pln w) && (price_pln w <=? BIG)%f64
  && zero_or_above TINY (price_pln w)
  && F64.wf (ef_kg_per_kwh w) && (ef_kg_per_kwh w <=? BIG)%f64
  && (if cost_on w
      then F64.wf (unit_cost w) && (unit_cost w <=? BIG)%f64 else true).

Definition cell_finite (c : string * Cell) : bool :=
  match snd c with
  | Num x => F64.is_finite x
  | Str _ => true
  end.

(** No output is NaN or an infinity. *)
Definition all_finite (o : Outputs) : bool :=
  F64.is_finite (eer o) && F64.is_finite (roof_mult o)
  && F64.is_finite (area_ft2 o) && F64.is_finite (reduction_btu_per_ft2 o)
  && F64.is_finite (total_reduction_btu o) && F64.is_finite (kwh_saved o)
  && F64.is_finite (pln_saved o) && F64.is_finite (kg_co2_saved o)
  && F64.is_finite (t_co2_saved o) && F64.is_finite (gj_saved o)
  && F64.is_finite (trees_eq o) && F64.is_finite (km_eq o)
  && forallb F64.is_finite (kwh_cum o) && forallb F64.is_finite (pln_cum o)
  && forallb F64.is_finite (tco2_cum o)
  && forallb (forallb cell_finite) (summary o)
  && match payback o with
     | PaybackInfo payback_years capex =>
         F64.is_finite payback_years && F64.is_finite capex
     | _ => true
     end.

(** The scenario of the example: area 1000, metal roof, EER 11.0, price
    0.85, emission factor 0.77, coating cost 50 per square metre. *)
Definition example_scenario : Widgets := set_cost defaults (F64.of_Z 50).

(** The smallest positive float, written [5e-324] in Python. *)
Definition MIN_SUBNORMAL : F64.float := S754_finite false 1 (-1074).

(** A roof of 2e303 square metres, the other widgets at their defaults. *)
Definition vast_roof : Widgets :=
  set_area_m2 defaults (F64.of_Z (2 * 10 ^ 303)).

(** ** Rounding to nearest *)

(** [num / den] rounded to the nearest integer, ties to even. *)
Definition rne (num den : Z) : Z :=
  let q := num / den in
  match Z.compare (2 * (num mod den)) den with
  | Lt => q
  | Eq => if Z.even q then q else q + 1
  | Gt => q + 1
  end.

(** The float with mantissa [m1] between [2 ^ 52] and [2 ^ 53] and
    exponent [e1]: a mantissa rounded up to [2 ^ 53] moves to the next
    exponent. *)
Definition normal_of (s : bool) (m1 e1 : Z) : spec_float :=
  if m1 <? 2 ^ 53 then S754_finite s (Z.to_pos m1) e1
  else S754_finite s (2 ^ 52) (e1 + 1).

(** Zero of either sign, or a positive normal float with exponent from
    [lo] to [hi]. *)
Definition zero_or_pos_normal (lo hi : Z) (x : spec_float) : bool :=
  match x with
  | S754_zero _ => true
  | _ => pos_normal lo hi x
  end.

(** ** Comparing two runs *)

(** Typing another emission factor, the other widgets as they are. *)
Definition set_ef_kg_per_kwh (w : Widgets) (f : F64.float) : Widgets :=
  {| area_m2 := area_m2 w; roof_type := roof_type w; ac_band := ac_band w;
     custom_eer_on := custom_eer_on w; eer_input := eer_input w;
     price_pln := price_pln w; ef_kg_per_kwh := f;
     cost_on := cost_on w; unit_cost := unit_cost w |}.

(** Ticking or unticking the payback checkbox and typing a coating
    cost, the other widgets as they are. *)
Definition set_payback_inputs (w : Widgets) (on : bool) (c : F64.float) : Widgets :=
  {| area_m2 := area_m2 w; roof_type := roof_type w; ac_band := ac_band w;
     custom_eer_on := custom_eer_on w; eer_input := eer_input w;
     price_pln := price_pln w; ef_kg_per_kwh := ef_kg_per_kwh w;
     cost_on := on; unit_cost := c |}.

(** The outputs with another payback section. *)
Definition with_payback (o : Outputs) (p : Payback) : Outputs :=
  {| eer := eer o; roof_mult := roof_mult o; area_ft2 := area_ft2 o;
     reduction_btu_per_ft2 := reduction_btu_per_ft2 o;
     total_reduction_btu := total_reduction_btu o;
     kwh_saved := kwh_saved o; pln_saved := pln_saved o;
     kg_co2_saved := kg_co2_saved o; t_co2_saved := t_co2_saved o;
     gj_saved := gj_saved o; trees_eq := trees_eq o; km_eq := km_eq o;
     years := years o; kwh_cum := kwh_cum o; pln_cum := pln_cum o;
     tco2_cum := tco2_cum o; payback := p; summary := summary o |}.

(** Every entry of [a] is at most the entry of [b] at the same place. *)
Fixpoint list_leb (a b : list F64.float) : bool :=
  match a, b with
  | [], [] => true
  | x :: a', y :: b' => (x <=? y)%f64 && list_leb a' b'
  | _, _ => false
  end.

(** No figure of the first run is above the same figure of the second:
    the yearly values and every entry of the 20-year series. *)
Definition savings_leb (o1 o2 : Outputs) : bool :=
  (total_reduction_btu o1 <=? total_reduction_btu o2)%f64
  && (kwh_saved o1 <=? kwh_saved o2)%f64
  && (pln_saved o1 <=? pln_saved o2)%f64
  && (kg_co2_saved o1 <=? kg_co2_saved o2)%f64
  && (t_co2_saved o1 <=? t_co2_saved o2)%f64
  && (gj_saved o1 <=? gj_saved o2)%f64
  && (trees_eq o1 <=? trees_eq o2)%f64
  && (km_eq o1 <=? km_eq o2)%f64
  && list_leb (kwh_cum o1) (kwh_cum o2)
  && list_leb (pln_cum o1) (pln_cum o2)
  && list_leb (tco2_cum o1) (tco2_cum o2).

(** ** Signs *)

(** Not a negative number and not minus infinity: zero of either sign, a
    positive number, plus infinity or NaN. *)
Definition nonneg_sign (x : spec_float) : bool :=
  match x with
  | S754_finite s _ _ | S754_infinity s => negb s
  | _ => true
  end.

(** Python's [x < 0]. *)
Definition below_zero (x : F64.float) : bool := (F64.zero >? x)%f64.

(** No figure of a run is below zero. *)
Definition never_negative (o : Outputs) : bool :=
  negb (below_zero (eer o)) && negb (below_zero (roof_mult o))
  && negb (below_zero (area_ft2 o)) && negb (below_zero (reduction_btu_per_ft2 o))
  && negb (below_zero (total_reduction_btu o)) && negb (below_zero (kwh_saved o))
  && negb (below_zero (pln_saved o)) && negb (below_zero (kg_co2_saved o))
  && negb (below_zero (t_co2_saved o)) && negb (below_zero (gj_saved o))
  && negb (below_zero (trees_eq o)) && negb (below_zero (km_eq o))
  && forallb (fun x => negb (below_zero x)) (kwh_cum o)
  && forallb (fun x => negb (below_zero x)) (pln_cum o)
  && forallb (fun x => negb (below_zero x)) (tco2_cum o)
  && match payback o with
     | PaybackInfo payback_years capex =>
         negb (below_zero payback_years) && negb (below_zero capex)
     | _ => true
     end.

(** * Properties *)

(** ** Binary64 rounding *)

(** What follows bounds the results of the binary64 operations by the
    number of binary digits of their operands. *)

Lemma digits2_pos_size (p : positive) : digits2_pos p = Pos.size p.
Proof. induction p; cbn; congruence. Qed.

Lemma Zdigits2_log2 (m : Z) : 0 < m -> Zdigits2 m = Z.log2 m + 1.
Proof.
  destruct m as [|p|p]; try lia. intros _. cbn [Zdigits2].
  rewrite digits2_pos_size. destruct p; cbn; lia.
Qed.

Lemma Zdigits2_bounds (m : Z) :
  0 < m -> 2 ^ (Zdigits2 m - 1) <= m < 2 ^ Zdigits2 m.
Proof.
  intros H. rewrite Zdigits2_log2 by assumption.
  replace (Z.log2 m + 1 - 1) with (Z.log2 m) by lia.
  replace (Z.log2 m + 1) with (Z.succ (Z.log2 m)) by lia.
  now apply Z.log2_spec.
Qed.

Lemma Zdigits2_unique (m k : Z) :
  0 < k -> 2 ^ (k - 1) <= m < 2 ^ k -> Zdigits2 m = k.
Proof.
  intros Hk H. assert (0 < m) by (pose proof (Z.pow_pos_nonneg 2 (k - 1)); lia).
  rewrite Zdigits2_log2 by assumption.
  rewrite (Z.log2_unique m (k - 1)); try lia.
  replace (Z.succ (k - 1)) with k by lia. assumption.
Qed.

Lemma Zdigits2_nonneg (m : Z) : 0 <= m -> 0 <= Zdigits2 m.
Proof. destruct m; cbn; lia. Qed.

Lemma Zdigits2_pos (m : Z) : 0 < m -> 0 < Zdigits2 m.
Proof. destruct m; cbn; lia. Qed.

(** digits of an upper-bounded number *)
Lemma Zdigits2_le_pow (m k : Z) : 0 <= k -> 0 <= m < 2 ^ k -> Zdigits2 m <= k.
Proof.
  intros Hk [H0 H]. destruct (Z.eq_dec m 0) as [->|Hm]; [cbn; lia|].
  pose proof (Zdigits2_bounds m ltac:(lia)) as [Hl _].
  destruct (Z_le_gt_dec (Zdigits2 m) k) as [|Hgt]; [assumption|exfalso].
  assert (2 ^ k <= 2 ^ (Zdigits2 m - 1)) by (apply Z.pow_le_mono_r; lia). lia.
Qed.

Lemma Zdigits2_ge_pow (m k : Z) : 0 <= k -> 2 ^ k <= m -> k + 1 <= Zdigits2 m.
Proof.
  intros Hk H. assert (0 < m) by (pose proof (Z.pow_pos_nonneg 2 k); lia).
  pose proof (Zdigits2_bounds m ltac:(lia)) as [_ Hu].
  destruct (Z_le_gt_dec (k + 1) (Zdigits2 m)) as [|Hgt]; [assumption|exfalso].
  assert (2 ^ Zdigits2 m <= 2 ^ k) by (apply Z.pow_le_mono_r; lia). lia.
Qed.

Lemma Zdigits2_div_pow2 (m n : Z) :
  0 <= n -> 0 < m / 2 ^ n -> Zdigits2 (m / 2 ^ n) = Zdigits2 m - n.
Proof.
  intros Hn Hq.
  assert (Hp : 0 < 2 ^ n) by (apply Z.pow_pos_nonneg; lia).
  assert (Hm : 2 ^ n <= m).
  { destruct (Z_lt_le_dec m (2 ^ n)) as [Hlt|]; [|assumption].
    destruct (Z_lt_le_dec m 0) as [Hneg|Hnn].
    - assert (m / 2 ^ n < 0) by (apply Z.div_lt_upper_bound; lia). lia.
    - rewrite Z.div_small in Hq by lia. lia. }
  pose proof (Zdigits2_bounds m ltac:(lia)) as [Hl Hu].
  assert (Hdn : n + 1 <= Zdigits2 m) by (apply Zdigits2_ge_pow; lia).
  apply Zdigits2_unique; [lia|]. split.
  - apply Z.div_le_lower_bound; [lia|].
    rewrite <- Z.pow_add_r by lia.
    replace (n + (Zdigits2 m - n - 1)) with (Zdigits2 m - 1) by lia. assumption.
  - apply Z.div_lt_upper_bound; [lia|].
    rewrite <- Z.pow_add_r by lia.
    replace (n + (Zdigits2 m - n)) with (Zdigits2 m) by lia. assumption.
Qed.

(** Rounding up by one adds at most one digit. *)
Lemma Zdigits2_round_le (a m1 : Z) :
  0 <= a -> a <= m1 <= a + 1 -> Zdigits2 m1 <= Zdigits2 a + 1.
Proof.
  intros Ha H. apply Zdigits2_le_pow; [pose proof (Zdigits2_nonneg a Ha); lia|].
  split; [lia|].
  destruct (Z.eq_dec a 0) as [->|Hne]; [cbn; lia|].
  pose proof (Zdigits2_bounds a ltac:(lia)) as [_ Hu].
  pose proof (Zdigits2_pos a ltac:(lia)).
  rewrite Z.pow_add_r by lia. lia.
Qed.

Lemma Zdigits2_mul_le (a b : Z) :
  0 < a -> 0 < b -> Zdigits2 (a * b) <= Zdigits2 a + Zdigits2 b.
Proof.
  intros Ha Hb.
  pose proof (Zdigits2_bounds a Ha) as [_ Hua].
  pose proof (Zdigits2_bounds b Hb) as [_ Hub].
  pose proof (Zdigits2_pos a Ha). pose proof (Zdigits2_pos b Hb).
  apply Zdigits2_le_pow; [lia|]. rewrite Z.pow_add_r by lia.
  split; [lia|]. apply Z.mul_lt_mono_nonneg; lia.
Qed.

Lemma Zdigits2_mul_ge (a b : Z) :
  0 < a -> 0 < b -> Zdigits2 a + Zdigits2 b - 1 <= Zdigits2 (a * b).
Proof.
  intros Ha Hb.
  pose proof (Zdigits2_bounds a Ha) as [Hla _].
  pose proof (Zdigits2_bounds b Hb) as [Hlb _].
  pose proof (Zdigits2_pos a Ha). pose proof (Zdigits2_pos b Hb).
  assert (H2 : 2 ^ (Zdigits2 a - 1 + (Zdigits2 b - 1)) <= a * b).
  { rewrite Z.pow_add_r by lia.
    apply Z.mul_le_mono_nonneg; try assumption; apply Z.pow_nonneg; lia. }
  apply Zdigits2_ge_pow in H2; lia.
Qed.

Lemma Zdigits2_mul_pow2 (m j : Z) :
  0 < m -> 0 <= j -> Zdigits2 (m * 2 ^ j) = Zdigits2 m + j.
Proof.
  intros Hm Hj. pose proof (Zdigits2_bounds m Hm) as [Hl Hu].
  pose proof (Zdigits2_pos m Hm).
  pose proof (Z.pow_pos_nonneg 2 j).
  apply Zdigits2_unique; [lia|]. split.
  - replace (Zdigits2 m + j - 1) with (Zdigits2 m - 1 + j) by lia.
    rewrite Z.pow_add_r by lia. apply Z.mul_le_mono_nonneg_r; lia.
  - rewrite Z.pow_add_r by lia. apply Z.mul_lt_mono_pos_r; lia.
Qed.

(** *** Shifting right *)

Lemma shr_1_m (mrs : shr_record) :
  0 <= shr_m mrs -> shr_m (shr_1 mrs) = shr_m mrs / 2 /\ 0 <= shr_m (shr_1 mrs).
Proof.
  destruct mrs as [m r s]. cbn [shr_m]. intros Hm.
  destruct m as [|[p|p|]|p]; try lia; cbn [shr_1 shr_m].
  - split; reflexivity || lia.
  - split; [|lia]. apply (Z.div_unique _ _ _ 1); lia.
  - split; [|lia]. apply (Z.div_unique _ _ _ 0); lia.
  - split; reflexivity || lia.
Qed.

Lemma iter_pos_shr_1_m (p : positive) (mrs : shr_record) :
  0 <= shr_m mrs ->
  shr_m (iter_pos shr_1 p mrs) = shr_m mrs / 2 ^ Zpos p /\
  0 <= shr_m (iter_pos shr_1 p mrs).
Proof.
  revert mrs. induction p as [p IH|p IH|]; intros mrs Hm; cbn [iter_pos].
  - destruct (shr_1_m mrs Hm) as [E1 P1].
    destruct (IH _ P1) as [E2 P2]. destruct (IH _ P2) as [E3 P3].
    split; [|assumption]. rewrite E3, E2, E1.
    rewrite !Z.div_div by (try apply Z.pow_pos_nonneg; lia).
    f_equal. replace (Z.pos p~1) with (1 + Z.pos p + Z.pos p) by lia.
    rewrite !Z.pow_add_r by lia. lia.
  - destruct (IH _ Hm) as [E2 P2]. destruct (IH _ P2) as [E3 P3].
    split; [|assumption]. rewrite E3, E2.
    rewrite !Z.div_div by (try apply Z.pow_pos_nonneg; lia).
    f_equal. replace (Z.pos p~0) with (Z.pos p + Z.pos p) by lia.
    rewrite !Z.pow_add_r by lia. lia.
  - destruct (shr_1_m mrs Hm) as [E1 P1]. split; [|assumption].
    now rewrite E1.
Qed.

Lemma shr_m_loc (m : Z) (l : location) : shr_m (shr_record_of_loc m l) = m.
Proof. destruct l as [|[| |]]; reflexivity. Qed.

(** The mantissa and the exponent after [shr]. *)
Lemma shr_spec (mrs : shr_record) (e n : Z) :
  0 <= shr_m mrs ->
  shr_m (fst (shr mrs e n)) = shr_m mrs / 2 ^ Z.max 0 n /\
  snd (shr mrs e n) = e + Z.max 0 n.
Proof.
  intros Hm. destruct n as [|p|p]; cbn [shr fst snd].
  - rewrite Z.max_id, Z.div_1_r. lia.
  - destruct (iter_pos_shr_1_m p mrs Hm) as [E _].
    rewrite E. replace (Z.max 0 (Z.pos p)) with (Z.pos p) by lia. split; lia.
  - replace (Z.max 0 (Z.neg p)) with 0 by lia. rewrite Z.div_1_r. lia.
Qed.

Lemma round_nearest_even_bounds (m : Z) (l : location) :
  m <= round_nearest_even m l <= m + 1.
Proof.
  destruct l as [|[| |]]; cbn [round_nearest_even]; try lia.
  destruct (Z.even m); lia.
Qed.

(** [binary_round_aux] as arithmetic on the mantissa: a first shift by
    [n1] bits, a rounding that adds 0 or 1, and a second shift by [n2]
    bits. *)
Lemma binary_round_aux_shape (s : bool) (m e : Z) (l : location) :
  0 <= m ->
  exists m1,
    let n1 := Z.max 0 (fexp 53 1024 (Zdigits2 m + e) - e) in
    let e1 := e + n1 in
    let n2 := Z.max 0 (fexp 53 1024 (Zdigits2 m1 + e1) - e1) in
    m / 2 ^ n1 <= m1 <= m / 2 ^ n1 + 1 /\
    binary_round_aux 53 1024 s m e l =
      match m1 / 2 ^ n2 with
      | Z0 => S754_zero s
      | Zpos q =>
          if e1 + n2 <=? 1024 - 53 then S754_finite s q (e1 + n2)
          else S754_infinity s
      | Zneg _ => S754_nan
      end.
Proof.
  intros Hm. unfold binary_round_aux, shr_fexp.
  set (r0 := shr_record_of_loc m l).
  assert (H0 : 0 <= shr_m r0) by (unfold r0; now rewrite shr_m_loc).
  destruct (shr_spec r0 e (fexp 53 1024 (Zdigits2 m + e) - e) H0) as [Em Ee].
  unfold r0 in Em; rewrite shr_m_loc in Em. fold r0 in Em.
  destruct (shr r0 e (fexp 53 1024 (Zdigits2 m + e) - e)) as [mrs' e'].
  cbn [fst snd] in Em, Ee.
  set (m1 := round_nearest_even (shr_m mrs') (loc_of_shr_record mrs')).
  exists m1. cbv zeta.
  pose proof (round_nearest_even_bounds (shr_m mrs') (loc_of_shr_record mrs')) as Hr.
  fold m1 in Hr. rewrite Em in Hr. split; [exact Hr|].
  assert (Hm1 : 0 <= m1).
  { assert (0 <= m / 2 ^ Z.max 0 (fexp 53 1024 (Zdigits2 m + e) - e)).
    { apply Z.div_pos; [assumption | apply Z.pow_pos_nonneg; lia]. }
    lia. }
  rewrite <- Ee.
  pose proof (shr_spec (shr_record_of_loc m1 loc_Exact) e'
                (fexp 53 1024 (Zdigits2 m1 + e') - e')) as H2.
  rewrite shr_m_loc in H2. destruct (H2 Hm1) as [E2m E2e]. clear H2.
  destruct (shr (shr_record_of_loc m1 loc_Exact) e'
              (fexp 53 1024 (Zdigits2 m1 + e') - e')) as [mrs'' e''].
  cbn [fst snd] in E2m, E2e. rewrite E2m, E2e.
  destruct (m1 / 2 ^ Z.max 0 (fexp 53 1024 (Zdigits2 m1 + e') - e')); reflexivity.
Qed.

Lemma fexp_eq (x : Z) : fexp 53 1024 x = Z.max (x - 53) (-1074).
Proof. reflexivity. Qed.

(** The result of a rounding is below [2 ^ k] as soon as the number
    rounded is, with one binary digit of slack. *)
Lemma binary_round_aux_below (s : bool) (m e : Z) (l : location) (k : Z) :
  0 <= m -> Zdigits2 m + e < k -> (-1074) < k -> k <= 971 ->
  match binary_round_aux 53 1024 s m e l with
  | S754_zero s' => s' = s
  | S754_finite s' q e' => s' = s /\ Zdigits2 (Zpos q) + e' <= k
  | _ => False
  end.
Proof.
  intros Hm Hd Hk1 Hk2.
  destruct (binary_round_aux_shape s m e l Hm) as (m1 & Hr & ->).
  cbv zeta in Hr |- *. rewrite !fexp_eq in *.
  pose proof (Zdigits2_nonneg m Hm) as Hdm.
  set (n1 := Z.max 0 (Z.max (Zdigits2 m + e - 53) (-1074) - e)) in *.
  assert (Hn1 : 0 <= n1) by lia.
  assert (Hq1 : 0 <= m / 2 ^ n1)
    by (apply Z.div_pos; [lia | apply Z.pow_pos_nonneg; lia]).
  assert (Hm1 : 0 <= m1) by lia.
  assert (Hd1 : Zdigits2 m1 + (e + n1) <= k).
  { destruct (Z.eq_dec (m / 2 ^ n1) 0) as [E0|N0].
    - assert (Zdigits2 m1 <= 1) by (apply Zdigits2_le_pow; lia).
      lia.
    - pose proof (Zdigits2_div_pow2 m n1 Hn1 ltac:(lia)) as Hdq.
      pose proof (Zdigits2_round_le _ _ Hq1 Hr). lia. }
  pose proof (Zdigits2_nonneg m1 Hm1) as Hdm1.
  set (n2 := Z.max 0 (Z.max (Zdigits2 m1 + (e + n1) - 53) (-1074) - (e + n1))) in *.
  assert (Hn2 : 0 <= n2) by lia.
  assert (Hq2 : 0 <= m1 / 2 ^ n2)
    by (apply Z.div_pos; [lia | apply Z.pow_pos_nonneg; lia]).
  destruct (m1 / 2 ^ n2) as [|q|q] eqn:Eq; [reflexivity| |lia].
  pose proof (Zdigits2_div_pow2 m1 n2 Hn2 ltac:(lia)) as Hdq. rewrite Eq in Hdq.
  assert (He : e + n1 + n2 <= 1024 - 53) by (idtac; lia).
  apply Z.leb_le in He. rewrite He. split; [reflexivity|lia].
Qed.

(** Rounding a mantissa of at least 53 digits whose exponent stays in the
    normal range gives a normal number, with the exponent the digits
    force or one more. *)
Lemma binary_round_aux_normal (s : bool) (m e : Z) (l : location) :
  0 < m -> 53 <= Zdigits2 m ->
  (-1074) <= e + Zdigits2 m - 53 -> e + Zdigits2 m - 52 <= 971 ->
  exists q e',
    binary_round_aux 53 1024 s m e l = S754_finite s q e' /\
    Zdigits2 (Zpos q) = 53 /\
    e + Zdigits2 m - 53 <= e' <= e + Zdigits2 m - 52.
Proof.
  intros Hm Hd Hlo Hhi.
  destruct (binary_round_aux_shape s m e l ltac:(lia)) as (m1 & Hr & ->).
  cbv zeta in Hr |- *. rewrite !fexp_eq in *. idtac.
  replace (Z.max 0 (Z.max (Zdigits2 m + e - 53) (-1074) - e))
    with (Zdigits2 m - 53) in * by lia.
  set (n1 := Zdigits2 m - 53) in *.
  assert (Hn1 : 0 <= n1) by lia.
  pose proof (Zdigits2_bounds m Hm) as [Hl Hu].
  assert (Hql : 2 ^ 52 <= m / 2 ^ n1).
  { apply Z.div_le_lower_bound; [apply Z.pow_pos_nonneg; lia|].
    rewrite <- Z.pow_add_r by lia.
    replace (n1 + 52) with (Zdigits2 m - 1) by lia. assumption. }
  assert (Hqu : m / 2 ^ n1 < 2 ^ 53).
  { apply Z.div_lt_upper_bound; [apply Z.pow_pos_nonneg; lia|].
    rewrite <- Z.pow_add_r by lia.
    replace (n1 + 53) with (Zdigits2 m) by lia. assumption. }
  destruct (Z_lt_le_dec m1 (2 ^ 53)) as [Hlt|Hge].
  - assert (E1 : Zdigits2 m1 = 53) by (apply Zdigits2_unique; lia).
    rewrite E1.
    replace (Z.max 0 (Z.max (53 + (e + n1) - 53) (-1074) - (e + n1))) with 0 by lia.
    rewrite Z.div_1_r. destruct m1 as [|q|q]; try lia.
    exists q, (e + n1 + 0). replace (e + n1 + 0 <=? 1024 - 53) with true
      by (symmetry; apply Z.leb_le; lia).
    repeat split; try assumption; lia.
  - assert (E : m1 = 2 ^ 53) by lia. subst m1.
    change (Zdigits2 (2 ^ 53)) with 54.
    replace (Z.max 0 (Z.max (54 + (e + n1) - 53) (-1074) - (e + n1))) with 1 by lia.
    change (2 ^ 53 / 2 ^ 1) with (Zpos (2 ^ 52)).
    exists (2 ^ 52)%positive, (e + n1 + 1).
    replace (e + n1 + 1 <=? 1024 - 53) with true
      by (symmetry; apply Z.leb_le; lia).
    repeat split; try reflexivity; lia.
Qed.

(** *** Ranges of floats *)

Lemma nonneg_below_finite k s m e :
  nonneg_below k (S754_finite s m e) = true <->
  s = false /\ Zdigits2 (Zpos m) + e <= k.
Proof.
  cbn [nonneg_below]. rewrite andb_true_iff, negb_true_iff, Z.leb_le. tauto.
Qed.

Lemma pos_normal_finite lo hi s m e :
  pos_normal lo hi (S754_finite s m e) = true <->
  s = false /\ Zdigits2 (Zpos m) = 53 /\ lo <= e <= hi.
Proof.
  cbn [pos_normal].
  rewrite !andb_true_iff, negb_true_iff, Z.eqb_eq, !Z.leb_le. tauto.
Qed.

Lemma pos_normal_inv lo hi x :
  pos_normal lo hi x = true ->
  exists m e, x = S754_finite false m e /\
              Zdigits2 (Zpos m) = 53 /\ lo <= e <= hi.
Proof.
  destruct x as [| | |s m e]; try discriminate.
  intros H. apply pos_normal_finite in H as (-> & Hd & He). eauto.
Qed.

Lemma pos_normal_below lo hi x k :
  pos_normal lo hi x = true -> hi + 53 <= k -> nonneg_below k x = true.
Proof.
  intros H Hk. apply pos_normal_inv in H as (m & e & -> & Hd & He).
  apply nonneg_below_finite. split; [reflexivity|lia].
Qed.

Lemma round_below_nonneg (m e : Z) (l : location) (k : Z) :
  0 <= m -> Zdigits2 m + e < k -> (-1074) < k -> k <= 971 ->
  nonneg_below k (binary_round_aux 53 1024 false m e l) = true.
Proof.
  intros Hm Hd Hk1 Hk2.
  pose proof (binary_round_aux_below false m e l k Hm Hd Hk1 Hk2) as H.
  destruct (binary_round_aux 53 1024 false m e l) as [| | |s q e']; try easy.
  apply nonneg_below_finite. exact H.
Qed.

Lemma mul_below (k1 k2 k : Z) (x y : spec_float) :
  nonneg_below k1 x = true -> nonneg_below k2 y = true ->
  k1 + k2 < k -> (-1074) < k -> k <= 971 ->
  nonneg_below k (SFmul 53 1024 x y) = true.
Proof.
  intros Hx Hy Hk Hk1 Hk2.
  destruct x as [sx| | |sx mx ex]; try discriminate;
  destruct y as [sy| | |sy my ey]; try discriminate; try reflexivity.
  apply nonneg_below_finite in Hx as [-> Hx], Hy as [-> Hy].
  cbn [SFmul xorb]. apply round_below_nonneg; try assumption; [lia|].
  rewrite Pos2Z.inj_mul.
  pose proof (Zdigits2_mul_le (Zpos mx) (Zpos my) ltac:(lia) ltac:(lia)). lia.
Qed.

Lemma mul_normal (l1 h1 l2 h2 : Z) (x y : spec_float) :
  pos_normal l1 h1 x = true -> pos_normal l2 h2 y = true ->
  (-1074) <= l1 + l2 + 52 -> h1 + h2 + 54 <= 971 ->
  pos_normal (l1 + l2 + 52) (h1 + h2 + 54) (SFmul 53 1024 x y) = true.
Proof.
  intros Hx Hy Hlo Hhi.
  apply pos_normal_inv in Hx as (mx & ex & -> & Hdx & Hex).
  apply pos_normal_inv in Hy as (my & ey & -> & Hdy & Hey).
  cbn [SFmul xorb]. rewrite Pos2Z.inj_mul.
  pose proof (Zdigits2_mul_le (Zpos mx) (Zpos my) ltac:(lia) ltac:(lia)).
  pose proof (Zdigits2_mul_ge (Zpos mx) (Zpos my) ltac:(lia) ltac:(lia)).
  destruct (binary_round_aux_normal false (Zpos mx * Zpos my) (ex + ey) loc_Exact)
    as (q & e' & -> & Hq & He'); try lia.
  apply pos_normal_finite. repeat split; try assumption; lia.
Qed.

(** The quotient that [SFdiv] rounds: the dividend is shifted left by
    [ex - ey - e'] bits, where [e'] is the exponent aimed at. *)
Lemma div_core_spec (mx my : positive) (ex ey : Z) :
  let e' := Z.min (fexp 53 1024 (Zdigits2 (Zpos mx) + ex - (Zdigits2 (Zpos my) + ey)))
                  (ex - ey) in
  exists l,
    SFdiv_core_binary 53 1024 (Zpos mx) ex (Zpos my) ey =
    (Zpos mx * 2 ^ (ex - ey - e') / Zpos my, e', l).
Proof.
  cbv zeta. unfold SFdiv_core_binary.
  set (e' := Z.min _ (ex - ey)).
  assert (Hs : 0 <= ex - ey - e') by lia.
  set (m' := match ex - ey - e' with
             | 0 => Zpos mx
             | Zpos _ => Z.shiftl (Zpos mx) (ex - ey - e')
             | Zneg _ => 0
             end).
  assert (Hm' : m' = Zpos mx * 2 ^ (ex - ey - e')).
  { unfold m'. destruct (ex - ey - e') as [|p|p] eqn:E; try lia.
    now rewrite Z.shiftl_mul_pow2 by lia. }
  rewrite <- Hm'. unfold Z.div.
  destruct (Z.div_eucl m' (Zpos my)) as [q r]. eexists; reflexivity.
Qed.

Lemma div_below (k1 lo hi k : Z) (x y : spec_float) :
  nonneg_below k1 x = true -> pos_normal lo hi y = true ->
  k1 - (lo + 53) + 1 < k -> (-1074) < k -> k <= 971 ->
  nonneg_below k (SFdiv 53 1024 x y) = true.
Proof.
  intros Hx Hy Hk Hk1 Hk2.
  apply pos_normal_inv in Hy as (my & ey & -> & Hdy & Hey).
  destruct x as [sx| | |sx mx ex]; try discriminate; [reflexivity|].
  apply nonneg_below_finite in Hx as [-> Hx].
  cbn [SFdiv xorb].
  destruct (div_core_spec mx my ex ey) as [l ->]. cbv zeta.
  rewrite Hdy, fexp_eq.
  set (e' := Z.min _ (ex - ey)).
  set (sh := ex - ey - e'). assert (Hs : 0 <= sh) by (unfold sh; lia).
  pose proof (Zdigits2_bounds (Zpos my) ltac:(lia)) as [Hly _]. rewrite Hdy in Hly.
  pose proof (Zdigits2_bounds (Zpos mx) ltac:(lia)) as [_ Hux].
  pose proof (Zdigits2_pos (Zpos mx) ltac:(lia)) as Hdx.
  assert (Hq0 : 0 <= Zpos mx * 2 ^ sh / Zpos my).
  { apply Z.div_pos; [|lia]. apply Z.mul_nonneg_nonneg; [lia|]. apply Z.pow_nonneg; lia. }
  apply round_below_nonneg; try assumption.
  destruct (Z_lt_le_dec (Zdigits2 (Zpos mx) + sh) 52) as [Hsmall|Hbig].
  - (* the quotient is zero *)
    rewrite Z.div_small; [cbn [Zdigits2]; unfold e' in *; lia|].
    split; [apply Z.mul_nonneg_nonneg; [lia | apply Z.pow_nonneg; lia]|].
    apply Z.lt_le_trans with (2 ^ (Zdigits2 (Zpos mx) + sh)).
    + rewrite Z.pow_add_r by lia. apply Z.mul_lt_mono_pos_r; [apply Z.pow_pos_nonneg|]; lia.
    + apply Z.le_trans with (2 ^ 52); [apply Z.pow_le_mono_r; lia | lia].
  - assert (Hq : Zpos mx * 2 ^ sh / Zpos my < 2 ^ (Zdigits2 (Zpos mx) + sh - 52)).
    { apply Z.div_lt_upper_bound; [lia|].
      apply Z.lt_le_trans with (2 ^ (Zdigits2 (Zpos mx) + sh)).
      - rewrite Z.pow_add_r by lia.
        apply Z.mul_lt_mono_pos_r; [apply Z.pow_pos_nonneg|]; lia.
      - replace (Zdigits2 (Zpos mx) + sh) with (52 + (Zdigits2 (Zpos mx) + sh - 52)) at 1 by lia.
        rewrite Z.pow_add_r by lia.
        apply Z.mul_le_mono_nonneg_r; [apply Z.pow_nonneg|]; lia. }
    pose proof (Zdigits2_le_pow _ (Zdigits2 (Zpos mx) + sh - 52) ltac:(lia) (conj Hq0 Hq)).
    unfold sh in *. lia.
Qed.

Lemma div_normal (l1 h1 l2 h2 : Z) (x y : spec_float) :
  pos_normal l1 h1 x = true -> pos_normal l2 h2 y = true ->
  (-1074) <= l1 - h2 - 53 -> h1 - l2 - 51 <= 971 ->
  pos_normal (l1 - h2 - 53) (h1 - l2 - 51) (SFdiv 53 1024 x y) = true.
Proof.
  intros Hx Hy Hlo Hhi.
  apply pos_normal_inv in Hx as (mx & ex & -> & Hdx & Hex).
  apply pos_normal_inv in Hy as (my & ey & -> & Hdy & Hey).
  cbn [SFdiv xorb].
  destruct (div_core_spec mx my ex ey) as [l ->]. cbv zeta.
  rewrite Hdx, Hdy, fexp_eq. idtac.
  replace (Z.min (Z.max (53 + ex - (53 + ey) - 53) (-1074)) (ex - ey))
    with (ex - ey - 53) by lia.
  replace (ex - ey - (ex - ey - 53)) with 53 by lia.
  pose proof (Zdigits2_bounds (Zpos mx) ltac:(lia)) as [Hlx Hux].
  pose proof (Zdigits2_bounds (Zpos my) ltac:(lia)) as [Hly Huy].
  rewrite Hdx in Hlx, Hux. rewrite Hdy in Hly, Huy.
  set (q := Zpos mx * 2 ^ 53 / Zpos my).
  assert (Hql : 2 ^ 52 <= q).
  { apply Z.div_le_lower_bound; [lia|]. change (53 - 1) with 52 in *. nia. }
  assert (Hqu : q < 2 ^ 54).
  { apply Z.div_lt_upper_bound; [lia|]. change (53 - 1) with 52 in *. nia. }
  assert (Hdq : 53 <= Zdigits2 q <= 54).
  { split; [apply (Zdigits2_ge_pow q 52); lia | apply Zdigits2_le_pow; lia]. }
  destruct (binary_round_aux_normal false q (ex - ey - 53) l)
    as (q' & e' & -> & Hq' & He'); try lia.
  apply pos_normal_finite. repeat split; try assumption; lia.
Qed.

Lemma iter_xO_spec (m d : positive) :
  Zpos (Pos.iter xO m d) = Zpos m * 2 ^ Zpos d.
Proof.
  induction d as [|d IH] using Pos.peano_ind.
  - cbn [Pos.iter]. lia.
  - rewrite Pos.iter_succ, Pos2Z.inj_xO, IH, Pos2Z.inj_succ, Z.pow_succ_r; lia.
Qed.

Lemma shl_align_spec (m : positive) (e e' : Z) :
  snd (shl_align m e e') = Z.min e e' /\
  Zpos (fst (shl_align m e e')) = Zpos m * 2 ^ (e - Z.min e e').
Proof.
  unfold shl_align. destruct (e' - e) as [|d|d] eqn:E; cbn [fst snd].
  - replace (Z.min e e') with e by lia. rewrite Z.sub_diag. lia.
  - replace (Z.min e e') with e by lia. rewrite Z.sub_diag. lia.
  - replace (Z.min e e') with e' by lia.
    replace (e - e') with (Zpos d) by lia. split; [reflexivity|apply iter_xO_spec].
Qed.

Lemma shl_align_digits (m : positive) (e e' : Z) :
  Zdigits2 (Zpos (fst (shl_align m e e'))) + snd (shl_align m e e') =
  Zdigits2 (Zpos m) + e.
Proof.
  destruct (shl_align_spec m e e') as [-> ->].
  rewrite Zdigits2_mul_pow2 by lia. lia.
Qed.

Lemma add_below (k1 k : Z) (x y : spec_float) :
  nonneg_below k1 x = true -> nonneg_below k1 y = true ->
  k1 + 1 < k -> (-1074) < k -> k <= 971 ->
  nonneg_below k (SFadd 53 1024 x y) = true.
Proof.
  intros Hx Hy Hk Hk1 Hk2.
  destruct x as [sx| | |sx mx ex]; try discriminate;
  destruct y as [sy| | |sy my ey]; try discriminate.
  - destruct sx, sy; reflexivity.
  - cbn [SFadd]. apply nonneg_below_finite in Hy as [-> Hy].
    apply nonneg_below_finite. split; [reflexivity|lia].
  - cbn [SFadd]. apply nonneg_below_finite in Hx as [-> Hx].
    apply nonneg_below_finite. split; [reflexivity|lia].
  - apply nonneg_below_finite in Hx as [-> Hx], Hy as [-> Hy].
    cbn [SFadd cond_Zopp].
    set (ez := Z.min ex ey).
    pose proof (shl_align_digits mx ex ez) as Hax.
    pose proof (shl_align_digits my ey ez) as Hay.
    destruct (shl_align_spec mx ex ez) as [Esx _].
    destruct (shl_align_spec my ey ez) as [Esy _].
    rewrite Esx in Hax. rewrite Esy in Hay.
    replace (Z.min ex ez) with ez in Hax by (unfold ez; lia).
    replace (Z.min ey ez) with ez in Hay by (unfold ez; lia).
    set (a := fst (shl_align mx ex ez)) in *.
    set (b := fst (shl_align my ey ez)) in *.
    change (Zpos a + Zpos b) with (Zpos (a + b)).
    cbn [binary_normalize]. unfold binary_round.
    pose proof (shl_align_digits (a + b) ez
                  (fexp 53 1024 (Zpos (digits2_pos (a + b)) + ez))) as Hs.
    destruct (shl_align (a + b) ez _) as [mz ez']. cbn [fst snd] in Hs.
    apply round_below_nonneg; try assumption; [lia|].
    rewrite Hs.
    pose proof (Zdigits2_bounds (Zpos a) ltac:(lia)) as [_ Hua].
    pose proof (Zdigits2_bounds (Zpos b) ltac:(lia)) as [_ Hub].
    pose proof (Zdigits2_pos (Zpos a) ltac:(lia)).
    assert (Ha : Zpos a < 2 ^ (k1 - ez)).
    { apply Z.lt_le_trans with (1 := Hua). apply Z.pow_le_mono_r; lia. }
    assert (Hb : Zpos b < 2 ^ (k1 - ez)).
    { apply Z.lt_le_trans with (1 := Hub). apply Z.pow_le_mono_r; lia. }
    assert (Zdigits2 (Zpos (a + b)) <= k1 - ez + 1).
    { apply Zdigits2_le_pow; [lia|]. rewrite Z.pow_add_r by lia. lia. }
    lia.
Qed.

(** *** Ranges from comparisons *)

Lemma range_normal (x : spec_float) (mc mC : positive) (ec eC : Z) :
  valid_binary 53 1024 x = true ->
  SFleb (S754_finite false mc ec) x = true ->
  SFleb x (S754_finite false mC eC) = true ->
  (-1074) < ec ->
  pos_normal ec eC x = true.
Proof.
  intros Hwf Hlo Hhi Hec.
  destruct x as [s|s| |s m e]; try discriminate.
  - destruct s; discriminate.
  - destruct s; try discriminate.
    unfold SFleb, SFcompare in Hlo, Hhi.
    destruct (Z.compare_spec ec e); try discriminate;
    destruct (Z.compare_spec e eC); try discriminate;
    cbn [valid_binary] in Hwf; unfold bounded, canonical_mantissa in Hwf;
    apply andb_prop in Hwf as [Hc _]; apply Z.eqb_eq in Hc; rewrite fexp_eq in Hc;
    apply pos_normal_finite; cbn [Zdigits2]; repeat split; lia.
Qed.

Lemma range_below (x : spec_float) (mC : positive) (eC : Z) :
  valid_binary 53 1024 x = true ->
  SFleb (S754_zero false) x = true ->
  SFleb x (S754_finite false mC eC) = true ->
  nonneg_below (eC + 53) x = true.
Proof.
  intros Hwf Hlo Hhi.
  destruct x as [s|s| |s m e]; try discriminate; [reflexivity|destruct s; discriminate|].
  destruct s; try discriminate.
  unfold SFleb, SFcompare in Hhi.
  destruct (Z.compare_spec e eC); try discriminate;
  cbn [valid_binary] in Hwf; unfold bounded, canonical_mantissa in Hwf;
  apply andb_prop in Hwf as [Hc _]; apply Z.eqb_eq in Hc; rewrite fexp_eq in Hc;
  apply nonneg_below_finite; cbn [Zdigits2]; split; reflexivity || lia.
Qed.

(** *** Doubling *)

Lemma shr_shift (mrs : shr_record) (e n : Z) :
  shr mrs (e + 1) n = (fst (shr mrs e n), snd (shr mrs e n) + 1).
Proof. destruct n; cbn [shr fst snd]; f_equal; lia. Qed.

Lemma shr_nonpos (mrs : shr_record) (e n : Z) : n <= 0 -> shr mrs e n = (mrs, e).
Proof. destruct n; cbn [shr]; intros; reflexivity || lia. Qed.

Lemma shr_exp_ge (mrs : shr_record) (e n : Z) : e <= snd (shr mrs e n).
Proof. destruct n; cbn [shr snd]; lia. Qed.

Lemma shr_fexp_shift (m e : Z) (l : location) :
  (-1074) <= e ->
  shr_fexp 53 1024 m (e + 1) l =
  (fst (shr_fexp 53 1024 m e l), snd (shr_fexp 53 1024 m e l) + 1).
Proof.
  intros He. unfold shr_fexp. rewrite !fexp_eq.
  destruct (Z_le_gt_dec (-1074) (Zdigits2 m + e - 53)) as [Hn|Hs].
  - replace (Z.max (Zdigits2 m + (e + 1) - 53) (-1074) - (e + 1))
      with (Z.max (Zdigits2 m + e - 53) (-1074) - e) by lia.
    apply shr_shift.
  - rewrite !shr_nonpos by lia. reflexivity.
Qed.

Lemma binary_round_aux_scale2 (s : bool) (m e : Z) (l : location) :
  (-1074) <= e ->
  match binary_round_aux 53 1024 s m e l with
  | S754_zero _ => True
  | S754_finite _ _ e' => e' + 1 <= 1024 - 53
  | _ => False
  end ->
  binary_round_aux 53 1024 s m (e + 1) l =
  scale2 (binary_round_aux 53 1024 s m e l).
Proof.
  intros He. unfold binary_round_aux. rewrite shr_fexp_shift by assumption.
  pose proof (shr_exp_ge (shr_record_of_loc m l) e
                (fexp 53 1024 (Zdigits2 m + e) - e)) as He1.
  fold (shr_fexp 53 1024 m e l) in He1.
  destruct (shr_fexp 53 1024 m e l) as [mrs' e']. cbn [fst snd] in *.
  rewrite shr_fexp_shift by lia.
  destruct (shr_fexp 53 1024 _ e' loc_Exact) as [mrs'' e'']. cbn [fst snd].
  destruct (shr_m mrs'') as [|q|q]; [reflexivity| |contradiction].
  destruct (Z.leb_spec e'' (1024 - 53)); [|contradiction].
  intros Hres. cbn [scale2].
  destruct (Z.leb_spec (e'' + 1) (1024 - 53)); [reflexivity|lia].
Qed.

Lemma div_core_shift (m1 m2 e1 e2 : Z) :
  (-1074) + 53 <= Zdigits2 m1 + e1 - (Zdigits2 m2 + e2) ->
  SFdiv_core_binary 53 1024 m1 (e1 + 1) m2 e2 =
  let '(q, e', l) := SFdiv_core_binary 53 1024 m1 e1 m2 e2 in (q, e' + 1, l).
Proof.
  intros H. unfold SFdiv_core_binary. rewrite !fexp_eq.
  replace (Z.min (Z.max (Zdigits2 m1 + (e1 + 1) - (Zdigits2 m2 + e2) - 53) (-1074))
             (e1 + 1 - e2))
    with (Z.min (Z.max (Zdigits2 m1 + e1 - (Zdigits2 m2 + e2) - 53) (-1074))
             (e1 - e2) + 1) by lia.
  set (E := Z.min _ (e1 - e2)).
  replace (e1 + 1 - e2 - (E + 1)) with (e1 - e2 - E) by lia.
  destruct (Z.div_eucl _ m2). reflexivity.
Qed.

Lemma mul_scale2 (l1 h1 l2 h2 : Z) (x y : spec_float) :
  pos_normal l1 h1 x = true -> pos_normal l2 h2 y = true ->
  (-1074) <= l1 + l2 -> h1 + h2 + 55 <= 971 ->
  SFmul 53 1024 (scale2 x) y = scale2 (SFmul 53 1024 x y).
Proof.
  intros Hx Hy Hlo Hhi.
  apply pos_normal_inv in Hx as (mx & ex & -> & Hdx & Hex).
  apply pos_normal_inv in Hy as (my & ey & -> & Hdy & Hey).
  cbn [scale2 SFmul xorb]. replace (ex + 1 + ey) with (ex + ey + 1) by lia.
  apply binary_round_aux_scale2; [lia|].
  pose proof (Zdigits2_mul_le (Zpos mx) (Zpos my) ltac:(lia) ltac:(lia)).
  pose proof (Zdigits2_mul_ge (Zpos mx) (Zpos my) ltac:(lia) ltac:(lia)).
  rewrite Pos2Z.inj_mul.
  destruct (binary_round_aux_normal false (Zpos mx * Zpos my) (ex + ey) loc_Exact)
    as (q & e' & -> & Hq & He'); lia.
Qed.

Lemma div_scale2 (l1 h1 l2 h2 : Z) (x y : spec_float) :
  pos_normal l1 h1 x = true -> pos_normal l2 h2 y = true ->
  (-1074) <= l1 - h2 - 53 -> h1 - l2 - 50 <= 971 ->
  SFdiv 53 1024 (scale2 x) y = scale2 (SFdiv 53 1024 x y).
Proof.
  intros Hx Hy Hlo Hhi.
  apply pos_normal_inv in Hx as (mx & ex & -> & Hdx & Hex).
  apply pos_normal_inv in Hy as (my & ey & -> & Hdy & Hey).
  cbn [scale2 SFdiv xorb]. rewrite div_core_shift by lia.
  assert (Hn : pos_normal (l1 - h2 - 53) (h1 - l2 - 51)
                 (SFdiv 53 1024 (S754_finite false mx ex) (S754_finite false my ey)) = true).
  { apply div_normal; try lia; apply pos_normal_finite; repeat split; lia. }
  cbn [SFdiv xorb] in Hn.
  destruct (div_core_spec mx my ex ey) as [l E]. cbv zeta in E.
  rewrite Hdx, Hdy, fexp_eq in E. rewrite E in Hn |- *.
  apply binary_round_aux_scale2; [lia|].
  destruct (binary_round_aux 53 1024 false _ _ l) as [| | |s q e'].
  - exact I.
  - discriminate Hn.
  - discriminate Hn.
  - apply pos_normal_finite in Hn. lia.
Qed.

Lemma shr_1_even (a : Z) :
  0 <= a -> shr_1 (Build_shr_record (2 * a) false false) = Build_shr_record a false false.
Proof. destruct a as [|p|p]; intros; reflexivity || lia. Qed.

Lemma iter_shr_1_exact (p : positive) (a : Z) :
  0 <= a ->
  iter_pos shr_1 p (Build_shr_record (a * 2 ^ Zpos p) false false) =
  Build_shr_record a false false.
Proof.
  revert a. induction p as [p IH|p IH|]; intros a Ha; cbn [iter_pos].
  - replace (a * 2 ^ Zpos p~1) with (2 * (a * 2 ^ Zpos p * 2 ^ Zpos p)).
    + assert (0 <= 2 ^ Zpos p) by (apply Z.pow_nonneg; lia).
      rewrite shr_1_even by (repeat apply Z.mul_nonneg_nonneg; lia).
      rewrite IH by (apply Z.mul_nonneg_nonneg; lia). now apply IH.
    + replace (Zpos p~1) with (1 + Zpos p + Zpos p) by lia.
      rewrite !Z.pow_add_r by lia. lia.
  - replace (a * 2 ^ Zpos p~0) with (a * 2 ^ Zpos p * 2 ^ Zpos p).
    + assert (0 <= 2 ^ Zpos p) by (apply Z.pow_nonneg; lia).
      rewrite IH by (apply Z.mul_nonneg_nonneg; lia). now apply IH.
    + replace (Zpos p~0) with (Zpos p + Zpos p) by lia.
      rewrite !Z.pow_add_r by lia. lia.
  - replace (a * 2 ^ 1) with (2 * a) by lia. now apply shr_1_even.
Qed.

(** Twice a normal float that does not overflow is the float with the
    next exponent; twice zero is zero. *)
Lemma mul_two_normal (lo hi : Z) (x : spec_float) :
  pos_normal lo hi x = true -> (-1074) < lo -> hi + 1 <= 971 ->
  SFmul 53 1024 (S754_finite false (2 ^ 52) (-51)) x = scale2 x.
Proof.
  intros Hx Hlo Hhi.
  apply pos_normal_inv in Hx as (m & e & -> & Hd & He).
  cbn [scale2 SFmul xorb]. unfold binary_round_aux, shr_fexp.
  rewrite Pos2Z.inj_mul.
  replace (Zdigits2 (Zpos (2 ^ 52) * Zpos m)) with 105.
  2:{ rewrite Z.mul_comm. change (Zpos (2 ^ 52)) with (2 ^ 52).
      rewrite Zdigits2_mul_pow2 by lia. lia. }
  rewrite fexp_eq.
  replace (Z.max (105 + (-51 + e) - 53) (-1074) - (-51 + e)) with 52 by lia.
  cbn [shr_record_of_loc shr].
  rewrite Z.mul_comm. change (Zpos (2 ^ 52)) with (2 ^ 52).
  rewrite (iter_shr_1_exact 52 (Zpos m)) by lia.
  cbn [shr_m loc_of_shr_record round_nearest_even shr_record_of_loc].
  rewrite Hd, fexp_eq.
  replace (Z.max (53 + (-51 + e + 52) - 53) (-1074) - (-51 + e + 52)) with 0 by lia.
  cbn [shr shr_m].
  replace (-51 + e + 52) with (e + 1) by lia.
  destruct (Z.leb_spec (e + 1) (1024 - 53)); [reflexivity|lia].
Qed.

(** ** The script runs to its end *)

(** The literals of the script as Python reads them, mantissa and
    exponent ([float.hex] gives the same bits). *)
Lemma literals_as_read :
  FT2_PER_M2 = S754_finite false 6059537003631660 (-49) /\
  BTU_TO_J = S754_finite false 4640202952005386 (-42) /\
  F64.lit 95 100 = S754_finite false 8556839292003942 (-53) /\
  F64.lit 105 100 = S754_finite false 4728779608739021 (-52) /\
  F64.lit 100 100 = F64.of_Z 1 /\
  KG_PER_CAR_KM = S754_finite false 7205759403792794 (-55) /\
  F64.lit 85 100 = S754_finite false 7656119366529843 (-53) /\
  F64.lit 77 100 = S754_finite false 6935543426150564 (-53) /\
  TINY = S754_finite false 8507059173023462 (-126) /\
  BIG = S754_finite false 4768371582031250 21.
Proof. repeat split; vm_compute; reflexivity. Qed.

Lemma roof_lookup (r : RoofOption) :
  dict_get roof_multipliers (roof_label r) = Ok (multiplier_of r).
Proof. destruct r; reflexivity. Qed.

Lemma select_eer_band (w : Widgets) :
  select_eer w = if custom_eer_on w then eer_input w else band_eer (ac_band w).
Proof. unfold select_eer. destruct (custom_eer_on w), (ac_band w); reflexivity. Qed.

Lemma cumsum_from_full (x acc : F64.float) (k : nat) (ys : list Z) :
  acc = sum_copies x k ->
  forall i, nth_error (cumsum_from acc (full_like ys x)) i =
            if (i <? List.length ys)%nat then Some (sum_copies x (S k + i)) else None.
Proof.
  revert acc k. induction ys as [|y ys IH]; intros acc k Hacc i.
  - destruct i; reflexivity.
  - destruct i as [|i]; cbn [full_like map cumsum_from nth_error List.length].
    + rewrite Nat.add_0_r. cbn [sum_copies]. now rewrite Hacc.
    + change (map (fun _ : Z => x) ys) with (full_like ys x).
      rewrite (IH _ (S k)) by (cbn [sum_copies]; now rewrite Hacc).
      change (S i <? S (List.length ys))%nat with (i <? List.length ys)%nat.
      now rewrite Nat.add_succ_r.
Qed.

Lemma cumsum_full (x : F64.float) (ys : list Z) (i : nat) :
  nth_error (cumsum (full_like ys x)) i =
  if (i <? List.length ys)%nat then Some (sum_copies x i) else None.
Proof.
  destruct ys as [|y ys]; [destruct i; reflexivity|].
  destruct i as [|i]; [reflexivity|].
  cbn [full_like map cumsum nth_error List.length].
  change (map (fun _ : Z => x) ys) with (full_like ys x).
  now rewrite (cumsum_from_full x x 0 ys eq_refl).
Qed.

Lemma cumsum_length (a : list F64.float) : List.length (cumsum a) = List.length a.
Proof.
  destruct a as [|x a]; [reflexivity|]. cbn [cumsum List.length]. f_equal.
  generalize x at 1. induction a as [|y a IH]; intro acc; [reflexivity|].
  cbn [cumsum_from List.length]. now rewrite IH.
Qed.

Lemma years_eq :
  arange 1 21 = [1; 2; 3; 4; 5; 6; 7; 8; 9; 10; 11; 12; 13; 14; 15; 16; 17; 18; 19; 20].
Proof. reflexivity. Qed.

Lemma last_item_projection (x : F64.float) :
  last_item (cumsum (full_like (arange 1 21) x)) = Ok (sum_copies x 19).
Proof.
  rewrite years_eq.
  cbv [full_like map cumsum cumsum_from last_item sum_copies]. reflexivity.
Qed.

(** *** Divisions *)

Lemma truediv_ok (x y : F64.float) :
  F64.is_zero y = false -> truediv x y = Ok (x / y)%f64.
Proof. unfold truediv. now intros ->. Qed.

Lemma gtb_zero_not_zero (x : F64.float) :
  (x >? F64.zero)%f64 = true -> F64.is_zero x = false.
Proof. destruct x as [s|s| |s m e]; [destruct s; discriminate|reflexivity..]. Qed.

(** A product or quotient rounded from a positive mantissa whose exponent
    is not below the smallest one is not rounded to zero and keeps its
    sign. *)
Lemma binary_round_aux_nonzero (s : bool) (m e : Z) (l : location) :
  0 < m -> -1074 <= e ->
  match binary_round_aux 53 1024 s m e l with
  | S754_finite s' _ _ | S754_infinity s' => s' = s
  | _ => False
  end.
Proof.
  intros Hm He.
  destruct (binary_round_aux_shape s m e l ltac:(lia)) as (m1 & Hr & ->).
  cbv zeta in Hr |- *. rewrite !fexp_eq in *.
  pose proof (Zdigits2_bounds m Hm) as [Hl Hu].
  pose proof (Zdigits2_pos m Hm) as Hd.
  assert (H1 : 1 <= m1).
  { assert (1 <= m / 2 ^ Z.max 0 (Z.max (Zdigits2 m + e - 53) (-1074) - e)); [|lia].
    apply Z.div_le_lower_bound; [apply Z.pow_pos_nonneg; lia|].
    rewrite Z.mul_1_r. apply Z.le_trans with (2 := Hl).
    apply Z.pow_le_mono_r; lia. }
  pose proof (Zdigits2_bounds m1 ltac:(lia)) as [Hl1 Hu1].
  pose proof (Zdigits2_pos m1 ltac:(lia)) as Hd1.
  set (e1 := e + Z.max 0 (Z.max (Zdigits2 m + e - 53) (-1074) - e)) in *.
  assert (H2 : 1 <= m1 / 2 ^ Z.max 0 (Z.max (Zdigits2 m1 + e1 - 53) (-1074) - e1)).
  { apply Z.div_le_lower_bound; [apply Z.pow_pos_nonneg; lia|].
    rewrite Z.mul_1_r. apply Z.le_trans with (2 := Hl1).
    apply Z.pow_le_mono_r; unfold e1; lia. }
  destruct (m1 / 2 ^ _) as [|q|q]; try lia.
  destruct (_ <=? _); reflexivity.
Qed.

(** The divisor of the kWh, EER times 1000.0, is positive as soon as the
    EER is at least 5.0. *)
Lemma divisor_positive (w : Widgets) :
  min_values w = true -> (select_eer w * F64.of_Z 1000 >? F64.zero)%f64 = true.
Proof.
  unfold min_values. rewrite !andb_true_iff. intros ((((_ & He) & _) & _) & _).
  rewrite select_eer_band. destruct (custom_eer_on w); [|destruct (ac_band w); reflexivity].
  destruct (eer_input w) as [s|s| |s m e]; try (destruct s; discriminate); try discriminate.
  - destruct s; [discriminate|reflexivity].
  - destruct s; [discriminate|].
    assert (Hexp : -50 <= e).
    { change (F64.of_Z 5) with (S754_finite false 5629499534213120 (-50)) in He.
      unfold F64.leb, SFleb in He. cbn [SFcompare] in He.
      destruct (Z.compare_spec (-50) e); try lia; discriminate. }
    change (F64.of_Z 1000) with (S754_finite false 8796093022208000 (-43)).
    unfold F64.mul, F64.prec, F64.emax. cbn [SFmul xorb].
    pose proof (binary_round_aux_nonzero false
                  (Zpos (m * 8796093022208000)) (e + -43) loc_Exact) as H.
    destruct (binary_round_aux 53 1024 false _ _ loc_Exact) as [| | |];
      try (exfalso; apply H; lia); rewrite H by lia; reflexivity.
Qed.

Lemma divisor_nonzero (w : Widgets) :
  min_values w = true -> F64.is_zero (select_eer w * F64.of_Z 1000)%f64 = false.
Proof. intros H. now apply gtb_zero_not_zero, divisor_positive. Qed.

Lemma tree_constant_positive : (KG_PER_TREE_PER_YEAR >? F64.zero)%f64 = true.
Proof. reflexivity. Qed.

Lemma car_constant_positive : (KG_PER_CAR_KM >? F64.zero)%f64 = true.
Proof. reflexivity. Qed.

(** The payback section raises nothing: it divides only by positive
    savings. *)
Lemma payback_section_ok (w : Widgets) (pln : F64.float) :
  payback_section w pln = Ok (payback_of w pln).
Proof.
  unfold payback_section, payback_of. destruct (cost_on w); [|reflexivity].
  destruct (pln >? F64.zero)%f64 eqn:Hpos; [|reflexivity].
  now rewrite (truediv_ok _ _ (gtb_zero_not_zero _ Hpos)).
Qed.

(** *** One run *)

(** With [is_zero (select_eer w * 1000) = false] among the hypotheses,
    [run_app] turns [app w] into [Ok] of the record of its outputs. *)
Ltac run_app :=
  unfold app; rewrite roof_lookup; cbv beta iota zeta delta [bind];
  repeat (first [ rewrite truediv_ok by (assumption || reflexivity)
                | rewrite last_item_projection
                | rewrite payback_section_ok
                | rewrite tree_constant_positive
                | rewrite car_constant_positive ];
          cbv beta iota).

Ltac app_result :=
  run_app; eexists; split; [reflexivity|];
  cbn [eer roof_mult area_ft2 reduction_btu_per_ft2 total_reduction_btu
       kwh_saved pln_saved kg_co2_saved t_co2_saved gj_saved trees_eq km_eq
       years kwh_cum pln_cum tco2_cum payback summary].

(** Under the minimum values of the widgets the script raises no
    exception. *)
Lemma app_runs (w : Widgets) : min_values w = true -> exists o, app w = Ok o.
Proof.
  intros Hmin. pose proof (divisor_nonzero w Hmin) as Hdiv.
  run_app. eexists; reflexivity.
Qed.

(** ** The calculation pipeline *)

(** C1: under the widgets' minimum values, the script produces the values
    of the pipeline: the area in square feet is the area times 10.7639,
    the total reduction is that area times the reduction per square foot,
    the kWh saved are the total over (EER times 1000.0), the money saved
    is kWh times the price, the kg of CO2 are kWh times the emission
    factor, the tonnes are the kg over 1000, and the GJ are the total times
    1055.06 over 1e9; every operation is the binary64 one. *)
Theorem pipeline_values (w : Widgets) :
  min_values w = true ->
  exists o, app w = Ok o /\
    eer o = select_eer w /\
    area_ft2 o = (area_m2 w * F64.lit 107639 10000)%f64 /\
    total_reduction_btu o = (area_ft2 o * reduction_btu_per_ft2 o)%f64 /\
    kwh_saved o = (total_reduction_btu o / (eer o * F64.of_Z 1000))%f64 /\
    pln_saved o = (kwh_saved o * price_pln w)%f64 /\
    kg_co2_saved o = (kwh_saved o * ef_kg_per_kwh w)%f64 /\
    t_co2_saved o = (kg_co2_saved o / F64.of_Z 1000)%f64 /\
    gj_saved o =
      ((total_reduction_btu o * F64.lit 105506 100) / F64.of_Z 1000000000)%f64.
Proof.
  intros Hmin. pose proof (divisor_nonzero w Hmin) as Hdiv.
  app_result. repeat split.
Qed.

Lemma pipeline_values_witness :
  min_values defaults = true /\
  exists o, app defaults = Ok o /\
    kwh_saved o = (total_reduction_btu o / (eer o * F64.of_Z 1000))%f64.
Proof.
  split; [reflexivity|].
  destruct (pipeline_values defaults eq_refl) as (o & Ho & _ & _ & _ & Hk & _).
  exists o. split; [exact Ho | exact Hk].
Defined.

Lemma app_reduction (w : Widgets) :
  F64.is_zero (select_eer w * F64.of_Z 1000)%f64 = false ->
  exists o, app w = Ok o /\
    reduction_btu_per_ft2 o = (F64.of_Z 5833 * multiplier_of (roof_type w))%f64.
Proof. intros Hdiv. app_result. reflexivity. Qed.

(** C2: the reduction per square foot is 5833.0 times the multiplier of
    the selected roof, the multiplier being 1.00 for metal, 0.95 for
    concrete and 1.05 for bitumen felt; with the other widgets fixed, the
    reduction for bitumen felt is above the one for metal, which is above
    the one for concrete. *)
Theorem roof_type_reduction (w : Widgets) :
  min_values w = true ->
  (exists o, app w = Ok o /\
     roof_mult o = match roof_type w with
                   | Blacha_metal => F64.lit 100 100
                   | Beton => F64.lit 95 100
                   | Papa_bitum => F64.lit 105 100
                   end /\
     reduction_btu_per_ft2 o = (F64.of_Z 5833 * roof_mult o)%f64) /\
  (exists o_metal o_concrete o_bitumen,
     app (set_roof_type w Blacha_metal) = Ok o_metal /\
     app (set_roof_type w Beton) = Ok o_concrete /\
     app (set_roof_type w Papa_bitum) = Ok o_bitumen /\
     (reduction_btu_per_ft2 o_bitumen >? reduction_btu_per_ft2 o_metal)%f64 = true /\
     (reduction_btu_per_ft2 o_metal >? reduction_btu_per_ft2 o_concrete)%f64 = true).
Proof.
  intros Hmin. pose proof (divisor_nonzero w Hmin) as Hdiv. split.
  - app_result. split; [destruct (roof_type w)|]; reflexivity.
  - destruct (app_reduction (set_roof_type w Blacha_metal) Hdiv) as (o1 & H1 & R1).
    destruct (app_reduction (set_roof_type w Beton) Hdiv) as (o2 & H2 & R2).
    destruct (app_reduction (set_roof_type w Papa_bitum) Hdiv) as (o3 & H3 & R3).
    exists o1, o2, o3. rewrite R1, R2, R3. repeat split; assumption || reflexivity.
Qed.

Lemma roof_type_reduction_witness :
  min_values defaults = true /\
  exists o_metal o_bitumen,
    app (set_roof_type defaults Blacha_metal) = Ok o_metal /\
    app (set_roof_type defaults Papa_bitum) = Ok o_bitumen /\
    (reduction_btu_per_ft2 o_bitumen >? reduction_btu_per_ft2 o_metal)%f64 = true.
Proof.
  split; [reflexivity|].
  destruct (roof_type_reduction defaults eq_refl)
    as (_ & o1 & o2 & o3 & H1 & _ & H3 & Hgt & _).
  exists o1, o3. repeat split; assumption.
Defined.

(** ** The EER *)

Lemma band_eer_min (a : AcOption) : (F64.of_Z 5 <=? band_eer a)%f64 = true.
Proof. destruct a; reflexivity. Qed.

(** C3: without a custom EER the EER is the constant of the selected band,
    9.0 for the old, 11.0 for the standard and 13.0 for the high-efficiency
    one; with a custom EER it is the number typed in, which the widget
    keeps at 5.0 or more. *)
Theorem eer_selection (w : Widgets) :
  min_values w = true ->
  exists o, app w = Ok o /\
    eer o = (if custom_eer_on w then eer_input w
             else match ac_band w with
                  | Stary => F64.of_Z 9
                  | Standard => F64.of_Z 11
                  | Wysoka_sprawnosc => F64.of_Z 13
                  end) /\
    (F64.of_Z 5 <=? eer o)%f64 = true.
Proof.
  intros Hmin. pose proof (divisor_nonzero w Hmin) as Hdiv.
  unfold min_values in Hmin. rewrite !andb_true_iff in Hmin.
  destruct Hmin as ((((_ & He) & _) & _) & _).
  app_result. rewrite select_eer_band.
  destruct (custom_eer_on w).
  - split; [reflexivity | exact He].
  - split; [destruct (ac_band w); reflexivity | apply band_eer_min].
Qed.

Lemma eer_selection_witness :
  min_values defaults = true /\
  exists o, app defaults = Ok o /\ eer o = F64.of_Z 11.
Proof.
  split; [reflexivity|].
  destruct (eer_selection defaults eq_refl) as (o & Ho & He & _).
  exists o. split; [exact Ho | exact He].
Defined.

(** ** Payback *)

Lemma leb_zero_not_gtb (x : F64.float) :
  (x <=? F64.zero)%f64 = true -> (x >? F64.zero)%f64 = false.
Proof. destruct x as [[|]|[|]| |[|] m e]; cbv; congruence. Qed.

(** A positive number is neither zero nor NaN. *)
Lemma gtb_zero_nonzero (x : F64.float) :
  (x >? F64.zero)%f64 = true ->
  F64.is_nan x = false /\ F64.eqb x F64.zero = false.
Proof. destruct x as [[|]|[|]| |[|] m e]; cbv; intuition congruence. Qed.

(** C4: with the coating cost supplied, positive yearly savings give the
    payback time (cost per square metre times area) over the savings;
    savings that are zero or negative give the warning, which carries no
    number; the division is made only by positive savings, never by
    zero. *)
Theorem payback_guard (w : Widgets) :
  min_values w = true -> cost_on w = true ->
  exists o, app w = Ok o /\
    ((pln_saved o >? F64.zero)%f64 = true ->
       payback o = PaybackInfo ((unit_cost w * area_m2 w) / pln_saved o)%f64
                               (unit_cost w * area_m2 w)%f64) /\
    ((pln_saved o <=? F64.zero)%f64 = true -> payback o = PaybackWarning) /\
    (forall y capex, payback o = PaybackInfo y capex ->
       (pln_saved o >? F64.zero)%f64 = true /\
       F64.eqb (pln_saved o) F64.zero = false).
Proof.
  intros Hmin Hcost. pose proof (divisor_nonzero w Hmin) as Hdiv.
  app_result. unfold payback_of. rewrite Hcost.
  set (pln := (_ * price_pln w)%f64).
  repeat split.
  - intros ->. reflexivity.
  - intros H. now rewrite (leb_zero_not_gtb _ H).
  - destruct (pln >? F64.zero)%f64; [reflexivity | discriminate].
  - destruct (pln >? F64.zero)%f64 eqn:E; [|discriminate].
    now apply gtb_zero_nonzero.
Qed.

Lemma payback_guard_witness :
  min_values example_scenario = true /\ cost_on example_scenario = true /\
  exists o, app example_scenario = Ok o /\
    forall y capex, payback o = PaybackInfo y capex ->
      (pln_saved o >? F64.zero)%f64 = true.
Proof.
  split; [reflexivity|]. split; [reflexivity|].
  destruct (payback_guard example_scenario eq_refl eq_refl)
    as (o & Ho & _ & _ & H).
  exists o. split; [exact Ho|]. intros y capex Hp. exact (proj1 (H y capex Hp)).
Defined.

(** ** The CSV summary *)

(** C9: the summary has one row, whose columns are, in this order, the
    area, the roof type, the EER, the energy price, the emission factor,
    the yearly kWh, money and tonnes of CO2, and the 20-year kWh, money
    and tonnes of CO2; each 20-year total is the entry of the cumulative
    series at year 20. *)
Theorem summary_row (w : Widgets) :
  min_values w = true ->
  exists o kwh_20 pln_20 tco2_20,
    app w = Ok o /\
    nth_error (years o) 19 = Some 20 /\
    nth_error (kwh_cum o) 19 = Some kwh_20 /\
    nth_error (pln_cum o) 19 = Some pln_20 /\
    nth_error (tco2_cum o) 19 = Some tco2_20 /\
    summary o =
      [ [ ("Powierzchnia_m2"%string, Num (area_m2 w));
          ("Rodzaj_dachu"%string, Str (roof_label (roof_type w)));
          ("EER"%string, Num (eer o));
          ("Cena_energii_PLN_kWh"%string, Num (price_pln w));
          ("EF_kgCO2_kWh"%string, Num (ef_kg_per_kwh w));
          ("kWh_rok"%string, Num (kwh_saved o));
          ("PLN_rok"%string, Num (pln_saved o));
          ("tCO2_rok"%string, Num (t_co2_saved o));
          ("kWh_20lat"%string, Num kwh_20);
          ("PLN_20lat"%string, Num pln_20);
          ("tCO2_20lat"%string, Num tco2_20) ] ].
Proof.
  intros Hmin. pose proof (divisor_nonzero w Hmin) as Hdiv.
  run_app. do 4 eexists. split; [reflexivity|].
  cbn [eer kwh_saved pln_saved t_co2_saved years kwh_cum pln_cum tco2_cum summary].
  rewrite !cumsum_full. repeat split.
Qed.

Lemma summary_row_witness :
  min_values defaults = true /\
  exists o, app defaults = Ok o /\
    map (map fst) (summary o) =
      [ [ "Powierzchnia_m2"; "Rodzaj_dachu"; "EER"; "Cena_energii_PLN_kWh";
          "EF_kgCO2_kWh"; "kWh_rok"; "PLN_rok"; "tCO2_rok"; "kWh_20lat";
          "PLN_20lat"; "tCO2_20lat" ]%string ].
Proof.
  split; [reflexivity|].
  destruct (summary_row defaults eq_refl) as (o & k & p & t & Ho & _ & _ & _ & _ & Hs).
  exists o. split; [exact Ho|]. rewrite Hs. reflexivity.
Defined.

(** ** The AC band under a custom EER *)

(** C10: with the custom EER switched on, the script's result does not
    depend on the option selected in the AC selectbox. *)
Theorem custom_eer_ignores_band (w : Widgets) (b1 b2 : AcOption) :
  custom_eer_on w = true ->
  app (set_ac_band w b1) = app (set_ac_band w b2).
Proof.
  intros Hon. unfold app, payback_section, select_eer.
  cbn [set_ac_band area_m2 roof_type ac_band custom_eer_on eer_input
       price_pln ef_kg_per_kwh cost_on unit_cost].
  rewrite Hon. reflexivity.
Qed.

Lemma custom_eer_ignores_band_witness :
  custom_eer_on (set_custom_eer defaults (F64.of_Z 7)) = true /\
  app (set_ac_band (set_custom_eer defaults (F64.of_Z 7)) Stary) =
  app (set_ac_band (set_custom_eer defaults (F64.of_Z 7)) Wysoka_sprawnosc).
Proof.
  split; [reflexivity|].
  exact (custom_eer_ignores_band (set_custom_eer defaults (F64.of_Z 7))
           Stary Wysoka_sprawnosc eq_refl).
Defined.

(** ** The 20-year projection *)

(** At the default inputs the cumulative kWh of year 7, the sum of seven
    copies of the yearly value, is one unit in the last place above
    7 times the yearly value. *)
Lemma cumulative_year7_not_7_times :
  exists o, app defaults = Ok o /\
    nth_error (years o) 6 = Some 7 /\
    nth_error (kwh_cum o) 6 = Some (S754_finite false 5491320920527440 (-37)) /\
    (F64.of_Z 7 * kwh_saved o)%f64 = S754_finite false 5491320920527439 (-37) /\
    F64.eqb (S754_finite false 5491320920527440 (-37))
            (S754_finite false 5491320920527439 (-37)) = false.
Proof.
  eexists. split; [vm_compute; reflexivity|].
  repeat split; vm_compute; reflexivity.
Qed.

(** C5 (amended): the result holds the years 1 to 20 and three cumulative
    series of 20 entries; the entry of year [n + 1] is the sum of [n + 1]
    copies of the yearly value, added from left to right in binary64: the
    first entry is the yearly value and each later entry is the entry
    before it plus the yearly value. *)
Theorem cumulative_running_sums (w : Widgets) :
  min_values w = true ->
  exists o, app w = Ok o /\
    years o = [1; 2; 3; 4; 5; 6; 7; 8; 9; 10; 11; 12; 13; 14; 15; 16; 17; 18; 19; 20] /\
    List.length (kwh_cum o) = 20%nat /\
    List.length (pln_cum o) = 20%nat /\
    List.length (tco2_cum o) = 20%nat /\
    forall n, (n < 20)%nat ->
      nth_error (kwh_cum o) n = Some (sum_copies (kwh_saved o) n) /\
      nth_error (pln_cum o) n = Some (sum_copies (pln_saved o) n) /\
      nth_error (tco2_cum o) n = Some (sum_copies (t_co2_saved o) n).
Proof.
  intros Hmin. pose proof (divisor_nonzero w Hmin) as Hdiv.
  app_result. rewrite !cumsum_length. repeat split.
  all: rewrite cumsum_full; change (List.length (arange 1 21)) with 20%nat;
    apply Nat.ltb_lt in H; now rewrite H.
Qed.

Lemma cumulative_running_sums_witness :
  min_values defaults = true /\
  exists o, app defaults = Ok o /\
    nth_error (kwh_cum o) 6 = Some (sum_copies (kwh_saved o) 6).
Proof.
  split; [reflexivity|].
  destruct (cumulative_running_sums defaults eq_refl) as (o & Ho & _ & _ & _ & _ & H).
  exists o. split; [exact Ho|]. apply (H 6%nat). do 14 constructor.
Defined.

(** ** The example scenario *)

(** At the example scenario the total reduction is more than 1000 away
    from 62,786,879, and the kWh, money and kg of CO2 are more than 0.05
    away from 5707.9, 4851.7 and 4395.1. *)
Lemma example_values_off :
  exists o, app example_scenario = Ok o /\
    approx (total_reduction_btu o) 62786879 1000 = false /\
    approx (kwh_saved o) 5707.9 0.05 = false /\
    approx (pln_saved o) 4851.7 0.05 = false /\
    approx (kg_co2_saved o) 4395.1 0.05 = false.
Proof.
  eexists. split; [vm_compute; reflexivity|].
  repeat split; vm_compute; reflexivity.
Qed.

(** C6 (amended): at the example scenario the area is 10763.9 square feet,
    the reduction 5833.0 per square foot, the total reduction 62,785,829
    to the unit, the savings 5707.8 kWh, 4851.6 in money and 4395.0 kg of
    CO2 to one decimal, 4.395 tonnes to three decimals; the coating costs
    50,000 and is paid back in 10.3 years to one decimal. *)
Theorem example_scenario_values :
  exists o y capex, app example_scenario = Ok o /\
    area_ft2 o = F64.lit 107639 10 /\
    reduction_btu_per_ft2 o = F64.of_Z 5833 /\
    approx (total_reduction_btu o) 62785829 0.5 = true /\
    approx (kwh_saved o) 5707.8 0.05 = true /\
    approx (pln_saved o) 4851.6 0.05 = true /\
    approx (kg_co2_saved o) 4395.0 0.05 = true /\
    approx (t_co2_saved o) 4.395 0.0005 = true /\
    payback o = PaybackInfo y capex /\
    capex = F64.of_Z 50000 /\
    approx y 10.3 0.05 = true.
Proof.
  do 3 eexists. split; [vm_compute; reflexivity|].
  repeat split; vm_compute; reflexivity.
Qed.

(** * Ranges of the calculation *)

Lemma below_finite (k : Z) (x : F64.float) :
  nonneg_below k x = true -> F64.is_finite x = true.
Proof. destruct x; cbn; congruence. Qed.

Lemma below_nonneg (k : Z) (x : F64.float) :
  nonneg_below k x = true -> (F64.zero <=? x)%f64 = true.
Proof.
  unfold F64.gtb, F64.leb, F64.zero, SFltb, SFleb.
  destruct x as [s|s| |s m e]; cbn; try congruence. destruct s; cbn; congruence.
Qed.

Lemma normal_finite (lo hi : Z) (x : F64.float) :
  pos_normal lo hi x = true -> F64.is_finite x = true.
Proof. destruct x; cbn; congruence. Qed.

Lemma normal_nonneg (lo hi : Z) (x : F64.float) :
  pos_normal lo hi x = true -> (F64.zero <=? x)%f64 = true.
Proof.
  unfold F64.gtb, F64.leb, F64.zero, SFltb, SFleb.
  destruct x as [s|s| |s m e]; cbn; try congruence. destruct s; cbn; congruence.
Qed.

Lemma eqb_zero_inv (x : F64.float) :
  F64.eqb x F64.zero = true -> exists s, x = S754_zero s.
Proof.
  destruct x as [s|s| |s m e]; try (destruct s; discriminate); try discriminate.
  eauto.
Qed.

(** The running sums of a value below [2 ^ k] stay finite as long as there
    is room for two more binary digits per addition. *)
Lemma cumsum_from_finite (x : F64.float) (k0 : Z) (ys : list Z) :
  nonneg_below k0 x = true ->
  forall (acc : F64.float) (k : Z),
    nonneg_below k acc = true -> k0 <= k -> -1074 < k ->
    k + 2 * Z.of_nat (List.length ys) <= 971 ->
    forallb F64.is_finite (cumsum_from acc (full_like ys x)) = true.
Proof.
  intros Hx. induction ys as [|y ys IH]; intros acc k Hacc Hk0 Hk Hlen; [reflexivity|].
  cbn [full_like map cumsum_from forallb List.length] in *.
  assert (Hs : nonneg_below (k + 2) (acc + x)%f64 = true).
  { apply (add_below k); try lia; [assumption|].
    destruct x as [s|s| |s m e]; try discriminate; [reflexivity|].
    apply nonneg_below_finite in Hx. apply nonneg_below_finite. split; [easy|lia]. }
  rewrite (below_finite _ _ Hs). cbn [andb].
  apply (IH _ (k + 2)); try assumption; lia.
Qed.

Lemma sum_copies_below (x : F64.float) (k : Z) (n : nat) :
  nonneg_below k x = true -> -1074 < k -> k + 2 * Z.of_nat n <= 971 ->
  nonneg_below (k + 2 * Z.of_nat n) (sum_copies x n) = true.
Proof.
  intros Hx Hk. induction n as [|n IH]; intros Hn.
  - cbn [sum_copies]. now rewrite Z.add_0_r.
  - cbn [sum_copies]. apply (add_below (k + 2 * Z.of_nat n)); try lia.
    + apply IH. lia.
    + destruct x as [s|s| |s m e]; try discriminate; [reflexivity|].
      apply nonneg_below_finite in Hx. apply nonneg_below_finite. split; [easy|lia].
Qed.

Lemma total_20_finite (x : F64.float) (k : Z) :
  nonneg_below k x = true -> -1074 < k -> k <= 900 ->
  F64.is_finite (sum_copies x 19) = true.
Proof.
  intros Hx Hk1 Hk2. apply (below_finite (k + 2 * Z.of_nat 19)).
  apply sum_copies_below; try assumption. lia.
Qed.

Lemma projection_finite (x : F64.float) (k : Z) :
  nonneg_below k x = true -> -1074 < k -> k <= 900 ->
  forallb F64.is_finite (cumsum (full_like (arange 1 21) x)) = true.
Proof.
  intros Hx Hk1 Hk2.
  assert (Hlen : List.length (arange 1 21) = 20%nat) by reflexivity.
  destruct (arange 1 21) as [|y ys]; [reflexivity|].
  cbn [full_like map cumsum forallb]. rewrite (below_finite _ _ Hx). cbn [andb].
  change (map (fun _ : Z => x) ys) with (full_like ys x).
  cbn [List.length] in Hlen.
  apply (cumsum_from_finite x k _ Hx x k Hx); lia.
Qed.

Section Ranges.

Variables a e mult : F64.float.
Hypothesis Ha : pos_normal (-49) 21 a = true.
Hypothesis He : pos_normal (-50) 21 e = true.
Hypothesis Hmult : pos_normal (-53) (-52) mult = true.

Lemma area_ft2_range : pos_normal (-46) 26 (a * FT2_PER_M2)%f64 = true.
Proof. apply (mul_normal (-49) 21 (-49) (-49)); [assumption|reflexivity|lia..]. Qed.

Lemma reduction_range : pos_normal (-41) (-38) (F64.of_Z 5833 * mult)%f64 = true.
Proof. apply (mul_normal (-40) (-40) (-53) (-52)); [reflexivity|assumption|lia..]. Qed.

Lemma total_range :
  pos_normal (-35) 42 (a * FT2_PER_M2 * (F64.of_Z 5833 * mult))%f64 = true.
Proof.
  apply (mul_normal (-46) 26 (-41) (-38));
    [apply area_ft2_range | apply reduction_range | lia..].
Qed.

Lemma divisor_range : pos_normal (-41) 32 (e * F64.of_Z 1000)%f64 = true.
Proof. apply (mul_normal (-50) 21 (-43) (-43)); [assumption|reflexivity|lia..]. Qed.

Lemma kwh_range :
  pos_normal (-120) 32
    (a * FT2_PER_M2 * (F64.of_Z 5833 * mult) / (e * F64.of_Z 1000))%f64 = true.
Proof.
  apply (div_normal (-35) 42 (-41) 32);
    [apply total_range | apply divisor_range | lia..].
Qed.

Lemma gj_range :
  pos_normal (-55) 26
    ((a * FT2_PER_M2 * (F64.of_Z 5833 * mult) * BTU_TO_J)
     / F64.of_Z 1000000000)%f64 = true.
Proof.
  apply (div_normal (-25) 54 (-23) (-23)); [|reflexivity|lia..].
  apply (mul_normal (-35) 42 (-42) (-42)); [apply total_range|reflexivity|lia..].
Qed.

(** Money and CO2: the yearly kWh times a price or an emission factor
    that is zero or positive and below [2 ^ 74]. *)
Lemma product_below (p : F64.float) :
  nonneg_below 74 p = true ->
  nonneg_below 160
    (a * FT2_PER_M2 * (F64.of_Z 5833 * mult) / (e * F64.of_Z 1000) * p)%f64 = true.
Proof.
  intros Hp. apply (mul_below 85 74); try lia; [|assumption].
  apply (pos_normal_below (-120) 32); [apply kwh_range|lia].
Qed.

Lemma product_normal (p : F64.float) :
  pos_normal (-126) 21 p = true ->
  pos_normal (-194) 107
    (a * FT2_PER_M2 * (F64.of_Z 5833 * mult) / (e * F64.of_Z 1000) * p)%f64 = true.
Proof.
  intros Hp. apply (mul_normal (-120) 32 (-126) 21); [apply kwh_range|assumption|lia..].
Qed.

End Ranges.

Lemma quotient_below (x c : F64.float) (lo : Z) :
  nonneg_below 160 x = true -> pos_normal lo lo c = true -> -60 <= lo ->
  nonneg_below 170 (x / c)%f64 = true.
Proof. intros Hx Hc Hlo. apply (div_below 160 lo lo); try assumption; lia. Qed.

Lemma multiplier_range (r : RoofOption) :
  pos_normal (-53) (-52) (multiplier_of r) = true.
Proof. destruct r; reflexivity. Qed.

Lemma zero_or_normal (x : F64.float) :
  F64.wf x = true -> (x <=? BIG)%f64 = true -> zero_or_above TINY x = true ->
  (exists s, x = S754_zero s) \/ pos_normal (-126) 21 x = true.
Proof.
  intros W B Z. unfold zero_or_above in Z. apply orb_prop in Z as [Z|T].
  - left. now apply eqb_zero_inv.
  - right. now apply (range_normal _ 8507059173023462 4768371582031250).
Qed.

(** What the minimum values and the moderate size say about each input. *)
Lemma input_ranges (w : Widgets) :
  min_values w = true -> moderate w = true ->
  pos_normal (-49) 21 (area_m2 w) = true /\
  pos_normal (-50) 21 (select_eer w) = true /\
  nonneg_below 74 (price_pln w) = true /\
  ((exists s, price_pln w = S754_zero s) \/
   pos_normal (-126) 21 (price_pln w) = true) /\
  nonneg_below 74 (ef_kg_per_kwh w) = true /\
  (cost_on w = true -> nonneg_below 74 (unit_cost w) = true).
Proof.
  unfold min_values, moderate, zero_or_above. rewrite !andb_true_iff, orb_true_iff.
  intros ((((Ma & Me) & Mp) & Mf) & Mc) ((((((((Wa & Ba) & Re) & Wp) & Bp) & Zp) & Wf) & Bf) & Rc).
  repeat split.
  - now apply (range_normal _ 5629499534213120 4768371582031250).
  - rewrite select_eer_band. destruct (custom_eer_on w).
    + apply andb_prop in Re as [We Be].
      now apply (range_normal _ 5629499534213120 4768371582031250).
    + destruct (ac_band w); reflexivity.
  - now apply (range_below _ 4768371582031250 21).
  - apply zero_or_normal; try assumption. unfold zero_or_above.
    now apply orb_true_iff.
  - now apply (range_below _ 4768371582031250 21).
  - intros Hc. rewrite Hc in Mc, Rc. apply andb_prop in Rc as [Wc Bc].
    now apply (range_below _ 4768371582031250 21).
Qed.

(** ** No NaN and no infinity *)

(** With an area of 1e308 square metres and a price of zero, both allowed
    by the widgets, the area in square feet and the kWh overflow to
    infinity and the money saved, infinity times zero, is NaN. *)
Lemma huge_area_overflows :
  min_values (set_price_pln (set_area_m2 defaults (F64.of_Z (10 ^ 308))) F64.zero) = true /\
  exists o,
    app (set_price_pln (set_area_m2 defaults (F64.of_Z (10 ^ 308))) F64.zero) = Ok o /\
    F64.is_inf (area_ft2 o) = true /\
    F64.is_inf (kwh_saved o) = true /\
    F64.is_nan (pln_saved o) = true /\
    all_finite o = false.
Proof.
  split; [reflexivity|].
  eexists. split; [vm_compute; reflexivity|].
  repeat split; vm_compute; reflexivity.
Qed.

(** With a price of 5e-324 the yearly savings are positive but so small
    that the payback time of the example's coating overflows. *)
Lemma tiny_price_payback_infinite :
  min_values (set_price_pln example_scenario MIN_SUBNORMAL) = true /\
  exists o y capex,
    app (set_price_pln example_scenario MIN_SUBNORMAL) = Ok o /\
    payback o = PaybackInfo y capex /\
    capex = F64.of_Z 50000 /\
    F64.is_inf y = true.
Proof.
  split; [reflexivity|].
  do 3 eexists. split; [vm_compute; reflexivity|].
  repeat split; vm_compute; reflexivity.
Qed.

(** C7 (amended): for every input that respects the minimum values the
    script raises no exception, every division being by a positive
    number: EER times 1000, the constants 22.0 and 0.2, and for the payback
    the positive yearly savings.  For inputs that moreover are of moderate
    size (binary64 numbers, none above 1e22, the price zero or at least
    1e-22), no output is NaN or an infinity, and the kWh, the kg and the
    tonnes of CO2 saved are zero or more. *)
Theorem finite_under_moderate_inputs (w : Widgets) :
  min_values w = true ->
  exists o, app w = Ok o /\
    (eer o * F64.of_Z 1000 >? F64.zero)%f64 = true /\
    (F64.of_Z 22 >? F64.zero)%f64 = true /\
    trees_eq o = (kg_co2_saved o / F64.of_Z 22)%f64 /\
    (F64.lit 2 10 >? F64.zero)%f64 = true /\
    km_eq o = (kg_co2_saved o / F64.lit 2 10)%f64 /\
    (forall y capex, payback o = PaybackInfo y capex ->
       (pln_saved o >? F64.zero)%f64 = true) /\
    (moderate w = true ->
       all_finite o = true /\
       (F64.zero <=? kwh_saved o)%f64 = true /\
       (F64.zero <=? kg_co2_saved o)%f64 = true /\
       (F64.zero <=? t_co2_saved o)%f64 = true).
Proof.
  intros Hmin. pose proof (divisor_nonzero w Hmin) as Hdiv.
  app_result.
  split; [now apply divisor_positive|].
  do 4 (split; [reflexivity|]).
  split.
  { intros y capex. unfold payback_of.
    destruct (cost_on w); [|discriminate].
    now destruct (_ >? F64.zero)%f64. }
  intros Hmod.
  destruct (input_ranges w Hmin Hmod) as (Ha & He & Hp & Hpz & Hf & Hc).
  pose proof (multiplier_range (roof_type w)) as Hm.
  pose proof (area_ft2_range _ Ha) as Raft.
  pose proof (reduction_range _ Hm) as Rred.
  pose proof (total_range _ _ Ha Hm) as Rtot.
  pose proof (kwh_range _ _ _ Ha He Hm) as Rkwh.
  pose proof (gj_range _ _ Ha Hm) as Rgj.
  pose proof (product_below _ _ _ Ha He Hm _ Hp) as Rpln.
  pose proof (product_below _ _ _ Ha He Hm _ Hf) as Rkg.
  set (kwh := (_ / (select_eer w * F64.of_Z 1000))%f64) in *.
  set (pln := (kwh * price_pln w)%f64) in *.
  set (kg := (kwh * ef_kg_per_kwh w)%f64) in *.
  assert (Rt : nonneg_below 170 (kg / F64.of_Z 1000)%f64 = true)
    by (apply (quotient_below _ _ (-43)); [assumption | reflexivity | lia]).
  assert (Rtrees : nonneg_below 170 (kg / KG_PER_TREE_PER_YEAR)%f64 = true)
    by (apply (quotient_below _ _ (-48)); [assumption | reflexivity | lia]).
  assert (Rkm : nonneg_below 170 (kg / KG_PER_CAR_KM)%f64 = true)
    by (apply (quotient_below _ _ (-55)); [assumption | reflexivity | lia]).
  assert (Rkwh' : nonneg_below 85 kwh = true)
    by (apply (pos_normal_below (-120) 32); [assumption|lia]).
  repeat split.
  - unfold all_finite.
    cbn [eer roof_mult area_ft2 reduction_btu_per_ft2 total_reduction_btu
         kwh_saved pln_saved kg_co2_saved t_co2_saved gj_saved trees_eq km_eq
         kwh_cum pln_cum tco2_cum payback summary forallb cell_finite snd].
    rewrite (normal_finite _ _ _ Ha), (normal_finite _ _ _ He),
      (normal_finite _ _ _ Hm), (normal_finite _ _ _ Raft),
      (normal_finite _ _ _ Rred), (normal_finite _ _ _ Rtot),
      (normal_finite _ _ _ Rkwh), (below_finite _ _ Hp), (below_finite _ _ Hf),
      (below_finite _ _ Rpln), (below_finite _ _ Rkg), (below_finite _ _ Rt),
      (normal_finite _ _ _ Rgj), (below_finite _ _ Rtrees), (below_finite _ _ Rkm).
    rewrite (projection_finite kwh 85), (projection_finite pln 160),
      (projection_finite _ 170 Rt), (total_20_finite kwh 85),
      (total_20_finite pln 160), (total_20_finite _ 170 Rt)
      by (assumption || lia).
    cbn [andb]. unfold payback_of.
    destruct (cost_on w); [|reflexivity].
    destruct (pln >? F64.zero)%f64 eqn:Hpos; [|reflexivity].
    assert (Rcapex : nonneg_below 149 (unit_cost w * area_m2 w)%f64 = true).
    { apply (mul_below 74 74); try lia; [now apply Hc|].
      apply (pos_normal_below (-49) 21); [assumption|lia]. }
    rewrite (below_finite _ _ Rcapex), andb_true_r.
    destruct Hpz as [[s Hz]|Hpn].
    + exfalso. unfold pln in Hpos. rewrite Hz in Hpos.
      apply pos_normal_inv in Rkwh as (m & ex & -> & _). discriminate Hpos.
    + apply (below_finite 292).
      apply (div_below 149 (-194) 107); try lia; [assumption|].
      now apply product_normal.
  - now apply (normal_nonneg (-120) 32).
  - now apply (below_nonneg 160).
  - now apply (below_nonneg 170).
Qed.

Lemma finite_under_moderate_inputs_witness :
  min_values example_scenario = true /\ moderate example_scenario = true /\
  exists o, app example_scenario = Ok o /\ all_finite o = true.
Proof.
  split; [reflexivity|]. split; [reflexivity|].
  destruct (finite_under_moderate_inputs example_scenario eq_refl)
    as (o & Ho & _ & _ & _ & _ & _ & _ & Hmod).
  exists o. split; [exact Ho | exact (proj1 (Hmod eq_refl))].
Defined.

(** ** Doubling the area *)

Lemma double_normal (lo hi : Z) (x : F64.float) :
  pos_normal lo hi x = true -> -1074 < lo -> hi + 1 <= 971 ->
  double x = scale2 x.
Proof. exact (mul_two_normal lo hi x). Qed.

Lemma scale2_mul (l1 h1 l2 h2 : Z) (x y : F64.float) :
  pos_normal l1 h1 x = true -> pos_normal l2 h2 y = true ->
  -1074 <= l1 + l2 -> h1 + h2 + 55 <= 971 ->
  (scale2 x * y)%f64 = scale2 (x * y)%f64.
Proof. exact (mul_scale2 l1 h1 l2 h2 x y). Qed.

Lemma scale2_div (l1 h1 l2 h2 : Z) (x y : F64.float) :
  pos_normal l1 h1 x = true -> pos_normal l2 h2 y = true ->
  -1074 <= l1 - h2 - 53 -> h1 - l2 - 50 <= 971 ->
  (scale2 x / y)%f64 = scale2 (x / y)%f64.
Proof. exact (div_scale2 l1 h1 l2 h2 x y). Qed.

(** Doubling the yearly kWh doubles its product with a factor that is
    zero or a normal number from 1e-22 to 1e22. *)
Lemma scale2_product (kwh p : F64.float) :
  pos_normal (-120) 32 kwh = true ->
  (exists s, p = S754_zero s) \/ pos_normal (-126) 21 p = true ->
  (scale2 kwh * p)%f64 = double (kwh * p)%f64.
Proof.
  intros Hk [[s ->]|Hp].
  - apply pos_normal_inv in Hk as (m & e & -> & _). reflexivity.
  - rewrite (scale2_mul (-120) 32 (-126) 21) by (assumption || lia).
    symmetry. apply (double_normal (-194) 107); try lia.
    apply (mul_normal (-120) 32 (-126) 21); assumption || lia.
Qed.

Lemma app_savings (w : Widgets) :
  F64.is_zero (select_eer w * F64.of_Z 1000)%f64 = false ->
  exists o, app w = Ok o /\
    total_reduction_btu o =
      (area_m2 w * FT2_PER_M2 * (F64.of_Z 5833 * multiplier_of (roof_type w)))%f64 /\
    kwh_saved o = (total_reduction_btu o / (select_eer w * F64.of_Z 1000))%f64 /\
    pln_saved o = (kwh_saved o * price_pln w)%f64 /\
    kg_co2_saved o = (kwh_saved o * ef_kg_per_kwh w)%f64.
Proof. intros Hdiv. app_result. repeat split. Qed.

(** With an area of 2e303 square metres the total reduction is still
    finite, but for the doubled area it overflows: the kWh of the doubled
    area are infinite, while twice the kWh are finite. *)
Lemma doubling_overflows :
  exists o o2,
    app vast_roof = Ok o /\
    app (set_area_m2 vast_roof (double (area_m2 vast_roof))) = Ok o2 /\
    F64.is_finite (double (kwh_saved o)) = true /\
    F64.is_inf (kwh_saved o2) = true /\
    F64.eqb (kwh_saved o2) (double (kwh_saved o)) = false.
Proof.
  do 2 eexists. split; [vm_compute; reflexivity|].
  split; [vm_compute; reflexivity|].
  repeat split; vm_compute; reflexivity.
Qed.

(** With a price of 5e-324 the money saved is a subnormal number: for an
    area of 1500 it is 8562 units of [2 ^ -1074], for the doubled area
    17123 units and not 17124. *)
Lemma doubling_underflows :
  exists o o2,
    app (set_price_pln (set_area_m2 defaults (F64.of_Z 1500)) MIN_SUBNORMAL) = Ok o /\
    app (set_price_pln (set_area_m2 defaults (double (F64.of_Z 1500))) MIN_SUBNORMAL)
      = Ok o2 /\
    pln_saved o = S754_finite false 8562 (-1074) /\
    pln_saved o2 = S754_finite false 17123 (-1074) /\
    double (pln_saved o) = S754_finite false 17124 (-1074).
Proof.
  do 2 eexists. split; [vm_compute; reflexivity|].
  split; [vm_compute; reflexivity|].
  repeat split; vm_compute; reflexivity.
Qed.

(** C8 (amended): for inputs that respect the minimum values and are of
    moderate size (binary64 numbers, none above 1e22, the price and the
    emission factor each zero or at least 1e-22), doubling the area, the
    other inputs fixed, exactly doubles the total reduction, the kWh, the
    money and the kg of CO2 saved. *)
Theorem doubling_area (w : Widgets) :
  min_values w = true -> moderate w = true ->
  zero_or_above TINY (ef_kg_per_kwh w) = true ->
  exists o o2,
    app w = Ok o /\
    app (set_area_m2 w (double (area_m2 w))) = Ok o2 /\
    total_reduction_btu o2 = double (total_reduction_btu o) /\
    kwh_saved o2 = double (kwh_saved o) /\
    pln_saved o2 = double (pln_saved o) /\
    kg_co2_saved o2 = double (kg_co2_saved o).
Proof.
  intros Hmin Hmod Hef.
  destruct (input_ranges w Hmin Hmod) as (Ha & He & Hp & Hpz & Hf & _).
  assert (Hfz : (exists s, ef_kg_per_kwh w = S754_zero s) \/
                pos_normal (-126) 21 (ef_kg_per_kwh w) = true).
  { unfold moderate in Hmod. rewrite !andb_true_iff in Hmod.
    destruct Hmod as ((((((((_ & _) & _) & _) & _) & _) & Wf) & Bf) & _).
    now apply zero_or_normal. }
  pose proof (multiplier_range (roof_type w)) as Hm.
  pose proof (area_ft2_range _ Ha) as Raft.
  pose proof (reduction_range _ Hm) as Rred.
  pose proof (total_range _ _ Ha Hm) as Rtot.
  pose proof (divisor_range _ He) as Rdiv.
  pose proof (kwh_range _ _ _ Ha He Hm) as Rkwh.
  pose proof (divisor_nonzero w Hmin) as Hdiv.
  destruct (app_savings w Hdiv) as (o & Ho & Et & Ek & Ep & Eg).
  destruct (app_savings (set_area_m2 w (double (area_m2 w))) Hdiv)
    as (o2 & Ho2 & Et2 & Ek2 & Ep2 & Eg2).
  exists o, o2. split; [exact Ho|]. split; [exact Ho2|].
  change (select_eer (set_area_m2 w (double (area_m2 w)))) with (select_eer w) in Ek2.
  cbn [set_area_m2 area_m2 roof_type price_pln ef_kg_per_kwh] in Et2, Ep2, Eg2.
  assert (T2 : total_reduction_btu o2 = scale2 (total_reduction_btu o)).
  { rewrite Et2, Et, (double_normal (-49) 21) by (assumption || lia).
    rewrite (scale2_mul (-49) 21 (-49) (-49)) by (assumption || reflexivity || lia).
    now rewrite (scale2_mul (-46) 26 (-41) (-38)) by (assumption || lia). }
  assert (K2 : kwh_saved o2 = scale2 (kwh_saved o)).
  { rewrite Ek2, T2, Ek, Et.
    now rewrite (scale2_div (-35) 42 (-41) 32) by (assumption || lia). }
  rewrite <- Et in Rtot. rewrite <- Et, <- Ek in Rkwh.
  repeat split.
  - rewrite T2. symmetry. apply (double_normal (-35) 42); assumption || lia.
  - rewrite K2. symmetry. apply (double_normal (-120) 32); assumption || lia.
  - rewrite Ep2, K2, Ep. now apply scale2_product.
  - rewrite Eg2, K2, Eg. now apply scale2_product.
Qed.

Lemma doubling_area_witness :
  min_values defaults = true /\ moderate defaults = true /\
  zero_or_above TINY (ef_kg_per_kwh defaults) = true /\
  exists o o2,
    app defaults = Ok o /\
    app (set_area_m2 defaults (double (area_m2 defaults))) = Ok o2 /\
    kwh_saved o2 = double (kwh_saved o).
Proof.
  split; [reflexivity|]. split; [reflexivity|]. split; [reflexivity|].
  destruct (doubling_area defaults eq_refl eq_refl eq_refl)
    as (o & o2 & Ho & Ho2 & _ & Hk & _).
  exists o, o2. repeat split; assumption.
Defined.

(** * Further properties of the script *)

(** ** When the script raises *)

(** A positive mantissa whose value is at least [2 ^ -1074] is not rounded
    to zero. *)
Lemma binary_round_aux_nonzero_value (s : bool) (m e : Z) (l : location) :
  0 < m -> -1074 <= e + Zdigits2 m - 1 ->
  match binary_round_aux 53 1024 s m e l with
  | S754_finite s' _ _ | S754_infinity s' => s' = s
  | _ => False
  end.
Proof.
  intros Hm He.
  destruct (binary_round_aux_shape s m e l ltac:(lia)) as (m1 & Hr & ->).
  cbv zeta in Hr |- *. rewrite !fexp_eq in *.
  pose proof (Zdigits2_bounds m Hm) as [Hl Hu].
  pose proof (Zdigits2_pos m Hm) as Hd.
  assert (H1 : 1 <= m1).
  { assert (1 <= m / 2 ^ Z.max 0 (Z.max (Zdigits2 m + e - 53) (-1074) - e)); [|lia].
    apply Z.div_le_lower_bound; [apply Z.pow_pos_nonneg; lia|].
    rewrite Z.mul_1_r. apply Z.le_trans with (2 := Hl).
    apply Z.pow_le_mono_r; lia. }
  pose proof (Zdigits2_bounds m1 ltac:(lia)) as [Hl1 Hu1].
  pose proof (Zdigits2_pos m1 ltac:(lia)) as Hd1.
  set (e1 := e + Z.max 0 (Z.max (Zdigits2 m + e - 53) (-1074) - e)) in *.
  assert (H2 : 1 <= m1 / 2 ^ Z.max 0 (Z.max (Zdigits2 m1 + e1 - 53) (-1074) - e1)).
  { apply Z.div_le_lower_bound; [apply Z.pow_pos_nonneg; lia|].
    rewrite Z.mul_1_r. apply Z.le_trans with (2 := Hl1).
    apply Z.pow_le_mono_r; unfold e1; lia. }
  destruct (m1 / 2 ^ _) as [|q|q]; try lia.
  destruct (_ <=? _); reflexivity.
Qed.

(** A binary64 number that is not zero stays nonzero when multiplied by
    1000.0. *)
Lemma times_1000_nonzero (x : F64.float) :
  F64.wf x = true -> F64.is_zero x = false ->
  F64.is_zero (x * F64.of_Z 1000)%f64 = false.
Proof.
  intros Hwf Hnz. destruct x as [s|s| |s m e]; try discriminate; try reflexivity.
  change (F64.of_Z 1000) with (S754_finite false 8796093022208000 (-43)).
  unfold F64.mul, F64.prec, F64.emax. cbn [SFmul].
  unfold F64.wf, F64.prec, F64.emax in Hwf. cbn [valid_binary] in Hwf.
  unfold bounded, canonical_mantissa in Hwf.
  apply andb_prop in Hwf as [Hc _]. apply Z.eqb_eq in Hc. rewrite fexp_eq in Hc.
  pose proof (Zdigits2_mul_ge (Zpos m) 8796093022208000 ltac:(lia) ltac:(lia)) as Hd.
  change (Zdigits2 8796093022208000) with 53 in Hd.
  pose proof (Zdigits2_pos (Zpos m) ltac:(lia)) as Hdm.
  pose proof (binary_round_aux_nonzero_value (xorb s false)
                (Zpos (m * 8796093022208000)) (e + -43) loc_Exact) as H.
  rewrite Pos2Z.inj_mul in H.
  cbn [Zdigits2] in Hc, Hdm.
  destruct (binary_round_aux 53 1024 _ _ _ loc_Exact);
    try reflexivity; exfalso; apply H; cbn [Zdigits2] in *; lia.
Qed.

(** X1: the only exception of the script is a division by zero, and it
    needs a custom EER of zero.  For any inputs, within the minimum values
    or not, whose custom EER is a binary64 number: with the custom EER on
    and equal to zero the script raises ZeroDivisionError, and in every
    other case it runs to its end. *)
Theorem raises_only_on_zero_eer (w : Widgets) :
  F64.wf (eer_input w) = true ->
  (custom_eer_on w && F64.is_zero (eer_input w) = true ->
     app w = Raise ZeroDivisionError) /\
  (custom_eer_on w && F64.is_zero (eer_input w) = false ->
     exists o, app w = Ok o).
Proof.
  intros Hwf. split.
  - intros H. apply andb_prop in H as [Hon Hz].
    unfold app. rewrite roof_lookup. cbv beta iota zeta delta [bind].
    unfold select_eer. rewrite Hon.
    destruct (eer_input w) as [s| | |]; try discriminate. reflexivity.
  - intros H.
    assert (Hdiv : F64.is_zero (select_eer w * F64.of_Z 1000)%f64 = false).
    { rewrite select_eer_band. destruct (custom_eer_on w).
      - apply times_1000_nonzero; [assumption|exact H].
      - destruct (ac_band w); reflexivity. }
    run_app. eexists; reflexivity.
Qed.

Lemma raises_only_on_zero_eer_witness :
  F64.wf (eer_input (set_custom_eer defaults F64.zero)) = true /\
  app (set_custom_eer defaults F64.zero) = Raise ZeroDivisionError.
Proof.
  split; [reflexivity|].
  exact (proj1 (raises_only_on_zero_eer (set_custom_eer defaults F64.zero) eq_refl)
           eq_refl).
Defined.


(** ** Rounding to nearest, ties to even *)


Lemma rne_bounds (num den : Z) : num / den <= rne num den <= num / den + 1.
Proof.
  unfold rne. destruct (Z.compare _ den); try lia. destruct (Z.even _); lia.
Qed.

(** Rounding is monotone in the fraction it rounds. *)
Lemma rne_mono (a b c d : Z) :
  0 < b -> 0 < d -> a * d <= c * b -> rne a b <= rne c d.
Proof.
  intros Hb Hd H.
  pose proof (Z.div_mod a b ltac:(lia)) as Ea.
  pose proof (Z.div_mod c d ltac:(lia)) as Ec.
  pose proof (Z.mod_pos_bound a b Hb) as Ra.
  pose proof (Z.mod_pos_bound c d Hd) as Rc.
  set (qa := a / b) in *. set (ra := a mod b) in *.
  set (qc := c / d) in *. set (rc := c mod d) in *.
  assert (Hq : qa <= qc).
  { destruct (Z_le_gt_dec qa qc) as [|Hgt]; [assumption|exfalso].
    assert (qc + 1 <= qa) by lia.
    assert (c * b < (qc + 1) * d * b) by nia.
    assert ((qc + 1) * d * b <= qa * b * d) by nia.
    assert (qa * b * d <= a * d) by nia. lia. }
  unfold rne. fold qa ra qc rc.
  destruct (Z.eq_dec qa qc) as [E|N].
  - rewrite <- E in *. assert (Hr : ra * d <= rc * b) by nia.
    destruct (Z.compare_spec (2 * ra) b), (Z.compare_spec (2 * rc) d);
      try (destruct (Z.even qa)); try lia; exfalso; nia.
  - assert (qa + 1 <= qc) by lia.
    destruct (Z.compare (2 * ra) b), (Z.compare (2 * rc) d);
      try (destruct (Z.even qa)); try (destruct (Z.even qc)); lia.
Qed.

(** Scaling numerator and denominator does not change the rounding. *)
Lemma rne_scale (a b k : Z) : 0 < b -> 0 < k -> rne (a * k) (b * k) = rne a b.
Proof.
  intros Hb Hk. unfold rne.
  rewrite Z.div_mul_cancel_r by lia.
  rewrite Z.mul_mod_distr_r by lia.
  destruct (Z.compare_spec (2 * (a mod b * k)) (b * k)),
    (Z.compare_spec (2 * (a mod b)) b); try reflexivity; exfalso; nia.
Qed.

(** *** The bits shifted out *)

Lemma shr_1_bits (m : Z) (r s : bool) :
  0 <= m ->
  shr_1 (Build_shr_record m r s) = Build_shr_record (m / 2) (Z.odd m) (r || s).
Proof.
  intros Hm. destruct m as [|[p|p|]|p]; try lia; cbn [shr_1 Z.odd]; f_equal.
  - apply (Z.div_unique _ _ _ 1); lia.
  - apply (Z.div_unique _ _ _ 0); lia.
Qed.

Lemma iter_pos_nat {A : Type} (f : A -> A) (p : positive) (x : A) :
  iter_pos f p x = Nat.iter (Pos.to_nat p) f x.
Proof.
  revert x. induction p as [p IH|p IH|]; intro x; cbn [iter_pos].
  - rewrite !IH, Pos2Nat.inj_xI, Nat.iter_succ_r.
    replace (2 * Pos.to_nat p)%nat with (Pos.to_nat p + Pos.to_nat p)%nat by lia.
    now rewrite Nat.iter_add.
  - rewrite !IH, Pos2Nat.inj_xO.
    replace (2 * Pos.to_nat p)%nat with (Pos.to_nat p + Pos.to_nat p)%nat by lia.
    now rewrite Nat.iter_add.
  - reflexivity.
Qed.

(** After [k + 1] shifts of an exact mantissa [m], the record holds the
    mantissa without its [k + 1] low bits, the last bit shifted out, and
    whether any bit before it was set. *)
Lemma iter_shr_1_bits (m : Z) (k : nat) :
  0 <= m ->
  Nat.iter (S k) shr_1 (Build_shr_record m false false) =
  Build_shr_record (m / 2 ^ Z.of_nat (S k)) (Z.testbit m (Z.of_nat k))
                   (negb (m mod 2 ^ Z.of_nat k =? 0)).
Proof.
  intros Hm. induction k as [|k IH].
  - cbn [Nat.iter]. rewrite shr_1_bits by assumption.
    change (Z.of_nat 1) with 1. change (Z.of_nat 0) with 0.
    rewrite Z.pow_1_r, Z.pow_0_r, Z.mod_1_r, Z.bit0_odd. reflexivity.
  - rewrite Nat.iter_succ, IH.
    assert (Hp : 0 < 2 ^ Z.of_nat (S k)) by (apply Z.pow_pos_nonneg; lia).
    rewrite shr_1_bits by (apply Z.div_pos; lia).
    f_equal.
    + rewrite Z.div_div by lia. f_equal.
      rewrite (Nat2Z.inj_succ (S k)), Z.pow_succ_r by lia. lia.
    + rewrite <- Z.bit0_odd, <- Z.shiftr_div_pow2 by lia.
      rewrite Z.shiftr_spec by lia. reflexivity.
    + rewrite (Nat2Z.inj_succ k), Z.pow_succ_r by lia.
      assert (Hp' : 0 < 2 ^ Z.of_nat k) by (apply Z.pow_pos_nonneg; lia).
      pose proof (Z.div_mod m (2 ^ Z.of_nat k) ltac:(lia)) as E1.
      pose proof (Z.mod_pos_bound m (2 ^ Z.of_nat k) Hp') as B1.
      pose proof (Z.div_mod (m / 2 ^ Z.of_nat k) 2 ltac:(lia)) as E2.
      pose proof (Z.mod_pos_bound (m / 2 ^ Z.of_nat k) 2 ltac:(lia)) as B2.
      pose proof (Z.testbit_true m (Z.of_nat k) ltac:(lia)) as Tt.
      pose proof (Z.testbit_false m (Z.of_nat k) ltac:(lia)) as Tf.
      set (q := m / 2 ^ Z.of_nat k) in *. set (r := m mod 2 ^ Z.of_nat k) in *.
      set (b := q mod 2) in *.
      assert (Em : m mod (2 * 2 ^ Z.of_nat k) = b * 2 ^ Z.of_nat k + r).
      { symmetry. apply (Z.mod_unique_pos _ _ (q / 2)); nia. }
      rewrite Em.
      destruct (Z.testbit m (Z.of_nat k)), (Z.eqb_spec r 0) as [Er|Nr];
        cbn [negb orb]; symmetry.
      * apply negb_true_iff, Z.eqb_neq. assert (b = 1) by now apply Tt. nia.
      * apply negb_true_iff, Z.eqb_neq. assert (b = 1) by now apply Tt. nia.
      * apply negb_false_iff, Z.eqb_eq. assert (b = 0) by now apply Tf. nia.
      * apply negb_true_iff, Z.eqb_neq. assert (b = 0) by now apply Tf. nia.
Qed.

Lemma rne_exact_shift (m e n : Z) :
  0 <= m -> 0 <= n ->
  round_nearest_even
    (shr_m (fst (shr (Build_shr_record m false false) e n)))
    (loc_of_shr_record (fst (shr (Build_shr_record m false false) e n))) =
  rne m (2 ^ n).
Proof.
  intros Hm Hn. destruct n as [|p|p]; try lia.
  - cbn [shr fst shr_m loc_of_shr_record round_nearest_even].
    unfold rne. rewrite Z.pow_0_r, Z.mod_1_r, Z.div_1_r. reflexivity.
  - cbn [shr fst]. rewrite iter_pos_nat.
    destruct (Pos2Nat.is_succ p) as [k Ek]. rewrite Ek.
    rewrite iter_shr_1_bits by assumption.
    assert (En : Z.pos p = Z.of_nat (S k)) by lia.
    rewrite En. clear Ek En.
    rewrite (Nat2Z.inj_succ k), Z.pow_succ_r by lia.
    assert (Hp : 0 < 2 ^ Z.of_nat k) by (apply Z.pow_pos_nonneg; lia).
    pose proof (Z.div_mod m (2 ^ Z.of_nat k) ltac:(lia)) as E1.
    pose proof (Z.mod_pos_bound m (2 ^ Z.of_nat k) Hp) as B1.
    pose proof (Z.div_mod (m / 2 ^ Z.of_nat k) 2 ltac:(lia)) as E2.
    pose proof (Z.mod_pos_bound (m / 2 ^ Z.of_nat k) 2 ltac:(lia)) as B2.
    pose proof (Z.testbit_true m (Z.of_nat k) ltac:(lia)) as Tt.
    pose proof (Z.testbit_false m (Z.of_nat k) ltac:(lia)) as Tf.
    set (q := m / 2 ^ Z.of_nat k) in *. set (r := m mod 2 ^ Z.of_nat k) in *.
    set (b := q mod 2) in *.
    assert (Em : m mod (2 * 2 ^ Z.of_nat k) = b * 2 ^ Z.of_nat k + r).
    { symmetry. apply (Z.mod_unique_pos _ _ (q / 2)); nia. }
    unfold rne. rewrite Em. cbn [shr_m loc_of_shr_record].
    destruct (Z.testbit m (Z.of_nat k)), (Z.eqb_spec r 0) as [Er|Nr];
      cbn [negb round_nearest_even].
    + assert (b = 1) by now apply Tt.
      destruct (Z.compare_spec (2 * (b * 2 ^ Z.of_nat k + r)) (2 * 2 ^ Z.of_nat k));
        try reflexivity; exfalso; nia.
    + assert (b = 1) by now apply Tt.
      destruct (Z.compare_spec (2 * (b * 2 ^ Z.of_nat k + r)) (2 * 2 ^ Z.of_nat k));
        try reflexivity; exfalso; nia.
    + assert (b = 0) by now apply Tf.
      destruct (Z.compare_spec (2 * (b * 2 ^ Z.of_nat k + r)) (2 * 2 ^ Z.of_nat k));
        try reflexivity; exfalso; nia.
    + assert (b = 0) by now apply Tf.
      destruct (Z.compare_spec (2 * (b * 2 ^ Z.of_nat k + r)) (2 * 2 ^ Z.of_nat k));
        try reflexivity; exfalso; nia.
Qed.


(** The second half of [binary_round_aux]: a rounded mantissa between
    [2 ^ 52] and [2 ^ 53] gives [normal_of]. *)
Lemma round_finish (s : bool) (m1 e1 : Z) :
  2 ^ 52 <= m1 <= 2 ^ 53 -> -1074 <= e1 -> e1 + 1 <= 971 ->
  (let '(mrs, e2) := shr_fexp 53 1024 m1 e1 loc_Exact in
   match shr_m mrs with
   | Z0 => S754_zero s
   | Zpos q => if e2 <=? 1024 - 53 then S754_finite s q e2 else S754_infinity s
   | Zneg _ => S754_nan
   end) = normal_of s m1 e1.
Proof.
  intros Hm He1 He2. unfold normal_of, shr_fexp. rewrite fexp_eq.
  destruct (Z.ltb_spec m1 (2 ^ 53)) as [Hlt|Hge].
  - assert (Ed : Zdigits2 m1 = 53) by (apply Zdigits2_unique; lia).
    rewrite Ed, shr_nonpos by lia.
    rewrite shr_m_loc. destruct m1 as [|q|q]; try lia.
    cbn [Z.to_pos]. destruct (Z.leb_spec e1 (1024 - 53)); [reflexivity|lia].
  - assert (m1 = 2 ^ 53) by lia. subst m1.
    change (Zdigits2 (2 ^ 53)) with 54.
    replace (Z.max (54 + e1 - 53) (-1074) - e1) with 1 by lia.
    cbn [shr_record_of_loc shr iter_pos fst snd].
    change (2 ^ 53) with (2 * 2 ^ 52). rewrite shr_1_even by lia.
    cbn [shr_m]. change (2 ^ 52) with (Zpos (2 ^ 52)).
    destruct (Z.leb_spec (e1 + 1) (1024 - 53)); [reflexivity|lia].
Qed.

(** Rounding an exact mantissa of at least 53 digits in the normal
    range. *)
Lemma round_exact_normal (s : bool) (m e : Z) :
  0 < m -> 53 <= Zdigits2 m ->
  -1074 <= e + Zdigits2 m - 53 -> e + Zdigits2 m - 52 <= 971 ->
  binary_round_aux 53 1024 s m e loc_Exact =
  normal_of s (rne m (2 ^ (Zdigits2 m - 53))) (e + Zdigits2 m - 53) /\
  2 ^ 52 <= rne m (2 ^ (Zdigits2 m - 53)) <= 2 ^ 53.
Proof.
  intros Hm Hd Hlo Hhi.
  pose proof (Zdigits2_bounds m Hm) as [Hl Hu].
  set (n1 := Zdigits2 m - 53) in *.
  assert (Hn1 : 0 <= n1) by (unfold n1; lia).
  assert (Hql : 2 ^ 52 <= m / 2 ^ n1).
  { apply Z.div_le_lower_bound; [apply Z.pow_pos_nonneg; lia|].
    rewrite <- Z.pow_add_r by lia.
    replace (n1 + 52) with (Zdigits2 m - 1) by (unfold n1; lia). assumption. }
  assert (Hqu : m / 2 ^ n1 < 2 ^ 53).
  { apply Z.div_lt_upper_bound; [apply Z.pow_pos_nonneg; lia|].
    rewrite <- Z.pow_add_r by lia.
    replace (n1 + 53) with (Zdigits2 m) by (unfold n1; lia). assumption. }
  pose proof (rne_bounds m (2 ^ n1)) as Hr.
  split; [|lia].
  unfold binary_round_aux. unfold shr_fexp at 1. rewrite fexp_eq.
  replace (Z.max (Zdigits2 m + e - 53) (-1074) - e) with n1 by (unfold n1; lia).
  cbn [shr_record_of_loc].
  pose proof (rne_exact_shift m e n1 ltac:(lia) Hn1) as Hrne.
  pose proof (shr_spec (Build_shr_record m false false) e n1 ltac:(cbn; lia)) as [_ He].
  destruct (shr (Build_shr_record m false false) e n1) as [mrs' e'].
  cbn [fst snd] in Hrne, He. rewrite Hrne, He.
  replace (e + Z.max 0 n1) with (e + Zdigits2 m - 53) by (unfold n1; lia).
  apply round_finish; lia.
Qed.

Lemma rne_new_location (num den : Z) :
  0 <= num -> 0 < den ->
  round_nearest_even (num / den) (new_location den (num mod den)) = rne num den.
Proof.
  intros Hn Hd. pose proof (Z.mod_pos_bound num den Hd) as Hr.
  unfold rne, new_location, new_location_even, new_location_odd.
  set (r := num mod den) in *. set (q := num / den).
  destruct (Z.even den) eqn:Ev.
  - destruct (Z.eqb_spec r 0) as [E0|N0]; cbn [round_nearest_even].
    + rewrite E0. destruct (Z.compare_spec (2 * 0) den); lia || reflexivity.
    + reflexivity.
  - assert (Od : Z.odd den = true) by (rewrite <- Z.negb_even, Ev; reflexivity).
    apply Z.odd_spec in Od as [k Ek].
    destruct (Z.eqb_spec r 0) as [E0|N0]; cbn [round_nearest_even].
    + rewrite E0. destruct (Z.compare_spec (2 * 0) den); lia || reflexivity.
    + destruct (Z.compare_spec (2 * r + 1) den), (Z.compare_spec (2 * r) den);
        cbn [round_nearest_even]; try reflexivity; exfalso; lia.
Qed.

Lemma shr_record_of_loc_eq (m : Z) (l : location) :
  shr_record_of_loc m l =
  Build_shr_record m
    (match l with loc_Inexact Eq | loc_Inexact Gt => true | _ => false end)
    (match l with loc_Inexact Lt | loc_Inexact Gt => true | _ => false end).
Proof. destruct l as [|[]]; reflexivity. Qed.

Lemma rne_new_location_half (num den : Z) :
  0 <= num -> 0 < den ->
  let mrs := shr_1 (shr_record_of_loc (num / den) (new_location den (num mod den))) in
  round_nearest_even (shr_m mrs) (loc_of_shr_record mrs) = rne num (den * 2).
Proof.
  intros Hn Hd. cbv zeta.
  pose proof (Z.mod_pos_bound num den Hd) as Hr.
  pose proof (Z.div_mod num den ltac:(lia)) as E1.
  assert (Hq : 0 <= num / den) by (apply Z.div_pos; lia).
  pose proof (Z.div_mod (num / den) 2 ltac:(lia)) as E2.
  pose proof (Zmod_odd (num / den)) as Ho.
  set (r := num mod den) in *. set (q := num / den) in *.
  assert (Eq2 : num / (den * 2) = q / 2).
  { unfold q. now rewrite Z.div_div by lia. }
  assert (Em : num mod (den * 2) = (q mod 2) * den + r).
  { symmetry. apply (Z.mod_unique_pos _ _ (q / 2)).
    - destruct (Z.odd q); nia.
    - nia. }
  unfold rne. rewrite Eq2, Em.
  rewrite shr_record_of_loc_eq, shr_1_bits by assumption.
  cbn [shr_m loc_of_shr_record].
  unfold new_location, new_location_even, new_location_odd.
  destruct (Z.odd q); rewrite Ho.
  - (* the quotient is odd: a tie when the remainder is zero *)
    destruct (Z.compare_spec (2 * (1 * den + r)) (den * 2)) as [C|C|C]; try lia.
    + assert (r = 0) by lia.
      destruct (Z.even den); rewrite (proj2 (Z.eqb_eq r 0)) by assumption;
        reflexivity.
    + assert (Nr : r <> 0) by lia. apply Z.eqb_neq in Nr.
      destruct (Z.even den); rewrite Nr.
      * destruct (2 * r ?= den); reflexivity.
      * destruct (2 * r + 1 ?= den); reflexivity.
  - destruct (Z.compare_spec (2 * (0 * den + r)) (den * 2)) as [C|C|C]; try lia.
    destruct (Z.even den); destruct (r =? 0); try reflexivity.
    + destruct (2 * r ?= den); reflexivity.
    + destruct (2 * r + 1 ?= den); reflexivity.
Qed.

(** The quotient of two positive normal floats: the mantissa is the
    rounded quotient of [mx * 2 ^ 53] by [my] (or by [2 * my] when that
    quotient has 54 digits). *)
Lemma div_round_normal (mx my : positive) (ex ey : Z) :
  Zdigits2 (Zpos mx) = 53 -> Zdigits2 (Zpos my) = 53 ->
  -1074 <= ex - ey - 53 -> ex - ey - 51 <= 971 ->
  exists n, 0 <= n <= 1 /\
    2 ^ 52 * (Zpos my * 2 ^ n) <= Zpos mx * 2 ^ 53 < 2 ^ 53 * (Zpos my * 2 ^ n) /\
    SFdiv 53 1024 (S754_finite false mx ex) (S754_finite false my ey) =
    normal_of false (rne (Zpos mx * 2 ^ 53) (Zpos my * 2 ^ n)) (ex - ey - 53 + n).
Proof.
  intros Hdx Hdy Hlo Hhi.
  pose proof (Zdigits2_bounds (Zpos mx) ltac:(lia)) as Bx. rewrite Hdx in Bx.
  pose proof (Zdigits2_bounds (Zpos my) ltac:(lia)) as By. rewrite Hdy in By.
  change (2 ^ (53 - 1)) with (2 ^ 52) in Bx, By.
  set (N := Zpos mx * 2 ^ 53).
  assert (HN : 0 <= N) by (unfold N; lia).
  pose proof (Z.div_mod N (Zpos my) ltac:(lia)) as E1.
  pose proof (Z.mod_pos_bound N (Zpos my) ltac:(lia)) as Hr.
  assert (Hq : 2 ^ 52 <= N / Zpos my < 2 ^ 54).
  { split.
    - apply Z.div_le_lower_bound; [lia|]. unfold N.
      change (2 ^ 53) with 9007199254740992 in *.
      change (2 ^ 52) with 4503599627370496 in *. nia.
    - apply Z.div_lt_upper_bound; [lia|]. unfold N.
      change (2 ^ 53) with 9007199254740992 in *.
      change (2 ^ 54) with 18014398509481984 in *.
      change (2 ^ 52) with 4503599627370496 in *. nia. }
  cbn [SFdiv xorb]. unfold SFdiv_core_binary.
  rewrite Hdx, Hdy, fexp_eq.
  replace (Z.min (Z.max (53 + ex - (53 + ey) - 53) (-1074)) (ex - ey))
    with (ex - ey - 53) by lia.
  replace (ex - ey - (ex - ey - 53)) with 53 by lia.
  change (Z.shiftl (Z.pos mx) 53) with (Z.shiftl (Z.pos mx) 53).
  rewrite Z.shiftl_mul_pow2 by lia. fold N.
  assert (Ediv : Z.div_eucl N (Zpos my) = (N / Zpos my, N mod Zpos my)).
  { unfold Z.div, Z.modulo. now destruct (Z.div_eucl N (Zpos my)). }
  rewrite Ediv.
  set (q := N / Zpos my) in *. set (r := N mod Zpos my) in *.
  destruct (Z.ltb_spec q (2 ^ 53)) as [Hs|Hb].
  - (* 53 digits *)
    exists 0. rewrite Z.pow_0_r, !Z.mul_1_r, Z.add_0_r.
    split; [lia|]. split; [fold N; nia|].
    assert (Ed : Zdigits2 q = 53) by (apply Zdigits2_unique; lia).
    unfold binary_round_aux. unfold shr_fexp at 1. rewrite fexp_eq, Ed.
    rewrite shr_nonpos by lia.
    rewrite shr_m_loc.
    replace (loc_of_shr_record (shr_record_of_loc q (new_location (Zpos my) r)))
      with (new_location (Zpos my) r)
      by (now destruct (new_location (Zpos my) r) as [|[]]).
    unfold q, r. rewrite rne_new_location by lia. fold N.
    pose proof (rne_bounds N (Zpos my)) as Hb1. fold q in Hb1.
    apply round_finish; lia.
  - (* 54 digits *)
    exists 1. change (2 ^ 1) with 2.
    split; [lia|]. split; [fold N; nia|].
    assert (Ed : Zdigits2 q = 54) by (apply Zdigits2_unique; lia).
    unfold binary_round_aux. unfold shr_fexp at 1. rewrite fexp_eq, Ed.
    replace (Z.max (54 + (ex - ey - 53) - 53) (-1074) - (ex - ey - 53)) with 1 by lia.
    cbn [shr iter_pos fst snd].
    unfold q, r. rewrite rne_new_location_half by lia. fold N.
    pose proof (rne_bounds N (Zpos my * 2)) as Hb2.
    assert (2 ^ 52 <= N / (Zpos my * 2) < 2 ^ 53).
    { rewrite <- Z.div_div by lia. fold q. split.
      - apply Z.div_le_lower_bound; lia.
      - apply Z.div_lt_upper_bound; lia. }
    apply round_finish; lia.
Qed.

(** The product of two positive normal floats. *)
Lemma mul_round_normal (mx my : positive) (ex ey : Z) :
  Zdigits2 (Zpos mx) = 53 -> Zdigits2 (Zpos my) = 53 ->
  -1074 <= ex + ey + 52 -> ex + ey + 54 <= 971 ->
  exists n, 52 <= n <= 53 /\
    2 ^ 52 * 2 ^ n <= Zpos mx * Zpos my < 2 ^ 53 * 2 ^ n /\
    SFmul 53 1024 (S754_finite false mx ex) (S754_finite false my ey) =
    normal_of false (rne (Zpos mx * Zpos my) (2 ^ n)) (ex + ey + n).
Proof.
  intros Hdx Hdy Hlo Hhi.
  pose proof (Zdigits2_mul_le (Zpos mx) (Zpos my) ltac:(lia) ltac:(lia)) as Hle.
  pose proof (Zdigits2_mul_ge (Zpos mx) (Zpos my) ltac:(lia) ltac:(lia)) as Hge.
  pose proof (Zdigits2_bounds (Zpos mx * Zpos my) ltac:(lia)) as B.
  cbn [SFmul xorb]. rewrite Pos2Z.inj_mul.
  set (M := Zpos mx * Zpos my) in *.
  exists (Zdigits2 M - 53). split; [lia|]. split.
  - rewrite <- !Z.pow_add_r by lia.
    replace (52 + (Zdigits2 M - 53)) with (Zdigits2 M - 1) by lia.
    replace (53 + (Zdigits2 M - 53)) with (Zdigits2 M) by lia. assumption.
  - destruct (round_exact_normal false M (ex + ey)) as [-> _]; try lia.
    f_equal; lia.
Qed.

(** ** Order *)

Lemma leb_finite_pos (m m' : positive) (e e' : Z) :
  SFleb (S754_finite false m e) (S754_finite false m' e') = true <->
  e < e' \/ (e = e' /\ Zpos m <= Zpos m').
Proof.
  unfold SFleb, SFcompare.
  change (Pos.compare_cont Eq m m') with (Pos.compare m m').
  destruct (Z.compare_spec e e') as [He|He|He].
  - destruct (Pos.compare_spec m m') as [Hm|Hm|Hm]; split;
      try discriminate; try reflexivity;
      try (intros _; right; split; [assumption|lia]);
      intros [H|[_ H]]; lia.
  - split; [intros _; now left | reflexivity].
  - split; [discriminate | intros [H|[H _]]; lia].
Qed.

Lemma normal_of_range (m1 e1 : Z) :
  2 ^ 52 <= m1 <= 2 ^ 53 ->
  pos_normal e1 (e1 + 1) (normal_of false m1 e1) = true.
Proof.
  intros Hm. unfold normal_of.
  destruct (Z.ltb_spec m1 (2 ^ 53)) as [Hlt|Hge]; apply pos_normal_finite.
  - rewrite Z2Pos.id by lia.
    repeat split; try lia. apply Zdigits2_unique; lia.
  - repeat split; lia || reflexivity.
Qed.

Lemma rne_range (num den : Z) :
  0 < den -> 2 ^ 52 * den <= num < 2 ^ 53 * den ->
  2 ^ 52 <= rne num den <= 2 ^ 53.
Proof.
  intros Hd [Hl Hu]. pose proof (rne_bounds num den) as Hb.
  assert (2 ^ 52 <= num / den) by (apply Z.div_le_lower_bound; lia).
  assert (num / den < 2 ^ 53) by (apply Z.div_lt_upper_bound; lia).
  lia.
Qed.

(** Two rounded quotients in the normal range are ordered as the numbers
    [num / den * 2 ^ E] and [num' / den' * 2 ^ E'] they round. *)
Lemma normal_of_le (num den E num' den' E' a b : Z) :
  0 < den -> 0 < den' ->
  2 ^ 52 * den <= num < 2 ^ 53 * den ->
  2 ^ 52 * den' <= num' < 2 ^ 53 * den' ->
  0 <= a -> 0 <= b -> a - b = E - E' ->
  num * den' * 2 ^ a <= num' * den * 2 ^ b ->
  SFleb (normal_of false (rne num den) E) (normal_of false (rne num' den') E') = true.
Proof.
  intros Hd Hd' Hn Hn' Ha Hb Hab Hle.
  pose proof (rne_range num den Hd Hn) as Hr.
  pose proof (rne_range num' den' Hd' Hn') as Hr'.
  assert (Hpb : 0 < 2 ^ b) by (apply Z.pow_pos_nonneg; lia).
  assert (HE : E <= E').
  { destruct (Z_le_gt_dec E E') as [|Hgt]; [assumption|exfalso].
    replace a with (b + (E - E')) in Hle by lia.
    rewrite Z.pow_add_r in Hle by lia.
    assert (Hk : 2 <= 2 ^ (E - E')).
    { change 2 with (2 ^ 1) at 1. apply Z.pow_le_mono_r; lia. }
    assert (H1 : num * den' * 2 ^ (E - E') <= num' * den).
    { apply (Z.mul_le_mono_pos_r _ _ (2 ^ b)); [assumption|]. lia. }
    assert (H2 : 2 ^ 52 * den * den' * 2 <= num * den' * 2 ^ (E - E')).
    { apply Z.mul_le_mono_nonneg; try lia.
      apply Z.mul_le_mono_nonneg_r; lia. }
    assert (H3 : num' * den < 2 ^ 53 * den' * den).
    { apply Z.mul_lt_mono_pos_r; lia. }
    change (2 ^ 53) with (2 ^ 52 * 2) in H3. lia. }
  assert (Hm : E = E' -> rne num den <= rne num' den').
  { intros Heq. apply rne_mono; try assumption.
    replace a with b in Hle by lia.
    apply (Z.mul_le_mono_pos_r _ _ (2 ^ b)); assumption. }
  unfold normal_of.
  destruct (Z.ltb_spec (rne num den) (2 ^ 53)),
           (Z.ltb_spec (rne num' den') (2 ^ 53));
    apply leb_finite_pos; rewrite ?Z2Pos.id by lia;
    change (Zpos (2 ^ 52)) with (2 ^ 52);
    destruct (Z.eq_dec E E') as [Heq|Hne]; try specialize (Hm Heq); lia.
Qed.

(** The order of two positive normal floats in terms of their mantissas
    and exponents. *)
Lemma leb_normal_value (l h l' h' : Z) (x x' : spec_float) :
  pos_normal l h x = true -> pos_normal l' h' x' = true ->
  SFleb x x' = true ->
  exists mx ex mx' ex',
    x = S754_finite false mx ex /\ x' = S754_finite false mx' ex' /\
    Zdigits2 (Zpos mx) = 53 /\ Zdigits2 (Zpos mx') = 53 /\
    l <= ex <= h /\ l' <= ex' <= h' /\
    ex <= ex' /\ Zpos mx <= Zpos mx' * 2 ^ (ex' - ex).
Proof.
  intros Hx Hx' Hle.
  apply pos_normal_inv in Hx as (mx & ex & -> & Hdx & Hex).
  apply pos_normal_inv in Hx' as (mx' & ex' & -> & Hdx' & Hex').
  exists mx, ex, mx', ex'. repeat split; try assumption; try lia.
  - apply leb_finite_pos in Hle. lia.
  - apply leb_finite_pos in Hle as [Hlt|[-> Hm]].
    + pose proof (Zdigits2_bounds (Zpos mx) ltac:(lia)) as Bx. rewrite Hdx in Bx.
      pose proof (Zdigits2_bounds (Zpos mx') ltac:(lia)) as Bx'. rewrite Hdx' in Bx'.
      change (2 ^ (53 - 1)) with (2 ^ 52) in Bx, Bx'.
      assert (2 <= 2 ^ (ex' - ex)).
      { change 2 with (2 ^ 1) at 1. apply Z.pow_le_mono_r; lia. }
      change (2 ^ 53) with (2 ^ 52 * 2) in Bx. nia.
    + rewrite Z.sub_diag, Z.pow_0_r. lia.
Qed.

Lemma SFmul_comm (x y : spec_float) : SFmul 53 1024 x y = SFmul 53 1024 y x.
Proof.
  destruct x as [sx|sx| |sx mx ex], y as [sy|sy| |sy my ey];
    cbn [SFmul]; rewrite ?(xorb_comm sx sy); try reflexivity.
  now rewrite (Pos.mul_comm mx my), (Z.add_comm ex ey).
Qed.

(** Multiplication by a positive normal float keeps the order. *)
Lemma mul_mono_normal (l1 h1 l2 h2 : Z) (x x' y : spec_float) :
  pos_normal l1 h1 x = true -> pos_normal l1 h1 x' = true ->
  pos_normal l2 h2 y = true ->
  (-1074) <= l1 + l2 + 52 -> h1 + h2 + 54 <= 971 ->
  SFleb x x' = true ->
  SFleb (SFmul 53 1024 x y) (SFmul 53 1024 x' y) = true.
Proof.
  intros Hx Hx' Hy Hlo Hhi Hle.
  destruct (leb_normal_value _ _ _ _ _ _ Hx Hx' Hle)
    as (mx & ex & mx' & ex' & -> & -> & Hdx & Hdx' & Hex & Hex' & He & Hm).
  apply pos_normal_inv in Hy as (my & ey & -> & Hdy & Hey).
  destruct (mul_round_normal mx my ex ey) as (n & Hn & Bn & ->); try lia.
  destruct (mul_round_normal mx' my ex' ey) as (n' & Hn' & Bn' & ->); try lia.
  assert (0 < 2 ^ n) by (apply Z.pow_pos_nonneg; lia).
  assert (0 < 2 ^ n') by (apply Z.pow_pos_nonneg; lia).
  apply (normal_of_le _ _ _ _ _ _ n (n' + (ex' - ex))); try lia.
  rewrite (Z.pow_add_r 2 n') by lia.
  assert (0 < 2 ^ (ex' - ex)) by (apply Z.pow_pos_nonneg; lia).
  transitivity (Zpos mx' * 2 ^ (ex' - ex) * (Zpos my * 2 ^ n' * 2 ^ n)); [|lia].
  replace (Zpos mx * Zpos my * 2 ^ n' * 2 ^ n)
    with (Zpos mx * (Zpos my * 2 ^ n' * 2 ^ n)) by lia.
  apply Z.mul_le_mono_nonneg_r; [|assumption].
  apply Z.mul_nonneg_nonneg; lia.
Qed.

(** Division by a positive normal float keeps the order. *)
Lemma div_mono_normal (l1 h1 l2 h2 : Z) (x x' y : spec_float) :
  pos_normal l1 h1 x = true -> pos_normal l1 h1 x' = true ->
  pos_normal l2 h2 y = true ->
  (-1074) <= l1 - h2 - 53 -> h1 - l2 - 51 <= 971 ->
  SFleb x x' = true ->
  SFleb (SFdiv 53 1024 x y) (SFdiv 53 1024 x' y) = true.
Proof.
  intros Hx Hx' Hy Hlo Hhi Hle.
  destruct (leb_normal_value _ _ _ _ _ _ Hx Hx' Hle)
    as (mx & ex & mx' & ex' & -> & -> & Hdx & Hdx' & Hex & Hex' & He & Hm).
  apply pos_normal_inv in Hy as (my & ey & -> & Hdy & Hey).
  destruct (div_round_normal mx my ex ey) as (n & Hn & Bn & ->); try lia.
  destruct (div_round_normal mx' my ex' ey) as (n' & Hn' & Bn' & ->); try lia.
  assert (0 < 2 ^ n) by (apply Z.pow_pos_nonneg; lia).
  assert (0 < 2 ^ n') by (apply Z.pow_pos_nonneg; lia).
  apply (normal_of_le _ _ _ _ _ _ n (n' + (ex' - ex))); try lia.
  rewrite (Z.pow_add_r 2 n') by lia.
  assert (0 < 2 ^ (ex' - ex)) by (apply Z.pow_pos_nonneg; lia).
  transitivity (Zpos mx' * 2 ^ (ex' - ex) * (2 ^ 53 * Zpos my * 2 ^ n' * 2 ^ n));
    [|lia].
  replace (Zpos mx * 2 ^ 53 * (Zpos my * 2 ^ n') * 2 ^ n)
    with (Zpos mx * (2 ^ 53 * Zpos my * 2 ^ n' * 2 ^ n)) by lia.
  apply Z.mul_le_mono_nonneg_r; [|assumption].
  repeat apply Z.mul_nonneg_nonneg; lia.
Qed.

(** Division of a positive normal float reverses the order of the
    divisors. *)
Lemma div_anti_normal (l1 h1 l2 h2 : Z) (x y y' : spec_float) :
  pos_normal l1 h1 x = true ->
  pos_normal l2 h2 y = true -> pos_normal l2 h2 y' = true ->
  (-1074) <= l1 - h2 - 53 -> h1 - l2 - 51 <= 971 ->
  SFleb y y' = true ->
  SFleb (SFdiv 53 1024 x y') (SFdiv 53 1024 x y) = true.
Proof.
  intros Hx Hy Hy' Hlo Hhi Hle.
  destruct (leb_normal_value _ _ _ _ _ _ Hy Hy' Hle)
    as (my & ey & my' & ey' & -> & -> & Hdy & Hdy' & Hey & Hey' & He & Hm).
  apply pos_normal_inv in Hx as (mx & ex & -> & Hdx & Hex).
  destruct (div_round_normal mx my ex ey) as (n & Hn & Bn & ->); try lia.
  destruct (div_round_normal mx my' ex ey') as (n' & Hn' & Bn' & ->); try lia.
  assert (0 < 2 ^ n) by (apply Z.pow_pos_nonneg; lia).
  assert (0 < 2 ^ n') by (apply Z.pow_pos_nonneg; lia).
  apply (normal_of_le _ _ _ _ _ _ n' (n + (ey' - ey))); try lia.
  rewrite (Z.pow_add_r 2 n) by lia.
  assert (0 < 2 ^ (ey' - ey)) by (apply Z.pow_pos_nonneg; lia).
  transitivity (Zpos my' * 2 ^ (ey' - ey) * (Zpos mx * 2 ^ 53 * 2 ^ n' * 2 ^ n));
    [|lia].
  replace (Zpos mx * 2 ^ 53 * (Zpos my * 2 ^ n) * 2 ^ n')
    with (Zpos my * (Zpos mx * 2 ^ 53 * 2 ^ n' * 2 ^ n)) by lia.
  apply Z.mul_le_mono_nonneg_r; [|assumption].
  repeat apply Z.mul_nonneg_nonneg; lia.
Qed.

(** ** Sums *)

Lemma SFadd_comm (x y : spec_float) : SFadd 53 1024 x y = SFadd 53 1024 y x.
Proof.
  destruct x as [[]|[]| |sx mx ex], y as [[]|[]| |sy my ey];
    cbn [SFadd]; try reflexivity.
  now rewrite (Z.min_comm ex ey), Z.add_comm.
Qed.

(** The sum of two positive normal floats: the mantissas, aligned at the
    lower exponent, are added and the sum is rounded. *)
Lemma add_round_normal (mx my : positive) (ex ey : Z) :
  Zdigits2 (Zpos mx) = 53 -> Zdigits2 (Zpos my) = 53 ->
  -1074 <= ex -> -1074 <= ey -> Z.max ex ey + 2 <= 971 ->
  exists n,
    Z.max ex ey - Z.min ex ey <= n <= Z.max ex ey - Z.min ex ey + 1 /\
    2 ^ 52 * 2 ^ n <=
      Zpos mx * 2 ^ (ex - Z.min ex ey) + Zpos my * 2 ^ (ey - Z.min ex ey)
      < 2 ^ 53 * 2 ^ n /\
    SFadd 53 1024 (S754_finite false mx ex) (S754_finite false my ey) =
    normal_of false
      (rne (Zpos mx * 2 ^ (ex - Z.min ex ey) + Zpos my * 2 ^ (ey - Z.min ex ey))
           (2 ^ n))
      (Z.min ex ey + n).
Proof.
  intros Hdx Hdy Hex Hey Hhi.
  pose proof (Zdigits2_bounds (Zpos mx) ltac:(lia)) as Bx. rewrite Hdx in Bx.
  pose proof (Zdigits2_bounds (Zpos my) ltac:(lia)) as By. rewrite Hdy in By.
  change (2 ^ (53 - 1)) with (2 ^ 52) in Bx, By.
  cbn [SFadd cond_Zopp].
  set (ez := Z.min ex ey).
  destruct (shl_align_spec mx ex ez) as [_ Eax].
  destruct (shl_align_spec my ey ez) as [_ Eay].
  replace (Z.min ex ez) with ez in Eax by (unfold ez; lia).
  replace (Z.min ey ez) with ez in Eay by (unfold ez; lia).
  set (a := fst (shl_align mx ex ez)) in *.
  set (b := fst (shl_align my ey ez)) in *.
  rewrite <- Eax, <- Eay.
  change (Zpos a + Zpos b) with (Zpos (a + b)).
  cbn [binary_normalize]. unfold binary_round.
  change (Zpos (digits2_pos (a + b))) with (Zdigits2 (Zpos (a + b))).
  set (M := Zpos (a + b)).
  assert (HM : M = Zpos mx * 2 ^ (ex - ez) + Zpos my * 2 ^ (ey - ez))
    by (unfold M; lia).
  set (k := Z.max ex ey - ez).
  assert (Hk : 0 <= k) by (unfold k, ez; lia).
  assert (Hpk : 0 < 2 ^ k) by (apply Z.pow_pos_nonneg; lia).
  assert (Hpx : 1 <= 2 ^ (ex - ez) <= 2 ^ k).
  { split; [apply (Z.pow_le_mono_r 2 0) | apply Z.pow_le_mono_r];
      unfold k, ez; lia. }
  assert (Hpy : 1 <= 2 ^ (ey - ez) <= 2 ^ k).
  { split; [apply (Z.pow_le_mono_r 2 0) | apply Z.pow_le_mono_r];
      unfold k, ez; lia. }
  assert (Hone : 2 ^ (ex - ez) = 2 ^ k \/ 2 ^ (ey - ez) = 2 ^ k).
  { destruct (Z.le_ge_cases ex ey); [right|left]; f_equal; unfold k, ez; lia. }
  assert (HMl : 2 ^ (52 + k) <= M).
  { rewrite Z.pow_add_r by lia. rewrite HM. nia. }
  assert (HMu : M < 2 ^ (54 + k)).
  { rewrite Z.pow_add_r by lia. rewrite HM.
    change (2 ^ 54) with (2 ^ 53 + 2 ^ 53). nia. }
  assert (Hd : 53 + k <= Zdigits2 M <= 54 + k).
  { pose proof (Zdigits2_ge_pow M (52 + k) ltac:(lia) HMl).
    pose proof (Zdigits2_le_pow M (54 + k) ltac:(lia) ltac:(unfold M in *; lia)). lia. }
  pose proof (Zdigits2_bounds M ltac:(lia)) as BM.
  rewrite fexp_eq.
  assert (Es : shl_align (a + b) ez (Z.max (Zdigits2 M + ez - 53) (-1074)) =
               ((a + b)%positive, ez)).
  { unfold shl_align.
    destruct (Z.max (Zdigits2 M + ez - 53) (-1074) - ez) eqn:E;
      try reflexivity; lia. }
  rewrite Es. fold M.
  exists (Zdigits2 M - 53). split; [unfold k in Hd; fold ez; lia|].
  split.
  - rewrite <- !Z.pow_add_r by lia.
    replace (52 + (Zdigits2 M - 53)) with (Zdigits2 M - 1) by lia.
    replace (53 + (Zdigits2 M - 53)) with (Zdigits2 M) by lia. assumption.
  - assert (HM0 : 0 < M) by (unfold M; lia).
    assert (Hez : -1074 <= ez) by (unfold ez; lia).
    assert (Ek : k = Z.max ex ey - ez) by reflexivity.
    destruct (round_exact_normal false M ez) as [-> _]; try lia.
    f_equal. lia.
Qed.

Lemma rne_one (m : Z) : rne m 1 = m.
Proof. unfold rne. now rewrite Z.mod_1_r, Z.div_1_r. Qed.

Lemma normal_of_exact (m : positive) (e : Z) :
  Zdigits2 (Zpos m) = 53 ->
  S754_finite false m e = normal_of false (rne (Zpos m) 1) e.
Proof.
  intros Hd. pose proof (Zdigits2_bounds (Zpos m) ltac:(lia)) as B.
  rewrite Hd in B. rewrite rne_one. unfold normal_of.
  destruct (Z.ltb_spec (Zpos m) (2 ^ 53)); [reflexivity|lia].
Qed.

Lemma add_normal (l1 h1 l2 h2 : Z) (x y : spec_float) :
  pos_normal l1 h1 x = true -> pos_normal l2 h2 y = true ->
  -1074 <= l1 -> -1074 <= l2 -> Z.max h1 h2 + 2 <= 971 ->
  pos_normal (Z.max l1 l2) (Z.max h1 h2 + 2) (SFadd 53 1024 x y) = true.
Proof.
  intros Hx Hy Hl1 Hl2 Hh.
  apply pos_normal_inv in Hx as (mx & ex & -> & Hdx & Hex).
  apply pos_normal_inv in Hy as (my & ey & -> & Hdy & Hey).
  destruct (add_round_normal mx my ex ey) as (n & Hn & Bn & ->); try lia.
  assert (Hp : 0 < 2 ^ n) by (apply Z.pow_pos_nonneg; lia).
  pose proof (normal_of_range _ (Z.min ex ey + n) (rne_range _ _ Hp Bn)) as Hr.
  apply pos_normal_inv in Hr as (m & e & -> & Hd & He).
  apply pos_normal_finite. repeat split; try assumption; lia.
Qed.

(** Adding a positive normal float does not give less. *)
Lemma add_ge_normal (l1 h1 l2 h2 : Z) (x y : spec_float) :
  pos_normal l1 h1 x = true -> pos_normal l2 h2 y = true ->
  -1074 <= l1 -> -1074 <= l2 -> Z.max h1 h2 + 2 <= 971 ->
  SFleb x (SFadd 53 1024 x y) = true.
Proof.
  intros Hx Hy Hl1 Hl2 Hh.
  apply pos_normal_inv in Hx as (mx & ex & -> & Hdx & Hex).
  apply pos_normal_inv in Hy as (my & ey & -> & Hdy & Hey).
  destruct (add_round_normal mx my ex ey) as (n & Hn & Bn & ->); try lia.
  rewrite (normal_of_exact mx ex Hdx).
  pose proof (Zdigits2_bounds (Zpos mx) ltac:(lia)) as Bx. rewrite Hdx in Bx.
  change (2 ^ (53 - 1)) with (2 ^ 52) in Bx.
  assert (0 < 2 ^ n) by (apply Z.pow_pos_nonneg; lia).
  assert (0 < 2 ^ (ex - Z.min ex ey)) by (apply Z.pow_pos_nonneg; lia).
  assert (0 < 2 ^ (ey - Z.min ex ey)) by (apply Z.pow_pos_nonneg; lia).
  apply (normal_of_le _ _ _ _ _ _ (ex - Z.min ex ey) n); try lia;
    rewrite Z.mul_1_r; nia.
Qed.

(** Addition of a positive normal float keeps the order. *)
Lemma add_mono_normal (l1 h1 l2 h2 : Z) (x x' y : spec_float) :
  pos_normal l1 h1 x = true -> pos_normal l1 h1 x' = true ->
  pos_normal l2 h2 y = true ->
  -1074 <= l1 -> -1074 <= l2 -> Z.max h1 h2 + 2 <= 971 ->
  SFleb x x' = true ->
  SFleb (SFadd 53 1024 x y) (SFadd 53 1024 x' y) = true.
Proof.
  intros Hx Hx' Hy Hl1 Hl2 Hh Hle.
  destruct (leb_normal_value _ _ _ _ _ _ Hx Hx' Hle)
    as (mx & ex & mx' & ex' & -> & -> & Hdx & Hdx' & Hex & Hex' & He & Hm).
  apply pos_normal_inv in Hy as (my & ey & -> & Hdy & Hey).
  destruct (add_round_normal mx my ex ey) as (n & Hn & Bn & ->); try lia.
  destruct (add_round_normal mx' my ex' ey) as (n' & Hn' & Bn' & ->); try lia.
  set (ez := Z.min ex ey) in *. set (ez' := Z.min ex' ey) in *.
  assert (Hez : ez <= ez') by (unfold ez, ez'; lia).
  assert (0 < 2 ^ n) by (apply Z.pow_pos_nonneg; lia).
  assert (0 < 2 ^ n') by (apply Z.pow_pos_nonneg; lia).
  apply (normal_of_le _ _ _ _ _ _ n (n' + (ez' - ez))); try lia.
  rewrite (Z.pow_add_r 2 n') by lia.
  assert (Hs : (Zpos mx' * 2 ^ (ex' - ez') + Zpos my * 2 ^ (ey - ez')) * 2 ^ (ez' - ez)
               = Zpos mx' * 2 ^ (ex' - ex) * 2 ^ (ex - ez) + Zpos my * 2 ^ (ey - ez)).
  { rewrite Z.mul_add_distr_r, <- !Z.mul_assoc, <- !Z.pow_add_r
      by (unfold ez, ez'; lia).
    do 2 f_equal; f_equal; lia. }
  assert (0 < 2 ^ (ex - ez)) by (apply Z.pow_pos_nonneg; unfold ez; lia).
  assert (Hm' : Zpos mx * 2 ^ (ex - ez) <= Zpos mx' * 2 ^ (ex' - ex) * 2 ^ (ex - ez)).
  { apply Z.mul_le_mono_nonneg_r; lia. }
  transitivity ((Zpos mx' * 2 ^ (ex' - ez') + Zpos my * 2 ^ (ey - ez'))
                * 2 ^ (ez' - ez) * (2 ^ n' * 2 ^ n)); [|lia].
  rewrite Hs.
  replace ((Zpos mx * 2 ^ (ex - ez) + Zpos my * 2 ^ (ey - ez)) * 2 ^ n' * 2 ^ n)
    with ((Zpos mx * 2 ^ (ex - ez) + Zpos my * 2 ^ (ey - ez)) * (2 ^ n' * 2 ^ n)) by lia.
  apply Z.mul_le_mono_nonneg_r; lia.
Qed.

(** ** Zero or normal *)


Lemma zn_inv (lo hi : Z) (x : spec_float) :
  zero_or_pos_normal lo hi x = true ->
  (exists s, x = S754_zero s) \/ pos_normal lo hi x = true.
Proof. destruct x; cbn; intros H; try discriminate; eauto. Qed.

Lemma zn_normal (lo hi : Z) (x : spec_float) :
  pos_normal lo hi x = true -> zero_or_pos_normal lo hi x = true.
Proof. destruct x; cbn; intros H; try discriminate; assumption. Qed.

Lemma zn_or (lo hi : Z) (x : spec_float) :
  (exists s, x = S754_zero s) \/ pos_normal lo hi x = true ->
  zero_or_pos_normal lo hi x = true.
Proof. intros [[s ->]|H]; [reflexivity|now apply zn_normal]. Qed.

Lemma pos_normal_weaken (lo hi lo' hi' : Z) (x : spec_float) :
  pos_normal lo hi x = true -> lo' <= lo -> hi <= hi' ->
  pos_normal lo' hi' x = true.
Proof.
  intros H Hl Hh. apply pos_normal_inv in H as (m & e & -> & Hd & He).
  apply pos_normal_finite. repeat split; try assumption; lia.
Qed.

Lemma zn_weaken (lo hi lo' hi' : Z) (x : spec_float) :
  zero_or_pos_normal lo hi x = true -> lo' <= lo -> hi <= hi' ->
  zero_or_pos_normal lo' hi' x = true.
Proof.
  intros H Hl Hh. apply zn_inv in H as [[s ->]|H]; [reflexivity|].
  apply zn_normal. now apply (pos_normal_weaken lo hi).
Qed.

Ltac zn_cases H :=
  let s := fresh "s" in apply zn_inv in H as [[s ->]|H].

Ltac as_finite H :=
  let m := fresh "m" in let e := fresh "e" in
  let Hd := fresh "Hd" in let He := fresh "He" in
  apply pos_normal_inv in H as (m & e & -> & Hd & He).

Lemma leb_refl_zn (lo hi : Z) (x : spec_float) :
  zero_or_pos_normal lo hi x = true -> SFleb x x = true.
Proof.
  intros H. zn_cases H; [reflexivity|]. as_finite H.
  apply leb_finite_pos. lia.
Qed.

Lemma leb_trans_zn (l1 h1 l2 h2 l3 h3 : Z) (x y z : spec_float) :
  zero_or_pos_normal l1 h1 x = true -> zero_or_pos_normal l2 h2 y = true ->
  zero_or_pos_normal l3 h3 z = true ->
  SFleb x y = true -> SFleb y z = true -> SFleb x z = true.
Proof.
  intros Hx Hy Hz Hxy Hyz.
  zn_cases Hx; zn_cases Hy; zn_cases Hz;
    try as_finite Hx; try as_finite Hy; try as_finite Hz;
    try reflexivity; try discriminate.
  apply leb_finite_pos in Hxy, Hyz. apply leb_finite_pos. lia.
Qed.

Lemma leb_zero_zn (lo hi : Z) (s : bool) (x : spec_float) :
  zero_or_pos_normal lo hi x = true -> SFleb (S754_zero s) x = true.
Proof. intros H. zn_cases H; [reflexivity|]. as_finite H. reflexivity. Qed.

Lemma mul_zn (l1 h1 l2 h2 : Z) (x y : spec_float) :
  zero_or_pos_normal l1 h1 x = true -> zero_or_pos_normal l2 h2 y = true ->
  (-1074) <= l1 + l2 + 52 -> h1 + h2 + 54 <= 971 ->
  zero_or_pos_normal (l1 + l2 + 52) (h1 + h2 + 54) (SFmul 53 1024 x y) = true.
Proof.
  intros Hx Hy Hlo Hhi. zn_cases Hx; zn_cases Hy.
  - reflexivity.
  - as_finite Hy. reflexivity.
  - as_finite Hx. reflexivity.
  - apply zn_normal. now apply mul_normal.
Qed.

Lemma div_zn (l1 h1 l2 h2 : Z) (x y : spec_float) :
  zero_or_pos_normal l1 h1 x = true -> pos_normal l2 h2 y = true ->
  (-1074) <= l1 - h2 - 53 -> h1 - l2 - 51 <= 971 ->
  zero_or_pos_normal (l1 - h2 - 53) (h1 - l2 - 51) (SFdiv 53 1024 x y) = true.
Proof.
  intros Hx Hy Hlo Hhi. zn_cases Hx.
  - as_finite Hy. reflexivity.
  - apply zn_normal. now apply div_normal.
Qed.

Lemma add_zn (l h1 h2 : Z) (x y : spec_float) :
  zero_or_pos_normal l h1 x = true -> zero_or_pos_normal l h2 y = true ->
  -1074 <= l -> Z.max h1 h2 + 2 <= 971 ->
  zero_or_pos_normal l (Z.max h1 h2 + 2) (SFadd 53 1024 x y) = true.
Proof.
  intros Hx Hy Hl Hh. zn_cases Hx; zn_cases Hy.
  - destruct s, s0; reflexivity.
  - cbn [SFadd]. apply zn_normal.
    apply (pos_normal_weaken l h2); [|lia..]. destruct y; try discriminate; assumption.
  - apply zn_normal. apply (pos_normal_weaken l h1); [|lia..].
    destruct x; try discriminate; assumption.
  - apply zn_normal.
    apply (pos_normal_weaken (Z.max l l) (Z.max h1 h2 + 2)); [|lia..].
    now apply add_normal.
Qed.

Lemma mul_mono_zn (l1 h1 l2 h2 : Z) (x x' y : spec_float) :
  zero_or_pos_normal l1 h1 x = true -> zero_or_pos_normal l1 h1 x' = true ->
  zero_or_pos_normal l2 h2 y = true ->
  (-1074) <= l1 + l2 + 52 -> h1 + h2 + 54 <= 971 ->
  SFleb x x' = true ->
  SFleb (SFmul 53 1024 x y) (SFmul 53 1024 x' y) = true.
Proof.
  intros Hx Hx' Hy Hlo Hhi Hle.
  pose proof (mul_zn _ _ _ _ _ _ Hx' Hy Hlo Hhi) as Hr.
  zn_cases Hy.
  - zn_cases Hx; zn_cases Hx'; try as_finite Hx; try as_finite Hx';
      reflexivity.
  - zn_cases Hx.
    + replace (SFmul 53 1024 (S754_zero s) y) with (S754_zero (xorb s false))
        by (as_finite Hy; reflexivity).
      apply (leb_zero_zn _ _ _ _ Hr).
    + zn_cases Hx'.
      * as_finite Hx. discriminate.
      * now apply (mul_mono_normal l1 h1 l2 h2).
Qed.

Lemma mul_mono_zn_r (l1 h1 l2 h2 : Z) (x y y' : spec_float) :
  zero_or_pos_normal l1 h1 x = true ->
  zero_or_pos_normal l2 h2 y = true -> zero_or_pos_normal l2 h2 y' = true ->
  (-1074) <= l1 + l2 + 52 -> h1 + h2 + 54 <= 971 ->
  SFleb y y' = true ->
  SFleb (SFmul 53 1024 x y) (SFmul 53 1024 x y') = true.
Proof.
  intros Hx Hy Hy' Hlo Hhi Hle.
  rewrite (SFmul_comm x y), (SFmul_comm x y').
  apply (mul_mono_zn l2 h2 l1 h1); try assumption; lia.
Qed.

Lemma div_mono_zn (l1 h1 l2 h2 : Z) (x x' y : spec_float) :
  zero_or_pos_normal l1 h1 x = true -> zero_or_pos_normal l1 h1 x' = true ->
  pos_normal l2 h2 y = true ->
  (-1074) <= l1 - h2 - 53 -> h1 - l2 - 51 <= 971 ->
  SFleb x x' = true ->
  SFleb (SFdiv 53 1024 x y) (SFdiv 53 1024 x' y) = true.
Proof.
  intros Hx Hx' Hy Hlo Hhi Hle.
  pose proof (div_zn _ _ _ _ _ _ Hx' Hy Hlo Hhi) as Hr.
  zn_cases Hx.
  - replace (SFdiv 53 1024 (S754_zero s) y) with (S754_zero (xorb s false))
      by (as_finite Hy; reflexivity).
    apply (leb_zero_zn _ _ _ _ Hr).
  - zn_cases Hx'.
    + as_finite Hx. discriminate.
    + now apply (div_mono_normal l1 h1 l2 h2).
Qed.

Lemma div_anti_zn (l1 h1 l2 h2 : Z) (x y y' : spec_float) :
  zero_or_pos_normal l1 h1 x = true ->
  pos_normal l2 h2 y = true -> pos_normal l2 h2 y' = true ->
  (-1074) <= l1 - h2 - 53 -> h1 - l2 - 51 <= 971 ->
  SFleb y y' = true ->
  SFleb (SFdiv 53 1024 x y') (SFdiv 53 1024 x y) = true.
Proof.
  intros Hx Hy Hy' Hlo Hhi Hle. zn_cases Hx.
  - as_finite Hy. as_finite Hy'. reflexivity.
  - now apply (div_anti_normal l1 h1 l2 h2).
Qed.

Lemma add_ge_zn (l h1 h2 : Z) (x y : spec_float) :
  zero_or_pos_normal l h1 x = true -> zero_or_pos_normal l h2 y = true ->
  -1074 <= l -> Z.max h1 h2 + 2 <= 971 ->
  SFleb x (SFadd 53 1024 x y) = true.
Proof.
  intros Hx Hy Hl Hh.
  pose proof (add_zn _ _ _ _ _ Hx Hy Hl Hh) as Hr.
  zn_cases Hx.
  - apply (leb_zero_zn _ _ _ _ Hr).
  - zn_cases Hy.
    + as_finite Hx. cbn [SFadd]. apply leb_finite_pos. lia.
    + now apply (add_ge_normal l h1 l h2).
Qed.

Lemma add_mono_zn_l (l h1 h2 : Z) (x x' y : spec_float) :
  zero_or_pos_normal l h1 x = true -> zero_or_pos_normal l h1 x' = true ->
  zero_or_pos_normal l h2 y = true ->
  -1074 <= l -> Z.max h1 h2 + 2 <= 971 ->
  SFleb x x' = true ->
  SFleb (SFadd 53 1024 x y) (SFadd 53 1024 x' y) = true.
Proof.
  intros Hx Hx' Hy Hl Hh Hle.
  zn_cases Hx; zn_cases Hx'.
  - zn_cases Hy; [destruct s, s0, s1; reflexivity|].
    as_finite Hy. cbn [SFadd]. apply leb_finite_pos. lia.
  - zn_cases Hy.
    + as_finite Hx'. destruct s, s0; reflexivity.
    + rewrite (SFadd_comm x' y).
      replace (SFadd 53 1024 (S754_zero s) y) with y
        by (as_finite Hy; reflexivity).
      apply (add_ge_normal l h2 l h1); try assumption; lia.
  - as_finite Hx. discriminate.
  - zn_cases Hy.
    + as_finite Hx. as_finite Hx'. exact Hle.
    + now apply (add_mono_normal l h1 l h2).
Qed.

Lemma add_mono_zn (l h1 h2 : Z) (x x' y y' : spec_float) :
  zero_or_pos_normal l h1 x = true -> zero_or_pos_normal l h1 x' = true ->
  zero_or_pos_normal l h2 y = true -> zero_or_pos_normal l h2 y' = true ->
  -1074 <= l -> Z.max h1 h2 + 2 <= 971 ->
  SFleb x x' = true -> SFleb y y' = true ->
  SFleb (SFadd 53 1024 x y) (SFadd 53 1024 x' y') = true.
Proof.
  intros Hx Hx' Hy Hy' Hl Hh Hlx Hly.
  apply (leb_trans_zn l (Z.max h1 h2 + 2) l (Z.max h1 h2 + 2) l (Z.max h1 h2 + 2)
           _ (SFadd 53 1024 x' y)); try (apply add_zn; assumption).
  - now apply (add_mono_zn_l l h1 h2).
  - rewrite (SFadd_comm x' y), (SFadd_comm x' y').
    apply (add_mono_zn_l l h2 h1); try assumption; lia.
Qed.

(** Running sums of a value that is zero or normal. *)
Lemma sum_copies_zn (l h : Z) (x : F64.float) (n : nat) :
  zero_or_pos_normal l h x = true -> -1074 <= l -> h + 2 * Z.of_nat n <= 971 ->
  zero_or_pos_normal l (h + 2 * Z.of_nat n) (sum_copies x n) = true.
Proof.
  intros Hx Hl. induction n as [|n IH]; intros Hh.
  - cbn [sum_copies]. apply (zn_weaken l h); [assumption|lia..].
  - cbn [sum_copies]. unfold F64.add.
    apply (zn_weaken l (Z.max (h + 2 * Z.of_nat n) h + 2)); [|lia..].
    apply add_zn; try assumption; [apply IH|]; lia.
Qed.

Lemma sum_copies_step (l h : Z) (x : F64.float) (n : nat) :
  zero_or_pos_normal l h x = true -> -1074 <= l ->
  h + 2 * Z.of_nat (S n) <= 971 ->
  SFleb (sum_copies x n) (sum_copies x (S n)) = true.
Proof.
  intros Hx Hl Hh. cbn [sum_copies]. unfold F64.add.
  apply (add_ge_zn l (h + 2 * Z.of_nat n) h); try assumption; try lia.
  apply sum_copies_zn; try assumption; lia.
Qed.

Lemma sum_copies_mono (l h : Z) (x x' : F64.float) (n : nat) :
  zero_or_pos_normal l h x = true -> zero_or_pos_normal l h x' = true ->
  -1074 <= l -> h + 2 * Z.of_nat n <= 971 ->
  SFleb x x' = true ->
  SFleb (sum_copies x n) (sum_copies x' n) = true.
Proof.
  intros Hx Hx' Hl Hh Hle. induction n as [|n IH].
  - exact Hle.
  - cbn [sum_copies]. unfold F64.add.
    apply (add_mono_zn l (h + 2 * Z.of_nat n) h); try assumption; try lia.
    + apply sum_copies_zn; try assumption; lia.
    + apply sum_copies_zn; try assumption; lia.
    + apply IH. lia.
Qed.

(** ** Two runs compared *)




Lemma app_fields (w : Widgets) :
  F64.is_zero (select_eer w * F64.of_Z 1000)%f64 = false ->
  exists o, app w = Ok o /\
    total_reduction_btu o =
      (area_m2 w * FT2_PER_M2 * (F64.of_Z 5833 * multiplier_of (roof_type w)))%f64 /\
    kwh_saved o = (total_reduction_btu o / (select_eer w * F64.of_Z 1000))%f64 /\
    pln_saved o = (kwh_saved o * price_pln w)%f64 /\
    kg_co2_saved o = (kwh_saved o * ef_kg_per_kwh w)%f64 /\
    t_co2_saved o = (kg_co2_saved o / F64.of_Z 1000)%f64 /\
    gj_saved o = ((total_reduction_btu o * BTU_TO_J) / F64.of_Z 1000000000)%f64 /\
    trees_eq o = (kg_co2_saved o / KG_PER_TREE_PER_YEAR)%f64 /\
    km_eq o = (kg_co2_saved o / KG_PER_CAR_KM)%f64 /\
    kwh_cum o = cumsum (full_like (arange 1 21) (kwh_saved o)) /\
    pln_cum o = cumsum (full_like (arange 1 21) (pln_saved o)) /\
    tco2_cum o = cumsum (full_like (arange 1 21) (t_co2_saved o)) /\
    payback o = payback_of w (pln_saved o).
Proof. intros Hdiv. app_result. repeat split. Qed.

Lemma ef_zero_or_normal (w : Widgets) :
  moderate w = true -> zero_or_above TINY (ef_kg_per_kwh w) = true ->
  zero_or_pos_normal (-126) 21 (ef_kg_per_kwh w) = true.
Proof.
  intros Hmod Hef. unfold moderate in Hmod. rewrite !andb_true_iff in Hmod.
  destruct Hmod as ((((((((_ & _) & _) & _) & _) & _) & Wf) & Bf) & _).
  apply zn_or. now apply zero_or_normal.
Qed.

(** The ranges of the figures of a run with inputs of moderate size. *)
Lemma figures_ranges (a e mult p f : F64.float) :
  pos_normal (-49) 21 a = true -> pos_normal (-50) 21 e = true ->
  pos_normal (-53) (-52) mult = true ->
  zero_or_pos_normal (-126) 21 p = true ->
  zero_or_pos_normal (-126) 21 f = true ->
  let total := (a * FT2_PER_M2 * (F64.of_Z 5833 * mult))%f64 in
  let kwh := (total / (e * F64.of_Z 1000))%f64 in
  pos_normal (-35) 42 total = true /\
  pos_normal (-120) 32 kwh = true /\
  zero_or_pos_normal (-194) 107 (kwh * p)%f64 = true /\
  zero_or_pos_normal (-194) 107 (kwh * f)%f64 = true /\
  zero_or_pos_normal (-204) 99 (kwh * f / F64.of_Z 1000)%f64 = true.
Proof.
  intros Ha He Hm Hp Hf. cbv zeta.
  pose proof (total_range _ _ Ha Hm) as Rtot.
  pose proof (kwh_range _ _ _ Ha He Hm) as Rkwh.
  split; [assumption|]. split; [assumption|].
  assert (Rp : zero_or_pos_normal (-194) 107
                 (a * FT2_PER_M2 * (F64.of_Z 5833 * mult) / (e * F64.of_Z 1000) * p)%f64
               = true).
  { apply (mul_zn (-120) 32 (-126) 21); try lia; [now apply zn_normal|assumption]. }
  assert (Rf : zero_or_pos_normal (-194) 107
                 (a * FT2_PER_M2 * (F64.of_Z 5833 * mult) / (e * F64.of_Z 1000) * f)%f64
               = true).
  { apply (mul_zn (-120) 32 (-126) 21); try lia; [now apply zn_normal|assumption]. }
  split; [assumption|]. split; [assumption|].
  apply (div_zn (-194) 107 (-43) (-43)); [assumption|reflexivity|lia..].
Qed.

Lemma cumsum_from_leb (l h : Z) (x x' : F64.float) :
  zero_or_pos_normal l h x = true -> zero_or_pos_normal l h x' = true ->
  (x <=? x')%f64 = true -> -1074 <= l ->
  forall (ys : list Z) (acc acc' : F64.float) (k : Z),
    zero_or_pos_normal l k acc = true -> zero_or_pos_normal l k acc' = true ->
    (acc <=? acc')%f64 = true -> h <= k ->
    k + 2 * Z.of_nat (List.length ys) <= 971 ->
    list_leb (cumsum_from acc (full_like ys x))
             (cumsum_from acc' (full_like ys x')) = true.
Proof.
  intros Hx Hx' Hle Hl. induction ys as [|y ys IH]; intros acc acc' k Ha Ha' Hacc Hk Hlen.
  - reflexivity.
  - cbn [full_like map cumsum_from list_leb List.length] in *.
    change (map (fun _ : Z => x) ys) with (full_like ys x).
    change (map (fun _ : Z => x') ys) with (full_like ys x').
    apply andb_true_intro. split.
    + unfold F64.leb, F64.add in *.
      apply (add_mono_zn l k h); try assumption; lia.
    + apply (IH _ _ (k + 2)); try lia.
      * unfold F64.add. replace (k + 2) with (Z.max k h + 2) by lia.
        apply add_zn; try assumption; lia.
      * unfold F64.add. replace (k + 2) with (Z.max k h + 2) by lia.
        apply add_zn; try assumption; lia.
      * unfold F64.leb, F64.add in *.
        apply (add_mono_zn l k h); try assumption; lia.
Qed.

Lemma projection_leb (l h : Z) (x x' : F64.float) :
  zero_or_pos_normal l h x = true -> zero_or_pos_normal l h x' = true ->
  (x <=? x')%f64 = true -> -1074 <= l -> h <= 900 ->
  list_leb (cumsum (full_like (arange 1 21) x))
           (cumsum (full_like (arange 1 21) x')) = true.
Proof.
  intros Hx Hx' Hle Hl Hh. rewrite years_eq.
  cbn [full_like map cumsum list_leb]. rewrite Hle. cbn [andb].
  apply (cumsum_from_leb l h x x' Hx Hx' Hle Hl
           [2; 3; 4; 5; 6; 7; 8; 9; 10; 11; 12; 13; 14; 15; 16; 17; 18; 19; 20]
           x x' h); try assumption; cbn [List.length]; lia.
Qed.

(** The figures downstream of the yearly kWh and of the total
    reduction keep the order of these two, of the prices and of the
    emission factors. *)
Lemma downstream_leb (w1 w2 : Widgets) (o1 o2 : Outputs) :
  min_values w1 = true -> moderate w1 = true ->
  zero_or_above TINY (ef_kg_per_kwh w1) = true ->
  min_values w2 = true -> moderate w2 = true ->
  zero_or_above TINY (ef_kg_per_kwh w2) = true ->
  app w1 = Ok o1 -> app w2 = Ok o2 ->
  (total_reduction_btu o1 <=? total_reduction_btu o2)%f64 = true ->
  (kwh_saved o1 <=? kwh_saved o2)%f64 = true ->
  (price_pln w1 <=? price_pln w2)%f64 = true ->
  (ef_kg_per_kwh w1 <=? ef_kg_per_kwh w2)%f64 = true ->
  savings_leb o1 o2 = true.
Proof.
  intros Min1 Mod1 Ef1 Min2 Mod2 Ef2 Ho1 Ho2 Ltot Lkwh Lp Lf.
  destruct (input_ranges w1 Min1 Mod1) as (Ha1 & He1 & _ & Hpz1 & _ & _).
  destruct (input_ranges w2 Min2 Mod2) as (Ha2 & He2 & _ & Hpz2 & _ & _).
  apply zn_or in Hpz1, Hpz2.
  pose proof (ef_zero_or_normal w1 Mod1 Ef1) as Hf1.
  pose proof (ef_zero_or_normal w2 Mod2 Ef2) as Hf2.
  pose proof (multiplier_range (roof_type w1)) as Hm1.
  pose proof (multiplier_range (roof_type w2)) as Hm2.
  destruct (figures_ranges _ _ _ _ _ Ha1 He1 Hm1 Hpz1 Hf1)
    as (Rt1 & Rk1 & Rp1 & Rg1 & Rc1).
  destruct (figures_ranges _ _ _ _ _ Ha2 He2 Hm2 Hpz2 Hf2)
    as (Rt2 & Rk2 & Rp2 & Rg2 & Rc2).
  destruct (app_fields w1 (divisor_nonzero w1 Min1))
    as (o & Ho & Et1 & Ek1 & Ep1 & Eg1 & Ec1 & Ej1 & Er1 & Em1 & Ck1 & Cp1 & Cc1 & _).
  rewrite Ho1 in Ho. injection Ho as <-.
  destruct (app_fields w2 (divisor_nonzero w2 Min2))
    as (o & Ho & Et2 & Ek2 & Ep2 & Eg2 & Ec2 & Ej2 & Er2 & Em2 & Ck2 & Cp2 & Cc2 & _).
  rewrite Ho2 in Ho. injection Ho as <-.
  rewrite <- Et1 in Rt1, Rk1, Rp1, Rg1, Rc1. rewrite <- Ek1 in Rk1, Rp1, Rg1, Rc1.
  rewrite <- Ep1 in Rp1. rewrite <- Eg1 in Rg1, Rc1. rewrite <- Ec1 in Rc1.
  rewrite <- Et2 in Rt2, Rk2, Rp2, Rg2, Rc2. rewrite <- Ek2 in Rk2, Rp2, Rg2, Rc2.
  rewrite <- Ep2 in Rp2. rewrite <- Eg2 in Rg2, Rc2. rewrite <- Ec2 in Rc2.
  apply zn_normal in Rk1, Rk2, Rt1, Rt2.
  assert (Lpln : (pln_saved o1 <=? pln_saved o2)%f64 = true).
  { rewrite Ep1, Ep2. unfold F64.leb, F64.mul in *.
    apply (leb_trans_zn (-194) 107 (-194) 107 (-194) 107
             _ (SFmul 53 1024 (kwh_saved o2) (price_pln w1))).
    - apply (mul_zn (-120) 32 (-126) 21); assumption || lia.
    - apply (mul_zn (-120) 32 (-126) 21); assumption || lia.
    - apply (mul_zn (-120) 32 (-126) 21); assumption || lia.
    - apply (mul_mono_zn (-120) 32 (-126) 21); assumption || lia.
    - apply (mul_mono_zn_r (-120) 32 (-126) 21); assumption || lia. }
  assert (Lkg : (kg_co2_saved o1 <=? kg_co2_saved o2)%f64 = true).
  { rewrite Eg1, Eg2. unfold F64.leb, F64.mul in *.
    apply (leb_trans_zn (-194) 107 (-194) 107 (-194) 107
             _ (SFmul 53 1024 (kwh_saved o2) (ef_kg_per_kwh w1))).
    - apply (mul_zn (-120) 32 (-126) 21); assumption || lia.
    - apply (mul_zn (-120) 32 (-126) 21); assumption || lia.
    - apply (mul_zn (-120) 32 (-126) 21); assumption || lia.
    - apply (mul_mono_zn (-120) 32 (-126) 21); assumption || lia.
    - apply (mul_mono_zn_r (-120) 32 (-126) 21); assumption || lia. }
  assert (Lt : (t_co2_saved o1 <=? t_co2_saved o2)%f64 = true).
  { rewrite Ec1, Ec2. unfold F64.leb, F64.div in *.
    apply (div_mono_zn (-194) 107 (-43) (-43)); assumption || reflexivity || lia. }
  unfold savings_leb. rewrite Ltot, Lkwh, Lpln, Lkg, Lt. cbn [andb].
  rewrite !andb_true_iff. repeat split.
  - rewrite Ej1, Ej2. unfold F64.leb, F64.div, F64.mul in *.
    apply (div_mono_zn (-25) 54 (-23) (-23)); try reflexivity; try lia.
    + apply (mul_zn (-35) 42 (-42) (-42)); assumption || reflexivity || lia.
    + apply (mul_zn (-35) 42 (-42) (-42)); assumption || reflexivity || lia.
    + apply (mul_mono_zn (-35) 42 (-42) (-42)); assumption || reflexivity || lia.
  - rewrite Er1, Er2. unfold F64.leb, F64.div in *.
    apply (div_mono_zn (-194) 107 (-48) (-48)); assumption || reflexivity || lia.
  - rewrite Em1, Em2. unfold F64.leb, F64.div in *.
    apply (div_mono_zn (-194) 107 (-55) (-55)); assumption || reflexivity || lia.
  - rewrite Ck1, Ck2. apply (projection_leb (-120) 32); assumption || lia.
  - rewrite Cp1, Cp2. apply (projection_leb (-194) 107); assumption || lia.
  - rewrite Cc1, Cc2. apply (projection_leb (-204) 99); assumption || lia.
Qed.

Lemma upstream_leb (a1 a2 e1 e2 m1 m2 : F64.float) :
  pos_normal (-49) 21 a1 = true -> pos_normal (-49) 21 a2 = true ->
  pos_normal (-50) 21 e1 = true -> pos_normal (-50) 21 e2 = true ->
  pos_normal (-53) (-52) m1 = true -> pos_normal (-53) (-52) m2 = true ->
  (a1 <=? a2)%f64 = true -> (m1 <=? m2)%f64 = true -> (e2 <=? e1)%f64 = true ->
  (a1 * FT2_PER_M2 * (F64.of_Z 5833 * m1) <=?
   a2 * FT2_PER_M2 * (F64.of_Z 5833 * m2))%f64 = true /\
  (a1 * FT2_PER_M2 * (F64.of_Z 5833 * m1) / (e1 * F64.of_Z 1000) <=?
   a2 * FT2_PER_M2 * (F64.of_Z 5833 * m2) / (e2 * F64.of_Z 1000))%f64 = true.
Proof.
  intros Ha1 Ha2 He1 He2 Hm1 Hm2 La Lm Le.
  pose proof (area_ft2_range _ Ha1) as Rf1.
  pose proof (area_ft2_range _ Ha2) as Rf2.
  pose proof (reduction_range _ Hm1) as Rr1.
  pose proof (reduction_range _ Hm2) as Rr2.
  pose proof (total_range _ _ Ha1 Hm1) as Rt1.
  pose proof (total_range _ _ Ha2 Hm2) as Rt2.
  pose proof (divisor_range _ He1) as Rd1.
  pose proof (divisor_range _ He2) as Rd2.
  pose proof (kwh_range _ _ _ Ha1 He1 Hm1) as Rk1.
  pose proof (kwh_range _ _ _ Ha2 He2 Hm2) as Rk2.
  pose proof (kwh_range _ _ _ Ha2 He1 Hm2) as Rk3.
  pose proof (total_range _ _ Ha2 Hm1) as Rt3.
  unfold F64.leb, F64.mul, F64.div in *.
  assert (Lf : SFleb (SFmul 53 1024 a1 FT2_PER_M2) (SFmul 53 1024 a2 FT2_PER_M2) = true).
  { apply (mul_mono_normal (-49) 21 (-49) (-49)); assumption || reflexivity || lia. }
  assert (Lr : SFleb (SFmul 53 1024 (F64.of_Z 5833) m1)
                     (SFmul 53 1024 (F64.of_Z 5833) m2) = true).
  { apply (mul_mono_zn_r (-40) (-40) (-53) (-52));
      try (apply zn_normal); assumption || reflexivity || lia. }
  assert (Lt : SFleb (SFmul 53 1024 (SFmul 53 1024 a1 FT2_PER_M2)
                        (SFmul 53 1024 (F64.of_Z 5833) m1))
                     (SFmul 53 1024 (SFmul 53 1024 a2 FT2_PER_M2)
                        (SFmul 53 1024 (F64.of_Z 5833) m2)) = true).
  { apply (leb_trans_zn (-35) 42 (-35) 42 (-35) 42 _
             (SFmul 53 1024 (SFmul 53 1024 a2 FT2_PER_M2)
                (SFmul 53 1024 (F64.of_Z 5833) m1)));
      try (apply zn_normal; assumption).
    - apply (mul_mono_normal (-46) 26 (-41) (-38)); assumption || lia.
    - apply (mul_mono_zn_r (-46) 26 (-41) (-38));
        try (apply zn_normal); assumption || lia. }
  split; [exact Lt|].
  assert (Ld : SFleb (SFmul 53 1024 e2 (F64.of_Z 1000))
                     (SFmul 53 1024 e1 (F64.of_Z 1000)) = true).
  { apply (mul_mono_normal (-50) 21 (-43) (-43)); assumption || reflexivity || lia. }
  apply (leb_trans_zn (-120) 32 (-120) 32 (-120) 32 _
           (SFdiv 53 1024 (SFmul 53 1024 (SFmul 53 1024 a2 FT2_PER_M2)
                             (SFmul 53 1024 (F64.of_Z 5833) m2))
                          (SFmul 53 1024 e1 (F64.of_Z 1000))));
    try (apply zn_normal; assumption).
  - apply (div_mono_normal (-35) 42 (-41) 32); assumption || lia.
  - apply (div_anti_normal (-35) 42 (-41) 32); assumption || lia.
Qed.

(** Between two runs, the first with no larger area, no larger roof
    multiplier, no smaller EER, no larger price and no larger emission
    factor, no figure of the first is above that of the second. *)
Lemma savings_monotone (w1 w2 : Widgets) :
  min_values w1 = true -> moderate w1 = true ->
  zero_or_above TINY (ef_kg_per_kwh w1) = true ->
  min_values w2 = true -> moderate w2 = true ->
  zero_or_above TINY (ef_kg_per_kwh w2) = true ->
  (area_m2 w1 <=? area_m2 w2)%f64 = true ->
  (multiplier_of (roof_type w1) <=? multiplier_of (roof_type w2))%f64 = true ->
  (select_eer w2 <=? select_eer w1)%f64 = true ->
  (price_pln w1 <=? price_pln w2)%f64 = true ->
  (ef_kg_per_kwh w1 <=? ef_kg_per_kwh w2)%f64 = true ->
  exists o1 o2, app w1 = Ok o1 /\ app w2 = Ok o2 /\ savings_leb o1 o2 = true.
Proof.
  intros Min1 Mod1 Ef1 Min2 Mod2 Ef2 La Lm Le Lp Lf.
  destruct (input_ranges w1 Min1 Mod1) as (Ha1 & He1 & _).
  destruct (input_ranges w2 Min2 Mod2) as (Ha2 & He2 & _).
  pose proof (multiplier_range (roof_type w1)) as Hm1.
  pose proof (multiplier_range (roof_type w2)) as Hm2.
  destruct (upstream_leb _ _ _ _ _ _ Ha1 Ha2 He1 He2 Hm1 Hm2 La Lm Le) as [Lt Lk].
  destruct (app_fields w1 (divisor_nonzero w1 Min1)) as (o1 & Ho1 & Et1 & Ek1 & _).
  destruct (app_fields w2 (divisor_nonzero w2 Min2)) as (o2 & Ho2 & Et2 & Ek2 & _).
  exists o1, o2. split; [exact Ho1|]. split; [exact Ho2|].
  apply (downstream_leb w1 w2); try assumption.
  - now rewrite Et1, Et2.
  - now rewrite Ek1, Et1, Ek2, Et2.
Qed.

Lemma leb_refl_normal (lo hi : Z) (x : F64.float) :
  pos_normal lo hi x = true -> (x <=? x)%f64 = true.
Proof. intros H. apply (leb_refl_zn lo hi). now apply zn_normal. Qed.

Lemma price_leb_refl (w : Widgets) :
  min_values w = true -> moderate w = true -> (price_pln w <=? price_pln w)%f64 = true.
Proof.
  intros Hmin Hmod. destruct (input_ranges w Hmin Hmod) as (_ & _ & _ & Hp & _).
  apply (leb_refl_zn (-126) 21). now apply zn_or.
Qed.

Lemma ef_leb_refl (w : Widgets) :
  moderate w = true -> zero_or_above TINY (ef_kg_per_kwh w) = true ->
  (ef_kg_per_kwh w <=? ef_kg_per_kwh w)%f64 = true.
Proof. intros Hmod Hef. apply (leb_refl_zn (-126) 21). now apply ef_zero_or_normal. Qed.

Lemma area_leb_refl (w : Widgets) :
  min_values w = true -> moderate w = true -> (area_m2 w <=? area_m2 w)%f64 = true.
Proof.
  intros Hmin Hmod. destruct (input_ranges w Hmin Hmod) as (Ha & _).
  now apply (leb_refl_normal (-49) 21).
Qed.

Lemma eer_leb_refl (w : Widgets) :
  min_values w = true -> moderate w = true -> (select_eer w <=? select_eer w)%f64 = true.
Proof.
  intros Hmin Hmod. destruct (input_ranges w Hmin Hmod) as (_ & He & _).
  now apply (leb_refl_normal (-50) 21).
Qed.

Lemma multiplier_leb_refl (r : RoofOption) :
  (multiplier_of r <=? multiplier_of r)%f64 = true.
Proof. destruct r; reflexivity. Qed.

(** * Monotonicity of the savings *)

(** X2: a larger roof never shows smaller savings.  For two runs that
    differ only in the area, both within the minimum values and of
    moderate size (emission factor zero or at least 1e-22), the run with
    the larger area has no smaller total reduction, kWh, money, kg and
    tonnes of CO2, GJ, tree and car-km equivalents, and no smaller entry
    in any of the three 20-year series. *)
Theorem larger_area_no_less (w : Widgets) (a : F64.float) :
  min_values w = true -> moderate w = true ->
  zero_or_above TINY (ef_kg_per_kwh w) = true ->
  min_values (set_area_m2 w a) = true -> moderate (set_area_m2 w a) = true ->
  (area_m2 w <=? a)%f64 = true ->
  exists o o', app w = Ok o /\ app (set_area_m2 w a) = Ok o' /\
    savings_leb o o' = true.
Proof.
  intros Min Mod Ef Min' Mod' La.
  apply (savings_monotone w (set_area_m2 w a) Min Mod Ef Min' Mod' Ef La).
  - apply (multiplier_leb_refl (roof_type w)).
  - exact (eer_leb_refl w Min Mod).
  - exact (price_leb_refl w Min Mod).
  - exact (ef_leb_refl w Mod Ef).
Qed.

Lemma larger_area_no_less_witness :
  exists o o', app defaults = Ok o /\
    app (set_area_m2 defaults (F64.of_Z 2500)) = Ok o' /\
    savings_leb o o' = true.
Proof.
  exact (larger_area_no_less defaults (F64.of_Z 2500)
           eq_refl eq_refl eq_refl eq_refl eq_refl eq_refl).
Defined.

(** X3: a higher EER never shows larger savings.  For two runs with a
    custom EER that differ only in that EER, the run with the higher EER
    has no larger kWh, money, CO2 and equivalents, in the yearly values
    and in every entry of the 20-year series; the total reduction and
    the GJ do not depend on the EER. *)
Theorem higher_eer_no_more (w : Widgets) (e e' : F64.float) :
  min_values (set_custom_eer w e) = true -> moderate (set_custom_eer w e) = true ->
  min_values (set_custom_eer w e') = true -> moderate (set_custom_eer w e') = true ->
  zero_or_above TINY (ef_kg_per_kwh w) = true ->
  (e <=? e')%f64 = true ->
  exists o o', app (set_custom_eer w e) = Ok o /\
    app (set_custom_eer w e') = Ok o' /\
    savings_leb o' o = true /\
    total_reduction_btu o' = total_reduction_btu o /\
    gj_saved o' = gj_saved o.
Proof.
  intros Min Mod Min' Mod' Ef Le.
  destruct (savings_monotone (set_custom_eer w e') (set_custom_eer w e)
              Min' Mod' Ef Min Mod Ef)
    as (o' & o & Ho' & Ho & Hs).
  - exact (area_leb_refl (set_custom_eer w e) Min Mod).
  - apply (multiplier_leb_refl (roof_type w)).
  - exact Le.
  - exact (price_leb_refl (set_custom_eer w e) Min Mod).
  - exact (ef_leb_refl (set_custom_eer w e) Mod Ef).
  - exists o, o'. split; [exact Ho|]. split; [exact Ho'|]. split; [exact Hs|].
    destruct (app_fields _ (divisor_nonzero _ Min))
      as (o1 & Ho1 & Et1 & _ & _ & _ & _ & Ej1 & _).
    destruct (app_fields _ (divisor_nonzero _ Min'))
      as (o2 & Ho2 & Et2 & _ & _ & _ & _ & Ej2 & _).
    rewrite Ho in Ho1. injection Ho1 as <-.
    rewrite Ho' in Ho2. injection Ho2 as <-.
    rewrite Ej2, Ej1, Et2, Et1. split; reflexivity.
Qed.

Lemma higher_eer_no_more_witness :
  exists o o', app (set_custom_eer defaults (F64.of_Z 8)) = Ok o /\
    app (set_custom_eer defaults (F64.lit 125 10)) = Ok o' /\
    savings_leb o' o = true /\
    total_reduction_btu o' = total_reduction_btu o /\
    gj_saved o' = gj_saved o.
Proof.
  exact (higher_eer_no_more defaults (F64.of_Z 8) (F64.lit 125 10)
           eq_refl eq_refl eq_refl eq_refl eq_refl eq_refl).
Defined.

(** X4: the efficiency bands are ordered.  With the custom EER off, the
    band "Wysoka sprawność" (EER 13) shows no larger savings than
    "Standard" (EER 11), and "Standard" no larger than "Stary" (EER 9),
    the other inputs being the same. *)
Theorem better_band_no_more (w : Widgets) :
  custom_eer_on w = false ->
  min_values w = true -> moderate w = true ->
  zero_or_above TINY (ef_kg_per_kwh w) = true ->
  exists o9 o11 o13,
    app (set_ac_band w Stary) = Ok o9 /\
    app (set_ac_band w Standard) = Ok o11 /\
    app (set_ac_band w Wysoka_sprawnosc) = Ok o13 /\
    savings_leb o13 o11 = true /\ savings_leb o11 o9 = true.
Proof.
  intros Hc Min Mod Ef.
  assert (Hcc : forall b, custom_eer_on (set_ac_band w b) = false) by (intros b; exact Hc).
  assert (Hsel : forall b, select_eer (set_ac_band w b) = band_eer b).
  { intros b. rewrite select_eer_band, Hcc. reflexivity. }
  destruct (savings_monotone (set_ac_band w Wysoka_sprawnosc) (set_ac_band w Standard)
              Min Mod Ef Min Mod Ef)
    as (o13 & o11 & H13 & H11 & L1).
  - exact (area_leb_refl w Min Mod).
  - apply (multiplier_leb_refl (roof_type w)).
  - rewrite !Hsel. reflexivity.
  - exact (price_leb_refl w Min Mod).
  - exact (ef_leb_refl w Mod Ef).
  - destruct (savings_monotone (set_ac_band w Standard) (set_ac_band w Stary)
                Min Mod Ef Min Mod Ef)
      as (o11' & o9 & H11' & H9 & L2).
    + exact (area_leb_refl w Min Mod).
    + apply (multiplier_leb_refl (roof_type w)).
    + rewrite !Hsel. reflexivity.
    + exact (price_leb_refl w Min Mod).
    + exact (ef_leb_refl w Mod Ef).
    + rewrite H11 in H11'. injection H11' as <-.
      exists o9, o11, o13. repeat split; assumption.
Qed.

Lemma better_band_no_more_witness :
  exists o9 o11 o13,
    app (set_ac_band defaults Stary) = Ok o9 /\
    app (set_ac_band defaults Standard) = Ok o11 /\
    app (set_ac_band defaults Wysoka_sprawnosc) = Ok o13 /\
    savings_leb o13 o11 = true /\ savings_leb o11 o9 = true.
Proof. exact (better_band_no_more defaults eq_refl eq_refl eq_refl eq_refl). Defined.

(** X5: the roof types are ordered.  The other inputs being the same,
    concrete (multiplier 0.95) shows no larger savings than metal (1.00),
    and metal no larger than bitumen (1.05). *)
Theorem roof_types_ordered (w : Widgets) :
  min_values w = true -> moderate w = true ->
  zero_or_above TINY (ef_kg_per_kwh w) = true ->
  exists ob om op,
    app (set_roof_type w Beton) = Ok ob /\
    app (set_roof_type w Blacha_metal) = Ok om /\
    app (set_roof_type w Papa_bitum) = Ok op /\
    savings_leb ob om = true /\ savings_leb om op = true.
Proof.
  intros Min Mod Ef.
  destruct (savings_monotone (set_roof_type w Beton) (set_roof_type w Blacha_metal)
              Min Mod Ef Min Mod Ef)
    as (ob & om & Hb & Hm & L1).
  - exact (area_leb_refl w Min Mod).
  - reflexivity.
  - exact (eer_leb_refl w Min Mod).
  - exact (price_leb_refl w Min Mod).
  - exact (ef_leb_refl w Mod Ef).
  - destruct (savings_monotone (set_roof_type w Blacha_metal) (set_roof_type w Papa_bitum)
                Min Mod Ef Min Mod Ef)
      as (om' & op & Hm' & Hp & L2).
    + exact (area_leb_refl w Min Mod).
    + reflexivity.
    + exact (eer_leb_refl w Min Mod).
    + exact (price_leb_refl w Min Mod).
    + exact (ef_leb_refl w Mod Ef).
    + rewrite Hm in Hm'. injection Hm' as <-.
      exists ob, om, op. repeat split; assumption.
Qed.

Lemma roof_types_ordered_witness :
  exists ob om op,
    app (set_roof_type defaults Beton) = Ok ob /\
    app (set_roof_type defaults Blacha_metal) = Ok om /\
    app (set_roof_type defaults Papa_bitum) = Ok op /\
    savings_leb ob om = true /\ savings_leb om op = true.
Proof. exact (roof_types_ordered defaults eq_refl eq_refl eq_refl). Defined.

(** X6: a higher energy price never shows smaller savings.  For two runs
    that differ only in the price, the run with the higher price has no
    smaller money saved, yearly and in the 20-year series; the kWh
    and the kg of CO2 are the same. *)
Theorem higher_price_no_less (w : Widgets) (p : F64.float) :
  min_values w = true -> moderate w = true ->
  zero_or_above TINY (ef_kg_per_kwh w) = true ->
  min_values (set_price_pln w p) = true -> moderate (set_price_pln w p) = true ->
  (price_pln w <=? p)%f64 = true ->
  exists o o', app w = Ok o /\ app (set_price_pln w p) = Ok o' /\
    savings_leb o o' = true /\
    kwh_saved o' = kwh_saved o /\ kg_co2_saved o' = kg_co2_saved o.
Proof.
  intros Min Mod Ef Min' Mod' Lp.
  destruct (savings_monotone w (set_price_pln w p) Min Mod Ef Min' Mod' Ef)
    as (o & o' & Ho & Ho' & Hs).
  - exact (area_leb_refl w Min Mod).
  - apply (multiplier_leb_refl (roof_type w)).
  - exact (eer_leb_refl w Min Mod).
  - exact Lp.
  - exact (ef_leb_refl w Mod Ef).
  - exists o, o'. split; [exact Ho|]. split; [exact Ho'|]. split; [exact Hs|].
    destruct (app_fields _ (divisor_nonzero _ Min)) as (o1 & Ho1 & Et1 & Ek1 & _ & Eg1 & _).
    destruct (app_fields _ (divisor_nonzero _ Min')) as (o2 & Ho2 & Et2 & Ek2 & _ & Eg2 & _).
    rewrite Ho in Ho1. injection Ho1 as <-.
    rewrite Ho' in Ho2. injection Ho2 as <-.
    assert (Ek : kwh_saved o' = kwh_saved o) by (rewrite Ek2, Ek1, Et2, Et1; reflexivity).
    split; [exact Ek|]. rewrite Eg2, Eg1, Ek. reflexivity.
Qed.

Lemma higher_price_no_less_witness :
  exists o o', app defaults = Ok o /\
    app (set_price_pln defaults (F64.lit 120 100)) = Ok o' /\
    savings_leb o o' = true /\
    kwh_saved o' = kwh_saved o /\ kg_co2_saved o' = kg_co2_saved o.
Proof.
  exact (higher_price_no_less defaults (F64.lit 120 100)
           eq_refl eq_refl eq_refl eq_refl eq_refl eq_refl).
Defined.

(** X7: a higher emission factor never shows a smaller CO2 reduction.
    For two runs that differ only in the emission factor, the run with
    the higher factor has no smaller kg and tonnes of CO2, tree and
    car-km equivalents, yearly and in the 20-year series; the kWh and
    the money saved are the same. *)
Theorem higher_ef_no_less (w : Widgets) (f : F64.float) :
  min_values w = true -> moderate w = true ->
  zero_or_above TINY (ef_kg_per_kwh w) = true ->
  min_values (set_ef_kg_per_kwh w f) = true ->
  moderate (set_ef_kg_per_kwh w f) = true ->
  zero_or_above TINY f = true ->
  (ef_kg_per_kwh w <=? f)%f64 = true ->
  exists o o', app w = Ok o /\ app (set_ef_kg_per_kwh w f) = Ok o' /\
    savings_leb o o' = true /\
    kwh_saved o' = kwh_saved o /\ pln_saved o' = pln_saved o.
Proof.
  intros Min Mod Ef Min' Mod' Ef' Lf.
  destruct (savings_monotone w (set_ef_kg_per_kwh w f) Min Mod Ef Min' Mod' Ef')
    as (o & o' & Ho & Ho' & Hs).
  - exact (area_leb_refl w Min Mod).
  - apply (multiplier_leb_refl (roof_type w)).
  - exact (eer_leb_refl w Min Mod).
  - exact (price_leb_refl w Min Mod).
  - exact Lf.
  - exists o, o'. split; [exact Ho|]. split; [exact Ho'|]. split; [exact Hs|].
    destruct (app_fields _ (divisor_nonzero _ Min)) as (o1 & Ho1 & Et1 & Ek1 & Ep1 & _).
    destruct (app_fields _ (divisor_nonzero _ Min')) as (o2 & Ho2 & Et2 & Ek2 & Ep2 & _).
    rewrite Ho in Ho1. injection Ho1 as <-.
    rewrite Ho' in Ho2. injection Ho2 as <-.
    assert (Ek : kwh_saved o' = kwh_saved o) by (rewrite Ek2, Ek1, Et2, Et1; reflexivity).
    split; [exact Ek|]. rewrite Ep2, Ep1, Ek. reflexivity.
Qed.

Lemma higher_ef_no_less_witness :
  exists o o', app defaults = Ok o /\
    app (set_ef_kg_per_kwh defaults (F64.lit 90 100)) = Ok o' /\
    savings_leb o o' = true /\
    kwh_saved o' = kwh_saved o /\ pln_saved o' = pln_saved o.
Proof.
  exact (higher_ef_no_less defaults (F64.lit 90 100)
           eq_refl eq_refl eq_refl eq_refl eq_refl eq_refl eq_refl).
Defined.

(** * The 20-year series *)

(** X8: the cumulative series never fall.  For inputs within the minimum
    values and of moderate size, each entry of the cumulative kWh, money
    and CO2 series is at least the entry of the year before. *)
Theorem cumulative_nondecreasing (w : Widgets) :
  min_values w = true -> moderate w = true ->
  zero_or_above TINY (ef_kg_per_kwh w) = true ->
  exists o, app w = Ok o /\
    forall n x y,
      (nth_error (kwh_cum o) n = Some x -> nth_error (kwh_cum o) (S n) = Some y ->
       (x <=? y)%f64 = true) /\
      (nth_error (pln_cum o) n = Some x -> nth_error (pln_cum o) (S n) = Some y ->
       (x <=? y)%f64 = true) /\
      (nth_error (tco2_cum o) n = Some x -> nth_error (tco2_cum o) (S n) = Some y ->
       (x <=? y)%f64 = true).
Proof.
  intros Min Mod Ef.
  destruct (input_ranges w Min Mod) as (Ha & He & _ & Hpz & _ & _).
  apply zn_or in Hpz.
  pose proof (ef_zero_or_normal w Mod Ef) as Hf.
  pose proof (multiplier_range (roof_type w)) as Hm.
  destruct (figures_ranges _ _ _ _ _ Ha He Hm Hpz Hf) as (_ & Rk & Rp & Rg & Rc).
  destruct (app_fields w (divisor_nonzero w Min))
    as (o & Ho & Et & Ek & Ep & Eg & Ec & _ & _ & _ & Ck & Cp & Cc & _).
  rewrite <- Et, <- Ek in Rk, Rp, Rg, Rc.
  rewrite <- Ep in Rp. rewrite <- Eg in Rc. rewrite <- Ec in Rc.
  apply zn_normal in Rk.
  exists o. split; [exact Ho|]. intros n x y.
  rewrite Ck, Cp, Cc, !cumsum_full.
  change (List.length (arange 1 21)) with 20%nat.
  destruct (Nat.ltb_spec (S n) 20) as [Hn|Hn];
    [|repeat split; intros _ [=]].
  assert (Hn' : (n <? 20)%nat = true) by (apply Nat.ltb_lt; lia).
  rewrite Hn'.
  repeat split; intros [= <-] [= <-].
  - apply (sum_copies_step (-120) 32); try assumption; lia.
  - apply (sum_copies_step (-194) 107); try assumption; lia.
  - apply (sum_copies_step (-204) 99); try assumption; lia.
Qed.

Lemma cumulative_nondecreasing_witness :
  exists o, app defaults = Ok o /\
    forall x y, nth_error (kwh_cum o) 6 = Some x -> nth_error (kwh_cum o) 7 = Some y ->
                (x <=? y)%f64 = true.
Proof.
  destruct (cumulative_nondecreasing defaults eq_refl eq_refl eq_refl) as (o & Ho & H).
  exists o. split; [exact Ho|]. intros x y. apply (H 6%nat x y).
Defined.

(** * The payback time *)

Lemma unit_cost_zero_or_normal (w : Widgets) :
  cost_on w = true -> moderate w = true ->
  zero_or_above TINY (unit_cost w) = true ->
  zero_or_pos_normal (-126) 21 (unit_cost w) = true.
Proof.
  intros Hc Hmod Hu. unfold moderate in Hmod. rewrite Hc, !andb_true_iff in Hmod.
  destruct Hmod as (_ & Wc & Bc). apply zn_or. now apply zero_or_normal.
Qed.

Lemma gtb_zero_zn (lo hi : Z) (x : F64.float) :
  zero_or_pos_normal lo hi x = true ->
  (x >? F64.zero)%f64 = true -> pos_normal lo hi x = true.
Proof. intros H G. zn_cases H; [discriminate|assumption]. Qed.

Lemma normal_gtb_zero (lo hi : Z) (x : F64.float) :
  pos_normal lo hi x = true -> (x >? F64.zero)%f64 = true.
Proof. intros H. as_finite H. reflexivity. Qed.

Lemma leb_normal_zn (l1 h1 l2 h2 : Z) (x y : F64.float) :
  pos_normal l1 h1 x = true -> zero_or_pos_normal l2 h2 y = true ->
  (x <=? y)%f64 = true -> pos_normal l2 h2 y = true.
Proof. intros Hx Hy L. zn_cases Hy; [as_finite Hx; discriminate|assumption]. Qed.

(** The payback section of two runs with the payback enabled: when the
    first run has no larger yearly savings and no smaller cost, it shows
    no shorter payback time. *)
Lemma payback_order (w1 w2 : Widgets) (p1 p2 : F64.float) :
  cost_on w1 = true -> cost_on w2 = true ->
  zero_or_pos_normal (-123) 96 (unit_cost w1 * area_m2 w1)%f64 = true ->
  zero_or_pos_normal (-123) 96 (unit_cost w2 * area_m2 w2)%f64 = true ->
  zero_or_pos_normal (-194) 107 p1 = true ->
  zero_or_pos_normal (-194) 107 p2 = true ->
  (p1 <=? p2)%f64 = true ->
  (unit_cost w2 * area_m2 w2 <=? unit_cost w1 * area_m2 w1)%f64 = true ->
  forall y1 c1, payback_of w1 p1 = PaybackInfo y1 c1 ->
  exists y2 c2, payback_of w2 p2 = PaybackInfo y2 c2 /\
    (y2 <=? y1)%f64 = true /\ (c2 <=? c1)%f64 = true.
Proof.
  intros C1 C2 Rc1 Rc2 Rp1 Rp2 Lp Lc y1 c1. unfold payback_of. rewrite C1, C2.
  destruct (p1 >? F64.zero)%f64 eqn:G1; [|discriminate].
  intros [= <- <-].
  pose proof (gtb_zero_zn _ _ _ Rp1 G1) as N1.
  pose proof (leb_normal_zn _ _ _ _ _ _ N1 Rp2 Lp) as N2.
  rewrite (normal_gtb_zero _ _ _ N2).
  do 2 eexists. split; [reflexivity|]. split; [|exact Lc].
  unfold F64.leb, F64.div, F64.mul in *.
  apply (leb_trans_zn (-123 - 107 - 53) (96 - -194 - 51) (-123 - 107 - 53) (96 - -194 - 51)
           (-123 - 107 - 53) (96 - -194 - 51) _
           (SFdiv 53 1024 (SFmul 53 1024 (unit_cost w2) (area_m2 w2)) p1)).
  - apply div_zn; assumption || lia.
  - apply div_zn; assumption || lia.
  - apply div_zn; assumption || lia.
  - apply (div_anti_zn (-123) 96 (-194) 107); assumption || lia.
  - apply (div_mono_zn (-123) 96 (-194) 107); assumption || lia.
Qed.

Lemma capex_range (w : Widgets) :
  min_values w = true -> moderate w = true -> cost_on w = true ->
  zero_or_above TINY (unit_cost w) = true ->
  zero_or_pos_normal (-123) 96 (unit_cost w * area_m2 w)%f64 = true.
Proof.
  intros Min Mod Hc Hu. destruct (input_ranges w Min Mod) as (Ha & _).
  apply (mul_zn (-126) 21 (-49) 21); try lia.
  - now apply unit_cost_zero_or_normal.
  - now apply zn_normal.
Qed.

Lemma pln_range (w : Widgets) (o : Outputs) :
  min_values w = true -> moderate w = true -> app w = Ok o ->
  zero_or_pos_normal (-194) 107 (pln_saved o) = true.
Proof.
  intros Min Mod Ho.
  destruct (input_ranges w Min Mod) as (Ha & He & _ & Hpz & _ & _).
  apply zn_or in Hpz.
  pose proof (multiplier_range (roof_type w)) as Hm.
  pose proof (kwh_range _ _ _ Ha He Hm) as Rk.
  destruct (app_fields w (divisor_nonzero w Min)) as (o1 & Ho1 & Et & Ek & Ep & _).
  rewrite Ho in Ho1. injection Ho1 as <-.
  rewrite Ep, Ek, Et.
  apply (mul_zn (-120) 32 (-126) 21); try lia; [now apply zn_normal|assumption].
Qed.

(** X9: a higher energy price never lengthens the payback.  With the
    payback enabled, if the run shows a payback time, the run with a
    higher price (the other inputs the same) shows one too, for the same
    cost, and it is no longer. *)
Theorem higher_price_no_longer_payback (w : Widgets) (p : F64.float) :
  cost_on w = true ->
  min_values w = true -> moderate w = true ->
  zero_or_above TINY (ef_kg_per_kwh w) = true ->
  zero_or_above TINY (unit_cost w) = true ->
  min_values (set_price_pln w p) = true -> moderate (set_price_pln w p) = true ->
  (price_pln w <=? p)%f64 = true ->
  exists o o', app w = Ok o /\ app (set_price_pln w p) = Ok o' /\
    forall y capex, payback o = PaybackInfo y capex ->
    exists y', payback o' = PaybackInfo y' capex /\ (y' <=? y)%f64 = true.
Proof.
  intros Hc Min Mod Ef Hu Min' Mod' Lp.
  destruct (savings_monotone w (set_price_pln w p) Min Mod Ef Min' Mod' Ef)
    as (o & o' & Ho & Ho' & Hs).
  - exact (area_leb_refl w Min Mod).
  - apply (multiplier_leb_refl (roof_type w)).
  - exact (eer_leb_refl w Min Mod).
  - exact Lp.
  - exact (ef_leb_refl w Mod Ef).
  - exists o, o'. split; [exact Ho|]. split; [exact Ho'|].
    pose proof (pln_range _ _ Min Mod Ho) as Rp.
    pose proof (pln_range _ _ Min' Mod' Ho') as Rp'.
    pose proof (capex_range w Min Mod Hc Hu) as Rc.
    destruct (app_fields _ (divisor_nonzero _ Min)) as (o1 & Ho1 & F1).
    destruct (app_fields _ (divisor_nonzero _ Min')) as (o2 & Ho2 & F2).
    rewrite Ho in Ho1. injection Ho1 as <-.
    rewrite Ho' in Ho2. injection Ho2 as <-.
    destruct F1 as (_ & _ & _ & _ & _ & _ & _ & _ & _ & _ & _ & P1).
    destruct F2 as (_ & _ & _ & _ & _ & _ & _ & _ & _ & _ & _ & P2).
    unfold savings_leb in Hs. rewrite !andb_true_iff in Hs.
    destruct Hs as ((((((((((_ & _) & Lpln) & _) & _) & _) & _) & _) & _) & _) & _).
    intros y capex Hy. rewrite P1 in Hy.
    destruct (payback_order w (set_price_pln w p) _ _ Hc Hc Rc Rc Rp Rp' Lpln
                (leb_refl_zn _ _ _ Rc) y capex Hy) as (y' & c' & E' & Ly & _).
    exists y'. split; [|exact Ly].
    rewrite P2, E'. unfold payback_of in Hy, E'.
    cbn [set_price_pln cost_on unit_cost area_m2] in E'. rewrite Hc in Hy, E'.
    destruct (pln_saved o >? F64.zero)%f64; [|discriminate].
    destruct (pln_saved o' >? F64.zero)%f64; [|discriminate].
    injection Hy as _ <-. injection E' as _ <-. reflexivity.
Qed.

Lemma higher_price_no_longer_payback_witness :
  exists o o', app example_scenario = Ok o /\
    app (set_price_pln example_scenario (F64.lit 120 100)) = Ok o' /\
    forall y capex, payback o = PaybackInfo y capex ->
    exists y', payback o' = PaybackInfo y' capex /\ (y' <=? y)%f64 = true.
Proof.
  exact (higher_price_no_longer_payback example_scenario (F64.lit 120 100)
           eq_refl eq_refl eq_refl eq_refl eq_refl eq_refl eq_refl eq_refl).
Defined.

(** X10: a dearer coating never shortens the payback.  With the payback
    enabled, if the run with the higher cost per square metre shows a
    payback time, so does the run with the lower cost (the other inputs
    the same), and neither its time nor its total cost is larger. *)
Theorem higher_cost_no_shorter_payback (w : Widgets) (c c' : F64.float) :
  min_values (set_cost w c) = true -> moderate (set_cost w c) = true ->
  min_values (set_cost w c') = true -> moderate (set_cost w c') = true ->
  zero_or_above TINY c = true -> zero_or_above TINY c' = true ->
  (c <=? c')%f64 = true ->
  exists o o', app (set_cost w c) = Ok o /\ app (set_cost w c') = Ok o' /\
    pln_saved o' = pln_saved o /\
    forall y' capex', payback o' = PaybackInfo y' capex' ->
    exists y capex, payback o = PaybackInfo y capex /\
      (y <=? y')%f64 = true /\ (capex <=? capex')%f64 = true.
Proof.
  intros Min Mod Min' Mod' Hu Hu' Lc.
  destruct (app_fields _ (divisor_nonzero _ Min)) as (o & Ho & Et & Ek & Ep & F).
  destruct (app_fields _ (divisor_nonzero _ Min')) as (o' & Ho' & Et' & Ek' & Ep' & F').
  destruct F as (_ & _ & _ & _ & _ & _ & _ & _ & P).
  destruct F' as (_ & _ & _ & _ & _ & _ & _ & _ & P').
  exists o, o'. split; [exact Ho|]. split; [exact Ho'|].
  assert (Epln : pln_saved o' = pln_saved o).
  { rewrite Ep', Ep, Ek', Ek, Et', Et. reflexivity. }
  split; [exact Epln|].
  pose proof (pln_range _ _ Min Mod Ho) as Rp.
  pose proof (capex_range (set_cost w c) Min Mod eq_refl Hu) as Rc.
  pose proof (capex_range (set_cost w c') Min' Mod' eq_refl Hu') as Rc'.
  destruct (input_ranges _ Min Mod) as (Ha & _).
  intros y' capex' Hy'. rewrite P', Epln in Hy'. rewrite P.
  apply (payback_order (set_cost w c') (set_cost w c) (pln_saved o) (pln_saved o)
           eq_refl eq_refl Rc' Rc Rp Rp (leb_refl_zn _ _ _ Rp)); [|exact Hy'].
  cbn [set_cost unit_cost area_m2]. unfold F64.leb, F64.mul.
  apply (mul_mono_zn (-126) 21 (-49) 21); try lia.
  - exact (unit_cost_zero_or_normal (set_cost w c) eq_refl Mod Hu).
  - exact (unit_cost_zero_or_normal (set_cost w c') eq_refl Mod' Hu').
  - now apply zn_normal.
  - exact Lc.
Qed.

Lemma higher_cost_no_shorter_payback_witness :
  exists o o', app (set_cost defaults (F64.of_Z 40)) = Ok o /\
    app (set_cost defaults (F64.of_Z 65)) = Ok o' /\
    pln_saved o' = pln_saved o /\
    forall y' capex', payback o' = PaybackInfo y' capex' ->
    exists y capex, payback o = PaybackInfo y capex /\
      (y <=? y')%f64 = true /\ (capex <=? capex')%f64 = true.
Proof.
  exact (higher_cost_no_shorter_payback defaults (F64.of_Z 40) (F64.of_Z 65)
           eq_refl eq_refl eq_refl eq_refl eq_refl eq_refl eq_refl).
Defined.

(** * Signs *)


Lemma round_sign (m e : Z) (l : location) :
  nonneg_sign (binary_round_aux 53 1024 false m e l) = true.
Proof.
  unfold binary_round_aux.
  destruct (shr_fexp 53 1024 m e l) as [mrs e1].
  destruct (shr_fexp 53 1024 _ e1 loc_Exact) as [mrs' e2].
  destruct (shr_m mrs'); try reflexivity.
  destruct (e2 <=? 1024 - 53); reflexivity.
Qed.

Lemma mul_sign (x y : F64.float) :
  nonneg_sign x = true -> nonneg_sign y = true -> nonneg_sign (x * y)%f64 = true.
Proof.
  unfold F64.mul, F64.prec, F64.emax.
  destruct x as [sx|[]| |[] mx ex]; try discriminate;
    destruct y as [sy|[]| |[] my ey]; try discriminate; intros _ _;
    try reflexivity.
  cbn [SFmul xorb]. apply round_sign.
Qed.

Lemma div_sign (x y : F64.float) :
  nonneg_sign x = true -> nonneg_sign y = true -> F64.is_zero y = false ->
  nonneg_sign (x / y)%f64 = true.
Proof.
  unfold F64.div, F64.is_zero, F64.prec, F64.emax.
  destruct x as [sx|[]| |[] mx ex]; try discriminate;
    destruct y as [sy|[]| |[] my ey]; try discriminate; intros _ _ _;
    try reflexivity.
  cbn [SFdiv xorb].
  destruct (SFdiv_core_binary 53 1024 (Zpos mx) ex (Zpos my) ey) as [[mz ez] lz].
  apply round_sign.
Qed.

Lemma add_sign (x y : F64.float) :
  nonneg_sign x = true -> nonneg_sign y = true -> nonneg_sign (x + y)%f64 = true.
Proof.
  unfold F64.add, F64.prec, F64.emax.
  destruct x as [[]|[]| |[] mx ex]; try discriminate;
    destruct y as [[]|[]| |[] my ey]; try discriminate; intros _ _;
    try reflexivity.
  cbn [SFadd cond_Zopp].
  change (Zpos (fst (shl_align mx ex (Z.min ex ey)))
          + Zpos (fst (shl_align my ey (Z.min ex ey))))
    with (Zpos (fst (shl_align mx ex (Z.min ex ey))
                + fst (shl_align my ey (Z.min ex ey)))).
  cbn [binary_normalize]. unfold binary_round.
  destruct (shl_align _ _ _) as [mz ez]. apply round_sign.
Qed.

Lemma leb_zero_sign (x : F64.float) :
  (F64.zero <=? x)%f64 = true -> nonneg_sign x = true.
Proof. destruct x as [s|[]| |[] m e]; intros H; try discriminate; reflexivity. Qed.

Lemma leb_finite_sign (m : positive) (e : Z) (x : F64.float) :
  (S754_finite false m e <=? x)%f64 = true -> nonneg_sign x = true.
Proof. destruct x as [s|[]| |[] m' e']; intros H; try discriminate; reflexivity. Qed.

Lemma sign_not_below (x : F64.float) :
  nonneg_sign x = true -> negb (below_zero x) = true.
Proof. destruct x as [s|[]| |[] m e]; intros H; try discriminate; reflexivity. Qed.

Lemma cumsum_from_sign (x : F64.float) (ys : list Z) :
  nonneg_sign x = true ->
  forall acc, nonneg_sign acc = true ->
    forallb (fun y => negb (below_zero y)) (cumsum_from acc (full_like ys x)) = true.
Proof.
  intros Hx. induction ys as [|y ys IH]; intros acc Hacc; [reflexivity|].
  cbn [full_like map cumsum_from forallb].
  change (map (fun _ : Z => x) ys) with (full_like ys x).
  pose proof (add_sign _ _ Hacc Hx) as Hs.
  rewrite (sign_not_below _ Hs). now apply IH.
Qed.

Lemma projection_sign (x : F64.float) :
  nonneg_sign x = true ->
  forallb (fun y => negb (below_zero y)) (cumsum (full_like (arange 1 21) x)) = true.
Proof.
  intros Hx. rewrite years_eq. cbn [full_like map cumsum forallb].
  rewrite (sign_not_below _ Hx).
  apply (cumsum_from_sign x [2; 3; 4; 5; 6; 7; 8; 9; 10; 11; 12; 13; 14; 15;
                             16; 17; 18; 19; 20] Hx x Hx).
Qed.

Lemma input_signs (w : Widgets) :
  min_values w = true ->
  nonneg_sign (area_m2 w) = true /\ nonneg_sign (select_eer w) = true /\
  nonneg_sign (price_pln w) = true /\ nonneg_sign (ef_kg_per_kwh w) = true /\
  (cost_on w = true -> nonneg_sign (unit_cost w) = true).
Proof.
  unfold min_values. rewrite !andb_true_iff.
  intros ((((Ma & Me) & Mp) & Mf) & Mc). repeat split.
  - now apply (leb_finite_sign 5629499534213120 (-49)).
  - rewrite select_eer_band. destruct (custom_eer_on w).
    + now apply (leb_finite_sign 5629499534213120 (-50)).
    + destruct (ac_band w); reflexivity.
  - now apply leb_zero_sign.
  - now apply leb_zero_sign.
  - intros Hc. rewrite Hc in Mc. now apply leb_zero_sign.
Qed.

(** X11: no figure is ever negative.  For every input within the widgets'
    minimum values, however large, the script runs and none of its
    figures is below zero: the yearly values, every entry of the 20-year
    series, the payback time and the cost. *)
Theorem figures_never_negative (w : Widgets) :
  min_values w = true ->
  exists o, app w = Ok o /\ never_negative o = true.
Proof.
  intros Hmin. pose proof (divisor_nonzero w Hmin) as Hdiv.
  destruct (input_signs w Hmin) as (Sa & Se & Sp & Sf & Sc).
  assert (Sm : nonneg_sign (multiplier_of (roof_type w)) = true)
    by (destruct (roof_type w); reflexivity).
  app_result. unfold never_negative.
  cbn [eer roof_mult area_ft2 reduction_btu_per_ft2 total_reduction_btu
       kwh_saved pln_saved kg_co2_saved t_co2_saved gj_saved trees_eq km_eq
       kwh_cum pln_cum tco2_cum payback].
  pose proof (mul_sign _ FT2_PER_M2 Sa eq_refl) as Saft.
  pose proof (mul_sign (F64.of_Z 5833) _ eq_refl Sm) as Sred.
  pose proof (mul_sign _ _ Saft Sred) as Stot.
  pose proof (mul_sign _ (F64.of_Z 1000) Se eq_refl) as Sdiv.
  pose proof (div_sign _ _ Stot Sdiv Hdiv) as Skwh.
  pose proof (mul_sign _ _ Skwh Sp) as Spln.
  pose proof (mul_sign _ _ Skwh Sf) as Skg.
  pose proof (div_sign _ (F64.of_Z 1000) Skg eq_refl eq_refl) as St.
  pose proof (div_sign _ (F64.of_Z 1000000000)
                (mul_sign _ BTU_TO_J Stot eq_refl) eq_refl eq_refl) as Sgj.
  pose proof (div_sign _ KG_PER_TREE_PER_YEAR Skg eq_refl eq_refl) as Strees.
  pose proof (div_sign _ KG_PER_CAR_KM Skg eq_refl eq_refl) as Skm.
  rewrite (sign_not_below _ Se), (sign_not_below _ Sm), (sign_not_below _ Saft),
    (sign_not_below _ Sred), (sign_not_below _ Stot), (sign_not_below _ Skwh),
    (sign_not_below _ Spln), (sign_not_below _ Skg), (sign_not_below _ St),
    (sign_not_below _ Sgj), (sign_not_below _ Strees), (sign_not_below _ Skm),
    (projection_sign _ Skwh), (projection_sign _ Spln), (projection_sign _ St).
  cbn [andb]. unfold payback_of.
  destruct (cost_on w) eqn:Hc; [|reflexivity].
  destruct (_ >? F64.zero)%f64 eqn:Hpos; [|reflexivity].
  pose proof (mul_sign _ _ (Sc eq_refl) Sa) as Scap.
  rewrite (sign_not_below _ Scap),
    (sign_not_below _ (div_sign _ _ Scap Spln (gtb_zero_not_zero _ Hpos))).
  reflexivity.
Qed.

Lemma figures_never_negative_witness :
  exists o, app (set_price_pln (set_area_m2 defaults (F64.of_Z (10 ^ 308))) F64.zero)
            = Ok o /\ never_negative o = true.
Proof.
  exact (figures_never_negative
           (set_price_pln (set_area_m2 defaults (F64.of_Z (10 ^ 308))) F64.zero)
           eq_refl).
Defined.

(** * The payback inputs *)


(** X12: the payback inputs touch nothing but the payback section.
    Whatever the other inputs, a run with the payback checkbox and the
    coating cost changed raises exactly when the run before raises, and
    otherwise gives the same figures, series and summary row; only the
    payback section can differ. *)
Theorem payback_inputs_frame (w : Widgets) (on : bool) (c : F64.float) :
  match app w, app (set_payback_inputs w on c) with
  | Ok o, Ok o' => o' = with_payback o (payback o')
  | Raise e, Raise e' => e = e'
  | _, _ => False
  end.
Proof.
  unfold app.
  change (select_eer (set_payback_inputs w on c)) with (select_eer w).
  cbn [set_payback_inputs area_m2 roof_type price_pln ef_kg_per_kwh].
  rewrite roof_lookup. cbv beta iota zeta delta [bind].
  destruct (truediv _ (select_eer w * F64.of_Z 1000)%f64) as [kwh|e]; [|reflexivity].
  rewrite !payback_section_ok, tree_constant_positive, car_constant_positive.
  rewrite !(truediv_ok _ (F64.of_Z 1000)), !(truediv_ok _ (F64.of_Z 1000000000)),
    !(truediv_ok _ KG_PER_TREE_PER_YEAR), !(truediv_ok _ KG_PER_CAR_KM)
    by reflexivity.
  rewrite !last_item_projection. reflexivity.
Qed.

(** X13: the payback time needs a positive price.  With the payback
    enabled and inputs within the minimum values, a price of zero always
    gives the warning, never a payback time; for inputs of moderate size
    a positive price always gives a payback time. *)
Theorem payback_needs_positive_price (w : Widgets) :
  min_values w = true -> cost_on w = true ->
  exists o, app w = Ok o /\
    (F64.is_zero (price_pln w) = true -> payback o = PaybackWarning) /\
    (moderate w = true -> (price_pln w >? F64.zero)%f64 = true ->
     exists y capex, payback o = PaybackInfo y capex).
Proof.
  intros Min Hc.
  destruct (app_fields w (divisor_nonzero w Min))
    as (o & Ho & Et & Ek & Ep & _ & _ & _ & _ & _ & _ & _ & _ & P).
  exists o. split; [exact Ho|]. rewrite P. unfold payback_of. rewrite Hc. split.
  - intros Hz. rewrite Ep.
    destruct (price_pln w) as [s| | |]; try discriminate.
    destruct (kwh_saved o) as [s'|s'| |s' m e]; reflexivity.
  - intros Mod Hp.
    pose proof (pln_range w o Min Mod Ho) as Rp.
    destruct (input_ranges w Min Mod) as (Ha & He & _ & Hpz & _ & _).
    pose proof (multiplier_range (roof_type w)) as Hm.
    pose proof (kwh_range _ _ _ Ha He Hm) as Rk.
    destruct Hpz as [[s Hz]|Hn]; [rewrite Hz in Hp; discriminate|].
    assert (Rn : pos_normal (-194) 107 (pln_saved o) = true).
    { rewrite Ep, Ek, Et. now apply (mul_normal (-120) 32 (-126) 21). }
    rewrite (normal_gtb_zero _ _ _ Rn). eauto.
Qed.

Lemma payback_needs_positive_price_witness :
  exists o, app (set_price_pln example_scenario F64.zero) = Ok o /\
    payback o = PaybackWarning.
Proof.
  destruct (payback_needs_positive_price (set_price_pln example_scenario F64.zero)
              eq_refl eq_refl) as (o & Ho & Hz & _).
  exists o. split; [exact Ho|]. exact (Hz eq_refl).
Defined.
